(** * cartero: the benchmark consumer (client/benchmarkconsumer.go)

    A shallow embedding of the Go source.  The sequential code of every
    routine is a function on the data it touches; operations that can wait
    or panic return an [outcome].  The goroutines (one feeder,
    [Concurrency] download workers) and the calls of the external caller
    are put together in a transition system: a label names who moves and
    carries what the outside world answers (the store's answer to a
    download, with the times the clock shows), and [step] gives the next
    state, if the move is possible.  The first part is the model, the
    second the vocabulary of the properties, the third the properties. *)

From Stdlib Require Import ZArith Lia.
From stdpp Require Import base list strings.

Local Open Scope Z_scope.

(** ** Go runtime primitives used by the source *)

Module Go.

(** [uint64] and [int64] (also [int], on a 64-bit platform) arithmetic wraps. *)
Definition uint64 (x : Z) : Z := x mod 2 ^ 64.
Definition int64 (x : Z) : Z := (x + 2 ^ 63) mod 2 ^ 64 - 2 ^ 63.

(** The [error] interface: [io.EOF] or any other error value. *)
Inductive error := EOF | Err (msg : string).

Definition is_EOF (e : error) : bool :=
  match e with EOF => true | Err _ => false end.

(** What one operation of a goroutine does: completes with a value,
    cannot proceed yet, or brings the process down. *)
Inductive outcome (A : Type) :=
| Ok (a : A)
| Blocked
| Panic (msg : string).
Arguments Ok {A} a.
Arguments Blocked {A}.
Arguments Panic {A} msg.

(** [sync.Mutex]: [true] is locked.  [Lock] on a locked mutex waits;
    [Unlock] on an unlocked mutex is a fatal error. *)
Definition Mutex := bool.

Definition Lock (m : Mutex) : outcome Mutex :=
  if m then Blocked else Ok true.

Definition Unlock (m : Mutex) : outcome Mutex :=
  if m then Ok false else Panic "sync: unlock of unlocked mutex".

(** [time.Time] and [time.Duration], in nanoseconds. *)
Definition Time := Z.
Definition Sub (t u : Time) : Z := t - u.

End Go.
Import Go.

(** ** Data model *)

Record downloadTask := {
  task_name : string;
  task_bufferPosition : nat
}.

Record benchmarkObjectInDownload := {
  obj_size : Z;
  obj_name : string;
  readLock : Mutex;
  changeObjectLock : Mutex
}.

Record MinioMetrics := {
  FilesDownloaded : Z;
  BytesDownloaded : Z;
  FilesConsumed : Z;
  BytesConsumed : Z;
  FirstByteLatencies : list Z
}.

(** What has been written to a [*zap.Logger]: level and message of each
    entry, oldest first (the structured fields are left out). *)
Inductive logLevel := Info | Error.

Definition logEntry : Type := logLevel * string.

(** The fields of [BenchmarkConsumer] that hold state.  The channels are
    unbuffered, so they hold nothing between a send and its receive; of
    [done] only whether it has been closed matters. *)
Record BenchmarkConsumer := {
  nextObjectBufferPosition : nat;
  objects : list benchmarkObjectInDownload;
  CollectMetrics : bool;
  bytesConsumed : Z;
  filesConsumed : Z;
  logger : list logEntry;
  done_closed : bool
}.

Definition set_objects (os : list benchmarkObjectInDownload)
    (c : BenchmarkConsumer) : BenchmarkConsumer :=
  {| nextObjectBufferPosition := nextObjectBufferPosition c;
     objects := os;
     CollectMetrics := CollectMetrics c;
     bytesConsumed := bytesConsumed c;
     filesConsumed := filesConsumed c;
     logger := logger c;
     done_closed := done_closed c |}.

(** [c.logger.Info(msg, ...)] and [c.logger.Error(msg, ...)] *)
Definition log (level : logLevel) (msg : string) (c : BenchmarkConsumer)
    : BenchmarkConsumer :=
  {| nextObjectBufferPosition := nextObjectBufferPosition c;
     objects := objects c;
     CollectMetrics := CollectMetrics c;
     bytesConsumed := bytesConsumed c;
     filesConsumed := filesConsumed c;
     logger := logger c ++ [(level, msg)];
     done_closed := done_closed c |}.

(** ** The object stream and [firstByteRecorder] *)

(** The body of an object as the reader sees it: what each successive [Read]
    call answers for a buffer of the given length (byte count and error),
    and the wall-clock time at which that call returns.  The bytes
    themselves go to [io.Discard] and are not kept.  A stream that has
    given all its answers is at [io.EOF]. *)
Record readEvent := {
  respond : Z -> Z * option error;
  arrival : Time
}.

Definition Reader := list readEvent.

(** [r.Read(p)] with [len(p) = len]; also returns what [time.Now()] gives
    right after the call. *)
Definition Reader_Read (r : Reader) (len : Z)
    : Z * option error * Time * Reader :=
  match r with
  | [] => (0, Some EOF, 0, [])
  | ev :: r' => ((respond ev len).1, (respond ev len).2, arrival ev, r')
  end.

Record firstByteRecorder := {
  fbr_t : option Time;
  fbr_r : Reader
}.

(** [func (f *firstByteRecorder) Read(p []byte) (n int, err error)] *)
Definition firstByteRecorder_Read (f : firstByteRecorder) (len_p : Z)
    : Z * option error * firstByteRecorder :=
  if bool_decide (fbr_t f ≠ None) || bool_decide (len_p = 0) then
    let '(n, err, _, r') := Reader_Read (fbr_r f) len_p in
    (n, err, {| fbr_t := fbr_t f; fbr_r := r' |})
  else
    let '(n, err, now, r') := Reader_Read (fbr_r f) 1 in
    (n, err, {| fbr_t := if bool_decide (n > 0) then Some now else fbr_t f;
                fbr_r := r' |}).

(** [io.Copy(io.Discard, fbr)]: the recorder has no [WriteTo] and
    [io.Discard] has a [ReadFrom], so the copy is the loop of
    [discard.ReadFrom], reading into an 8192-byte scratch buffer until the
    reader returns an error; [io.EOF] is reported as success.  Every [Read]
    uses up one answer of the stream and a used-up stream answers [io.EOF],
    so the loop runs at most once more than the stream has answers:
    [fuel] counts the reads without an error that may still come. *)
Fixpoint discard_ReadFrom (fuel : nat) (f : firstByteRecorder) (n : Z)
    : Z * option error * firstByteRecorder :=
  let '(readSize, err, f') := firstByteRecorder_Read f 8192 in
  let n' := int64 (n + readSize) in
  match err, fuel with
  | Some e, _ => (n', if is_EOF e then None else Some e, f')
  | None, S fuel' => discard_ReadFrom fuel' f' n'
  | None, O => (n', None, f')
  end.

Definition io_Copy (f : firstByteRecorder) : Z * option error * firstByteRecorder :=
  discard_ReadFrom (length (fbr_r f)) f 0.

(** ** Sequencing of operations that may block or panic *)

#[global] Instance outcome_ret : MRet outcome := fun _ a => Ok a.
#[global] Instance outcome_bind : MBind outcome := fun _ _ k m =>
  match m with
  | Ok a => k a
  | Blocked => Blocked
  | Panic msg => Panic msg
  end.

(** [s[i]] on a slice: out of range is a run-time panic. *)
Definition index_slice {A : Type} (s : list A) (i : nat) : outcome A :=
  match s !! i with
  | Some a => Ok a
  | None => Panic "index out of range"
  end.

(** [a % b] on [int]: a zero divisor is a run-time panic. *)
Definition go_mod (a b : nat) : outcome nat :=
  if bool_decide (b = 0%nat) then Panic "integer divide by zero"
  else Ok (a mod b)%nat.

(** ** The consumer interface: [NextObject] and [Close] *)

Definition set_locks (readLock' changeObjectLock' : Mutex)
    (o : benchmarkObjectInDownload) : benchmarkObjectInDownload :=
  {| obj_size := obj_size o;
     obj_name := obj_name o;
     readLock := readLock';
     changeObjectLock := changeObjectLock' |}.

(** [c.bytesConsumed += uint64(size); c.filesConsumed++] *)
Definition count_consumed (size : Z) (c : BenchmarkConsumer) : BenchmarkConsumer :=
  {| nextObjectBufferPosition := nextObjectBufferPosition c;
     objects := objects c;
     CollectMetrics := CollectMetrics c;
     bytesConsumed := uint64 (bytesConsumed c + uint64 size);
     filesConsumed := int64 (filesConsumed c + 1);
     logger := logger c;
     done_closed := done_closed c |}.

(** [func (c *BenchmarkConsumer) NextObject() error].  The result is the
    consumer after the call (the returned error is always [nil]); [Blocked]
    while the slot's [readLock] is held. *)
Definition NextObject (c : BenchmarkConsumer) : outcome BenchmarkConsumer :=
  let pos := nextObjectBufferPosition c in
  benchmarkObject ← index_slice (objects c) pos;
  let c := log Info "Waiting to read object" c in
  readLock' ← Lock (readLock benchmarkObject);
  let c := log Info "Read object" c in
  let c := if CollectMetrics c
           then count_consumed (obj_size benchmarkObject) c
           else c in
  changeObjectLock' ← Unlock (changeObjectLock benchmarkObject);
  Ok (set_objects
        (<[pos := set_locks readLock' changeObjectLock' benchmarkObject]> (objects c)) c).

(** The name [NextObject] reads from its slot (the one it logs with
    "Read object"). *)
Definition NextObject_reads (c : BenchmarkConsumer) : option string :=
  obj_name <$> objects c !! nextObjectBufferPosition c.

(** [func (c *BenchmarkConsumer) Close() error]: [close(c.done)]; closing a
    closed channel panics. *)
Definition Close (c : BenchmarkConsumer) : outcome BenchmarkConsumer :=
  let c := log Info "Finished consume call" c in
  if done_closed c then Panic "close of closed channel"
  else Ok {| nextObjectBufferPosition := nextObjectBufferPosition c;
             objects := objects c;
             CollectMetrics := CollectMetrics c;
             bytesConsumed := bytesConsumed c;
             filesConsumed := filesConsumed c;
             logger := logger c;
             done_closed := true |}.

(** The exported [CollectMetrics] field, written by the caller under
    [CollectMetricsLock]. *)
Definition set_CollectMetrics (b : bool) (c : BenchmarkConsumer) : BenchmarkConsumer :=
  {| nextObjectBufferPosition := nextObjectBufferPosition c;
     objects := objects c;
     CollectMetrics := b;
     bytesConsumed := bytesConsumed c;
     filesConsumed := filesConsumed c;
     logger := logger c;
     done_closed := done_closed c |}.

(** ** The download worker: [downloadObjectsBenchmark] *)

(** Where a worker goroutine stands. *)
Inductive workerPc :=
| WSelect                      (* at the [select] *)
| WTask (task : downloadTask)  (* received [task], in the case body *)
| WReturnLatencies             (* done case: at [c.returnLatencies <- latencies] *)
| WReturnFilesDownloaded       (* at [c.returnFilesDownloaded <- filesDownloaded] *)
| WReturnBytesDownloaded       (* at [c.returnBytesDownloaded <- bytesDownloaded] *)
| WExited (reported : bool).   (* returned; [reported]: through the done case *)

Record worker := {
  wpc : workerPc;
  latencies : list Z;
  filesDownloaded : Z;
  bytesDownloaded : Z
}.

Definition set_wpc (pc : workerPc) (w : worker) : worker :=
  {| wpc := pc;
     latencies := latencies w;
     filesDownloaded := filesDownloaded w;
     bytesDownloaded := bytesDownloaded w |}.

(** What the object store answers for one task: [GetObject] fails, [Stat]
    fails, or the object with its declared size, its body, and the time
    [start := time.Now()] reads. *)
Inductive storeAnswer :=
| GetObject_error (e : error)
| Stat_error (e : error)
| Object (stats_Size : Z) (start : Time) (body : Reader).

Definition set_name (name : string) (o : benchmarkObjectInDownload)
    : benchmarkObjectInDownload :=
  {| obj_size := obj_size o;
     obj_name := name;
     readLock := readLock o;
     changeObjectLock := changeObjectLock o |}.

(** [benchmarkObjectInDownload.size = size] and then
    [benchmarkObjectInDownload.readLock.Unlock()] *)
Definition complete_slot (pos : nat) (size : Z) (c : BenchmarkConsumer)
    : outcome BenchmarkConsumer :=
  o ← index_slice (objects c) pos;
  readLock' ← Unlock (readLock o);
  Ok (set_objects
        (<[pos := {| obj_size := size;
                     obj_name := obj_name o;
                     readLock := readLock';
                     changeObjectLock := changeObjectLock o |}]> (objects c)) c).

Definition log_if (b : bool) (level : logLevel) (msg : string)
    (c : BenchmarkConsumer) : BenchmarkConsumer :=
  if b then log level msg c else c.

(** The body of [case downloadTask := <-c.downloadTasks] for a worker with
    locals [w].  The worker ends at the [select] again ([continue] or the end
    of the body) or has returned. *)
Definition downloadObjectsBenchmark_task (task : downloadTask) (answer : storeAnswer)
    (c : BenchmarkConsumer) (w : worker) : outcome (BenchmarkConsumer * worker) :=
  let pos := task_bufferPosition task in
  o ← index_slice (objects c) pos;
  let c := set_objects (<[pos := set_name (task_name task) o]> (objects c)) c in
  let c := log Info "Starting download of new object" c in
  match answer with
  | GetObject_error _ =>
      Ok (log Error "Failed to download object from s3" c, set_wpc (WExited false) w)
  | Stat_error _ =>
      Ok (log Error "Failed to get object stats" c, set_wpc (WExited false) w)
  | Object stats_Size start body =>
      if bool_decide (stats_Size = 0) then
        let c := log Info "Downloaded object of size 0" c in
        let w := if CollectMetrics c
                 then {| wpc := wpc w;
                         latencies := latencies w;
                         filesDownloaded := int64 (filesDownloaded w + 1);
                         bytesDownloaded := bytesDownloaded w |}
                 else w in
        c ← complete_slot pos 0 c;
        Ok (c, set_wpc WSelect w)
      else
        let '(n, err, fbr) := io_Copy {| fbr_t := None; fbr_r := body |} in
        let c := log_if (bool_decide (err ≠ None)) Error "Failed to copy object data" c in
        let c := log_if (bool_decide (n ≠ stats_Size)) Error "Read less bytes than expected" c in
        '(c, w) ← (if CollectMetrics c then
               let c := log Info "Collecting metrics" c in
               match fbr_t fbr with
               | None => Panic "invalid memory address or nil pointer dereference"
               | Some t =>
                   Ok (c, {| wpc := wpc w;
                             latencies := latencies w ++ [Sub t start];
                             filesDownloaded := int64 (filesDownloaded w + 1);
                             bytesDownloaded :=
                               uint64 (bytesDownloaded w + uint64 stats_Size) |})
               end
             else Ok (c, w));
        c ← complete_slot pos n c;
        Ok (log Info "Unlocked read lock" c, set_wpc WSelect w)
  end.

(** ** The feeder: [findDownloadableObjectsBenchmark] *)

(** One item of the channel [ListObjects] returns. *)
Record objectInfo := {
  Key : string;
  Err_ : option error
}.

(** The listing loop: the keys in order; an item with an error makes
    [c.logger.Panic] panic. *)
Fixpoint list_keys (listing : list objectInfo) : outcome (list string) :=
  match listing with
  | [] => Ok []
  | objectInfo :: listing =>
      match Err_ objectInfo with
      | Some _ => Panic "Error looking for existing objects in bucket"
      | None => objectNames ← list_keys listing; Ok (Key objectInfo :: objectNames)
      end
  end.

(** Where the feeder goroutine stands. *)
Inductive feederPc :=
| FList (listing : list objectInfo)         (* before the listing loop *)
| FRange (rest : list string)               (* head of [for _, name := range objectNames],
                                               [rest] still to come; at the lock *)
| FRangeSend (name : string) (rest : list string)  (* at the send of that loop *)
| FSelect                                   (* at the [select] of the endless loop *)
| FDefault (current : string)               (* default case, at the lock *)
| FDefaultSend (current : string).          (* default case, at the send *)

Record feeder := {
  objectNames : list string;
  bufferPosition : nat;
  index : nat;
  fpc : feederPc
}.

Definition set_fpc (pc : feederPc) (f : feeder) : feeder :=
  {| objectNames := objectNames f;
     bufferPosition := bufferPosition f;
     index := index f;
     fpc := pc |}.

(** [object := c.objects[bufferPosition]; object.changeObjectLock.Lock()] *)
Definition claim_slot (pos : nat) (c : BenchmarkConsumer) : outcome BenchmarkConsumer :=
  object ← index_slice (objects c) pos;
  changeObjectLock' ← Lock (changeObjectLock object);
  Ok (set_objects (<[pos := set_locks (readLock object) changeObjectLock' object]> (objects c)) c).

Section Concurrency.

(** The package constant [Concurrency], declared in another file of the
    package: the number of slots and of workers. *)
Variable Concurrency : nat.

(** What the feeder does on its own up to its next channel send: [Blocked]
    at a lock that is held and at a send (a send needs a receiver, see
    [findDownloadableObjectsBenchmark_send]). *)
Definition findDownloadableObjectsBenchmark_step (c : BenchmarkConsumer) (f : feeder)
    : outcome (BenchmarkConsumer * feeder) :=
  match fpc f with
  | FList listing =>
      objectNames ← list_keys listing;
      Ok (log Info "Learned about minio objects" c,
          {| objectNames := objectNames; bufferPosition := 0; index := 0;
             fpc := FRange objectNames |})
  | FRange [] =>
      Ok (c, {| objectNames := objectNames f; bufferPosition := bufferPosition f;
                index := 0; fpc := FSelect |})
  | FRange (name :: rest) =>
      c ← claim_slot (bufferPosition f) c;
      Ok (c, set_fpc (FRangeSend name rest) f)
  | FSelect =>
      if done_closed c then
        Ok (log Info "Stop feeding downloadable objects" c, f)
      else
        let c := log_if (bool_decide (index f = 0%nat)) Info "Starting new circle" c in
        current ← index_slice (objectNames f) (index f);
        Ok (c, set_fpc (FDefault current) f)
  | FDefault current =>
      c ← claim_slot (bufferPosition f) c;
      Ok (c, set_fpc (FDefaultSend current) f)
  | FRangeSend _ _ | FDefaultSend _ => Blocked
  end.

(** The send on [c.downloadTasks], once a worker receives: the task sent
    and the feeder after the assignments that follow the send. *)
Definition findDownloadableObjectsBenchmark_send (f : feeder)
    : outcome (downloadTask * feeder) :=
  match fpc f with
  | FRangeSend name rest =>
      bufferPosition' ← go_mod (bufferPosition f + 1) Concurrency;
      Ok ({| task_name := name; task_bufferPosition := bufferPosition f |},
          {| objectNames := objectNames f; bufferPosition := bufferPosition';
             index := index f; fpc := FRange rest |})
  | FDefaultSend current =>
      bufferPosition' ← go_mod (bufferPosition f + 1) Concurrency;
      index' ← go_mod (index f + 1) (length (objectNames f));
      Ok ({| task_name := current; task_bufferPosition := bufferPosition f |},
          {| objectNames := objectNames f; bufferPosition := bufferPosition';
             index := index'; fpc := FSelect |})
  | _ => Blocked
  end.

(** ** [Metrics] *)

(** Where a call of [Metrics] stands, with its locals. *)
Inductive metricsPc :=
| MIdle                                  (* no call in progress *)
| MLatencies (k : nat) (latencies : list Z)      (* first loop, [k] rounds done *)
| MFilesDownloaded (k : nat) (latencies : list Z) (filesDownloaded bytesDownloaded : Z)
                                         (* second loop, at [<-c.returnFilesDownloaded] *)
| MBytesDownloaded (k : nat) (latencies : list Z) (filesDownloaded bytesDownloaded : Z).
                                         (* second loop, at [<-c.returnBytesDownloaded] *)

Definition Metrics_report (c : BenchmarkConsumer) (latencies : list Z)
    (filesDownloaded bytesDownloaded : Z) : MinioMetrics :=
  {| FirstByteLatencies := latencies;
     BytesDownloaded := bytesDownloaded;
     FilesDownloaded := filesDownloaded;
     BytesConsumed := bytesConsumed c;
     FilesConsumed := filesConsumed c |}.

(** The loop heads of [Metrics]: a loop that has done its [Concurrency]
    rounds is left; after the second the report is returned. *)
Definition Metrics_advance (c : BenchmarkConsumer) (m : metricsPc)
    : metricsPc * option MinioMetrics :=
  match m with
  | MLatencies k latencies =>
      if bool_decide (k = Concurrency) then
        if bool_decide (Concurrency = 0%nat)
        then (MIdle, Some (Metrics_report c latencies 0 0))
        else (MFilesDownloaded 0 latencies 0 0, None)
      else (m, None)
  | MFilesDownloaded k latencies filesDownloaded bytesDownloaded =>
      if bool_decide (k = Concurrency)
      then (MIdle, Some (Metrics_report c latencies filesDownloaded bytesDownloaded))
      else (m, None)
  | _ => (m, None)
  end.

(** ** The running system *)

(** The consumer, the goroutines [NewBenchmarkConsumer] starts and the
    caller's [Metrics] call.  The last five fields are history, kept to
    state properties: the tasks sent on [downloadTasks], the names
    [NextObject] read, the workers whose latency list [Metrics] received,
    the reports [Metrics] returned, and the panic that ended the process. *)
Record System := {
  shared : BenchmarkConsumer;
  the_feeder : feeder;
  workers : list worker;
  metrics : metricsPc;
  published : list downloadTask;
  read_names : list string;
  reported : list nat;
  reports : list MinioMetrics;
  panicked : option string
}.

Definition set_shared (c : BenchmarkConsumer) (s : System) : System :=
  {| shared := c; the_feeder := the_feeder s; workers := workers s;
     metrics := metrics s; published := published s; read_names := read_names s;
     reported := reported s; reports := reports s; panicked := panicked s |}.

Definition set_feeder (f : feeder) (s : System) : System :=
  {| shared := shared s; the_feeder := f; workers := workers s;
     metrics := metrics s; published := published s; read_names := read_names s;
     reported := reported s; reports := reports s; panicked := panicked s |}.

Definition set_worker (i : nat) (w : worker) (s : System) : System :=
  {| shared := shared s; the_feeder := the_feeder s; workers := <[i := w]> (workers s);
     metrics := metrics s; published := published s; read_names := read_names s;
     reported := reported s; reports := reports s; panicked := panicked s |}.

Definition publish (task : downloadTask) (s : System) : System :=
  {| shared := shared s; the_feeder := the_feeder s; workers := workers s;
     metrics := metrics s; published := published s ++ [task];
     read_names := read_names s;
     reported := reported s; reports := reports s; panicked := panicked s |}.

Definition record_read (name : option string) (s : System) : System :=
  {| shared := shared s; the_feeder := the_feeder s; workers := workers s;
     metrics := metrics s; published := published s;
     read_names := read_names s ++ option_list name;
     reported := reported s; reports := reports s; panicked := panicked s |}.

Definition record_reported (i : nat) (s : System) : System :=
  {| shared := shared s; the_feeder := the_feeder s; workers := workers s;
     metrics := metrics s; published := published s; read_names := read_names s;
     reported := reported s ++ [i]; reports := reports s; panicked := panicked s |}.

(** [Metrics] moves on to [m], past the loop heads. *)
Definition set_metrics (m : metricsPc) (s : System) : System :=
  let '(m, report) := Metrics_advance (shared s) m in
  {| shared := shared s; the_feeder := the_feeder s; workers := workers s;
     metrics := m; published := published s; read_names := read_names s;
     reported := reported s; reports := reports s ++ option_list report;
     panicked := panicked s |}.

Definition panic (msg : string) (s : System) : System :=
  {| shared := shared s; the_feeder := the_feeder s; workers := workers s;
     metrics := metrics s; published := published s; read_names := read_names s;
     reported := reported s; reports := reports s; panicked := Some msg |}.

(** A step that may block or panic, as a step of the system: no step
    while blocked; a panic ends the process. *)
Definition settle {A : Type} (o : outcome A) (k : A -> System) (s : System)
    : option System :=
  match o with
  | Ok a => Some (k a)
  | Blocked => None
  | Panic msg => Some (panic msg s)
  end.

(** Who moves, and what the outside answers. *)
Inductive label :=
| Feeder                                     (* the feeder, up to its next send *)
| Handoff (i : nat)                          (* worker [i] receives the feeder's send *)
| Download (i : nat) (answer : storeAnswer)  (* worker [i] runs the case body *)
| ObserveDone (i : nat)                      (* worker [i]'s [select] takes [<-c.done] *)
| CallNextObject
| CallClose
| SetCollectMetrics (b : bool)
| CallMetrics
| ReturnLatencies (i : nat)          (* [Metrics] receives worker [i]'s latencies *)
| ReturnFilesDownloaded (i : nat)
| ReturnBytesDownloaded (i : nat).

(** Worker [i], when it stands at [pc]. *)
Definition worker_at (pc : workerPc) (i : nat) (s : System) : option worker :=
  w ← workers s !! i;
  match pc, wpc w with
  | WSelect, WSelect
  | WReturnLatencies, WReturnLatencies
  | WReturnFilesDownloaded, WReturnFilesDownloaded
  | WReturnBytesDownloaded, WReturnBytesDownloaded => Some w
  | _, _ => None
  end.

Definition step (l : label) (s : System) : option System :=
  if bool_decide (panicked s ≠ None) then None else
  match l with
  | Feeder =>
      settle (findDownloadableObjectsBenchmark_step (shared s) (the_feeder s))
        (fun '(c, f) => set_shared c (set_feeder f s)) s
  | Handoff i =>
      w ← worker_at WSelect i s;
      settle (findDownloadableObjectsBenchmark_send (the_feeder s))
        (fun '(task, f) => publish task (set_worker i (set_wpc (WTask task) w) (set_feeder f s))) s
  | Download i answer =>
      w ← workers s !! i;
      match wpc w with
      | WTask task =>
          settle (downloadObjectsBenchmark_task task answer (shared s) w)
            (fun '(c, w) => set_shared c (set_worker i w s)) s
      | _ => None
      end
  | ObserveDone i =>
      w ← worker_at WSelect i s;
      if done_closed (shared s) then
        Some (set_shared (log Info "Stop downloading Objects" (shared s))
                (set_worker i (set_wpc WReturnLatencies w) s))
      else None
  | CallNextObject =>
      settle (NextObject (shared s))
        (fun c => set_shared c (record_read (NextObject_reads (shared s)) s)) s
  | CallClose =>
      settle (Close (shared s)) (fun c => set_shared c s) s
  | SetCollectMetrics b =>
      Some (set_shared (set_CollectMetrics b (shared s)) s)
  | CallMetrics =>
      match metrics s with
      | MIdle => Some (set_metrics (MLatencies 0 []) s)
      | _ => None
      end
  | ReturnLatencies i =>
      w ← worker_at WReturnLatencies i s;
      match metrics s with
      | MLatencies k l =>
          Some (set_metrics (MLatencies (S k) (l ++ latencies w))
                  (record_reported i (set_worker i (set_wpc WReturnFilesDownloaded w) s)))
      | _ => None
      end
  | ReturnFilesDownloaded i =>
      w ← worker_at WReturnFilesDownloaded i s;
      match metrics s with
      | MFilesDownloaded k l files bytes =>
          Some (set_metrics (MBytesDownloaded k l (int64 (files + filesDownloaded w)) bytes)
                  (set_worker i (set_wpc WReturnBytesDownloaded w) s))
      | _ => None
      end
  | ReturnBytesDownloaded i =>
      w ← worker_at WReturnBytesDownloaded i s;
      match metrics s with
      | MBytesDownloaded k l files bytes =>
          Some (set_metrics (MFilesDownloaded (S k) l files (uint64 (bytes + bytesDownloaded w)))
                  (set_shared (log Info "Download objects routine returned metrics" (shared s))
                     (set_worker i (set_wpc (WExited true) w) s)))
      | _ => None
      end
  end.

(** A run: the labels in order; [None] when one of them cannot move. *)
Fixpoint exec (ls : list label) (s : System) : option System :=
  match ls with
  | [] => Some s
  | l :: ls => s ← step l s; exec ls s
  end.

(** The system [NewBenchmarkConsumer] leaves running, given what the store
    will list: every slot's [readLock] locked, the feeder and [Concurrency]
    workers started. *)
Definition started (listing : list objectInfo) : System :=
  {| shared := {| nextObjectBufferPosition := 0;
                  objects := replicate Concurrency
                               {| obj_size := 0; obj_name := "";
                                  readLock := true; changeObjectLock := false |};
                  CollectMetrics := false;
                  bytesConsumed := 0;
                  filesConsumed := 0;
                  logger := [];
                  done_closed := false |};
     the_feeder := {| objectNames := []; bufferPosition := 0; index := 0;
                      fpc := FList listing |};
     workers := replicate Concurrency
                  {| wpc := WSelect; latencies := [];
                     filesDownloaded := 0; bytesDownloaded := 0 |};
     metrics := MIdle;
     published := [];
     read_names := [];
     reported := [];
     reports := [];
     panicked := None |}.

(** [NewBenchmarkConsumer], given what [MinioClient] returns. *)
Definition NewBenchmarkConsumer (MinioClient_err : option error)
    (listing : list objectInfo) : error + System :=
  match MinioClient_err with
  | Some _ => inl (Err "failed to create object storage client")
  | None => inr (started listing)
  end.

(** The states a started system can come to. *)
Definition reachable (listing : list objectInfo) (s : System) : Prop :=
  exists ls, exec ls (started listing) = Some s.

End Concurrency.

(** * Vocabulary of the properties *)

(** ** Orders, holders and invariants *)

(** What the case body logs for a non-empty object. *)
Definition download_log (err : option error) (n stats_Size : Z) (collect : bool)
    : list logEntry :=
  [(Info, "Starting download of new object")]
  ++ (if bool_decide (err ≠ None) then [(Error, "Failed to copy object data")] else [])
  ++ (if bool_decide (n ≠ stats_Size) then [(Error, "Read less bytes than expected")] else [])
  ++ (if collect then [(Info, "Collecting metrics")] else [])
  ++ [(Info, "Unlocked read lock")].

(** What a step of each label is, read backwards. *)
Definition step_shape (N : nat) (l : label) (s s' : System) : Prop :=
  match l with
  | Feeder =>
      (exists c f,
         findDownloadableObjectsBenchmark_step (shared s) (the_feeder s) = Ok (c, f)
                   /\ s' = set_shared c (set_feeder f s))
      \/ (exists msg, s' = panic msg s)
  | Handoff i =>
      exists w, workers s !! i = Some w /\ wpc w = WSelect
      /\ ((exists task f,
             findDownloadableObjectsBenchmark_send N (the_feeder s) = Ok (task, f)
                          /\ s' = publish task
                                    (set_worker i (set_wpc (WTask task) w) (set_feeder f s)))
          \/ (exists msg, s' = panic msg s))
  | Download i answer =>
      exists w task, workers s !! i = Some w /\ wpc w = WTask task
      /\ ((exists c w', downloadObjectsBenchmark_task task answer (shared s) w = Ok (c, w')
                        /\ s' = set_shared c (set_worker i w' s))
          \/ (exists msg, s' = panic msg s))
  | ObserveDone i =>
      exists w, workers s !! i = Some w /\ wpc w = WSelect
      /\ done_closed (shared s) = true
      /\ s' = set_shared (log Info "Stop downloading Objects" (shared s))
                (set_worker i (set_wpc WReturnLatencies w) s)
  | CallNextObject =>
      (exists c, NextObject (shared s) = Ok c
                 /\ s' = set_shared c (record_read (NextObject_reads (shared s)) s))
      \/ (exists msg, s' = panic msg s)
  | CallClose =>
      (exists c, Close (shared s) = Ok c /\ s' = set_shared c s)
      \/ (exists msg, s' = panic msg s)
  | SetCollectMetrics b =>
      s' = set_shared (set_CollectMetrics b (shared s)) s
  | CallMetrics =>
      metrics s = MIdle /\ s' = set_metrics N (MLatencies 0 []) s
  | ReturnLatencies i =>
      exists w k l, workers s !! i = Some w /\ wpc w = WReturnLatencies
      /\ metrics s = MLatencies k l
      /\ s' = set_metrics N (MLatencies (S k) (l ++ latencies w))
                (record_reported i (set_worker i (set_wpc WReturnFilesDownloaded w) s))
  | ReturnFilesDownloaded i =>
      exists w k l files bytes, workers s !! i = Some w /\ wpc w = WReturnFilesDownloaded
      /\ metrics s = MFilesDownloaded k l files bytes
      /\ s' = set_metrics N (MBytesDownloaded k l (int64 (files + filesDownloaded w)) bytes)
                (set_worker i (set_wpc WReturnBytesDownloaded w) s)
  | ReturnBytesDownloaded i =>
      exists w k l files bytes, workers s !! i = Some w /\ wpc w = WReturnBytesDownloaded
      /\ metrics s = MBytesDownloaded k l files bytes
      /\ s' = set_metrics N
                (MFilesDownloaded (S k) l files (uint64 (bytes + bytesDownloaded w)))
                (set_shared (log Info "Download objects routine returned metrics" (shared s))
                   (set_worker i (set_wpc (WExited true) w) s))
  end.

(** The sends the feeder can still make without passing its [select]. *)
Definition pending (f : feeder) : nat :=
  match fpc f with
  | FList listing => length listing
  | FRange rest => length rest
  | FRangeSend _ rest => S (length rest)
  | FSelect => 0
  | FDefault _ | FDefaultSend _ => 1
  end.

(** The round-robin order: assignment [j] carries key [j mod K] and slot
    [j mod N]. *)
Definition assignment (names : list string) (N j : nat) : option downloadTask :=
  name ← names !! (j mod length names)%nat;
  Some {| task_name := name; task_bufferPosition := (j mod N)%nat |}.

(** The tasks published so far are the first ones of the round-robin
    order over [names] and [N] slots. *)
Definition in_order (names : list string) (N : nat) (tasks : list downloadTask) : Prop :=
  forall j task, tasks !! j = Some task ->
    names !! (j mod length names)%nat = Some (task_name task)
    /\ task_bufferPosition task = (j mod N)%nat.

(** Where the feeder stands, against what it has published. *)
Definition feeder_inv (N : nat) (listing : list objectInfo) (s : System) : Prop :=
  let f := the_feeder s in
  let names := objectNames f in
  let n := length (published s) in
  match fpc f with
  | FList l => l = listing /\ published s = []
  | pc =>
      list_keys listing = Ok names
      /\ bufferPosition f = (n mod N)%nat
      /\ in_order names N (published s)
      /\ match pc with
         | FList _ => True
         | FRange rest => drop n names = rest /\ (n <= length names)%nat
         | FRangeSend name rest => drop n names = name :: rest
         | FSelect => index f = (n mod length names)%nat
         | FDefault current | FDefaultSend current =>
             index f = (n mod length names)%nat /\ names !! index f = Some current
         end
  end.

(** Who holds a claimed slot: the feeder between its lock and its send, or
    the worker that received the task. *)
Inductive holder := HFeeder | HWorker (i : nat).

Definition sending (f : feeder) : bool :=
  match fpc f with
  | FRangeSend _ _ | FDefaultSend _ => true
  | _ => false
  end.

Definition holds (s : System) (h : holder) (pos : nat) : Prop :=
  match h with
  | HFeeder => sending (the_feeder s) = true /\ bufferPosition (the_feeder s) = pos
  | HWorker i =>
      exists w task, workers s !! i = Some w /\ wpc w = WTask task
                     /\ task_bufferPosition task = pos
  end.

(** A slot that has a holder has both locks held; a slot has at most one
    holder; no slot has both locks free. *)
Definition slot_inv (s : System) : Prop :=
  (forall h pos, holds s h pos ->
     exists o, objects (shared s) !! pos = Some o
               /\ readLock o = true /\ changeObjectLock o = true)
  /\ (forall h1 h2 pos, holds s h1 pos -> holds s h2 pos -> h1 = h2)
  /\ (forall pos o, objects (shared s) !! pos = Some o ->
        readLock o = true \/ changeObjectLock o = true).

(** Not a holder any more, or none yet. *)
Definition no_task (w : worker) : Prop :=
  match wpc w with WTask _ => False | _ => True end.

(** A slot nobody will complete: both locks held and no holder. *)
Definition stranded (s : System) (pos : nat) : Prop :=
  (exists o, objects (shared s) !! pos = Some o
             /\ readLock o = true /\ changeObjectLock o = true)
  /\ forall h, ~ holds s h pos.

(** Worker [i] has returned without the done case. *)
Definition dead (s : System) (i : nat) : Prop :=
  exists w, workers s !! i = Some w /\ wpc w = WExited false.

(** The worker has sent its latency list. *)
Definition sent_latencies (w : worker) : Prop :=
  match wpc w with
  | WReturnFilesDownloaded | WReturnBytesDownloaded | WExited true => True
  | _ => False
  end.

(** The workers [Metrics] has received a latency list from are distinct
    and have sent one; a report was returned only after [N] lists. *)
Definition workers_inv (N : nat) (s : System) : Prop :=
  NoDup (reported s)
  /\ (forall i, i ∈ reported s -> exists w, workers s !! i = Some w /\ sent_latencies w)
  /\ length (workers s) = N
  /\ (reports s ≠ [] -> (N <= length (reported s))%nat).

(** A call of [Metrics] has received no more lists than were sent, and is
    past its first loop only after [N] of them. *)
Definition metrics_ok (N : nat) (m : metricsPc) (n : nat) : Prop :=
  match m with
  | MIdle => True
  | MLatencies k _ => (k <= n)%nat
  | MFilesDownloaded _ _ _ _ | MBytesDownloaded _ _ _ _ => (N <= n)%nat
  end.

Definition metrics_inv (N : nat) (s : System) : Prop :=
  workers_inv N s /\ metrics_ok N (metrics s) (length (reported s)).

(** Where a call of [Metrics] can stand while fewer than [N] lists were
    sent: not past its first loop. *)
Definition in_first_loop (N : nat) (m : metricsPc) : Prop :=
  match m with
  | MIdle => True
  | MLatencies k _ => (k < N)%nat
  | MFilesDownloaded _ _ _ _ | MBytesDownloaded _ _ _ _ => False
  end.

(** ** Inputs and runs of the examples *)

(** One slot claimed by the feeder, and a worker holding the task for it. *)
Definition example_task : downloadTask :=
  {| task_name := "a"; task_bufferPosition := 0 |}.

Definition example_consumer (collect : bool) : BenchmarkConsumer :=
  {| nextObjectBufferPosition := 0;
     objects := [ {| obj_size := 0; obj_name := ""; readLock := true;
                     changeObjectLock := true |} ];
     CollectMetrics := collect; bytesConsumed := 0; filesConsumed := 0;
     logger := []; done_closed := false |}.

Definition example_worker : worker :=
  {| wpc := WTask example_task; latencies := [];
     filesDownloaded := 0; bytesDownloaded := 0 |}.

(** A body that gives 1 byte at time 5, then 3 bytes and [io.EOF]. *)
Definition four_bytes : Reader :=
  [ {| respond := fun _ => (1, None); arrival := 5 |};
    {| respond := fun _ => (3, Some EOF); arrival := 6 |} ].

(** A body whose first read fails without a byte. *)
Definition broken_stream : Reader :=
  [ {| respond := fun _ => (0, Some (Err "connection reset")); arrival := 5 |} ].

(** Buckets: one key, and the keys a, b, c. *)
Definition a_listing : list objectInfo := [ {| Key := "a"; Err_ := None |} ].

Definition abc_listing : list objectInfo :=
  [ {| Key := "a"; Err_ := None |};
    {| Key := "b"; Err_ := None |};
    {| Key := "c"; Err_ := None |} ].

(** A download that succeeds: one byte, then [io.EOF]. *)
Definition one_byte_object : storeAnswer :=
  Object 1 0 [ {| respond := fun _ => (1, Some EOF); arrival := 5 |} ].

(** The state a run ends in (the state it starts in, should the run not
    be possible). *)
Definition after (N : nat) (ls : list label) (s : System) : System :=
  match exec N ls s with
  | Some s' => s'
  | None => s
  end.

(** One key, two slots: the feeder publishes the key and reaches its
    [select]; then [Close] is called. *)
Definition closed_at_select : System :=
  after 2 [Feeder; Feeder; Handoff 0; Feeder; CallClose] (started 2 a_listing).

(** One key, two slots: worker 0 receives the task for slot 0 and [Stat]
    fails; later [Close] is called and worker 1 hands its latencies to
    [Metrics]. *)
Definition holding_task : System :=
  after 2 [Feeder; Feeder; Handoff 0] (started 2 a_listing).

Definition after_error : System :=
  after 2 [Download 0 (Stat_error (Err "stat failed"))] holding_task.

Definition after_error_later : System :=
  after 2 [Feeder; CallClose; ObserveDone 1; CallMetrics; ReturnLatencies 1] after_error.

(** ** The copy and the first byte *)

(** The time the recorder should hold after a copy of [body]: the return
    time of the first one-byte read that gives a byte, if the stream gives
    one before it ends or fails. *)
Fixpoint first_byte (body : Reader) : option Time :=
  match body with
  | [] => None
  | ev :: body =>
      if bool_decide ((respond ev 1).1 > 0) then Some (arrival ev)
      else match (respond ev 1).2 with
           | Some _ => None
           | None => first_byte body
           end
  end.

(** A reader that keeps the contract of [io.Reader] on its counts: never
    a negative one. *)
Definition counts_nonneg (body : Reader) : Prop :=
  forall ev, ev ∈ body -> forall len, 0 <= (respond ev len).1.

(** ** The ring and the shutdown signal *)

(** The worker has taken the done case of its [select]. *)
Definition past_done (w : worker) : Prop :=
  match wpc w with
  | WReturnLatencies | WReturnFilesDownloaded | WReturnBytesDownloaded
  | WExited true => True
  | _ => False
  end.

(** The slots whose [changeObjectLock] is free. *)
Fixpoint free_slots (os : list benchmarkObjectInDownload) : nat :=
  match os with
  | [] => 0
  | o :: os => ((if changeObjectLock o then 0 else 1) + free_slots os)%nat
  end.

(** There are [N] slots; a worker is past its done case only once [done] is
    closed; and every slot the feeder claimed is a task published, the send
    the feeder stands at, or a slot [NextObject] has given back. *)
Definition ring_inv (N : nat) (s : System) : Prop :=
  length (objects (shared s)) = N
  /\ (forall i w, workers s !! i = Some w -> past_done w -> done_closed (shared s) = true)
  /\ (free_slots (objects (shared s)) + length (published s)
      + (if sending (the_feeder s) then 1 else 0)
      = N + length (read_names s))%nat.

(** A call of [Metrics] that has received nothing. *)
Definition received_nothing (m : metricsPc) : Prop :=
  match m with
  | MIdle => True
  | MLatencies k _ => k = 0%nat
  | MFilesDownloaded _ _ _ _ | MBytesDownloaded _ _ _ _ => False
  end.

(** ** What the consumer reads *)

(** The names of the tasks published for slot [pos], in order. *)
Definition names_for (pos : nat) (tasks : list downloadTask) : list string :=
  task_name <$> filter (fun task => task_bufferPosition task = pos) tasks.

(** Slot 0, the one [NextObject] drains, against the names published for
    it and the names read: all read while the slot is free or claimed by the
    feeder; all but the last read while a worker holds the slot's task or
    the slot is ready, and that last name is the task's or the slot's. *)
Definition delivery_inv (s : System) : Prop :=
  let P := names_for 0 (published s) in
  let R := read_names s in
  (forall o, objects (shared s) !! 0%nat = Some o -> changeObjectLock o = false -> P = R)
  /\ (holds s HFeeder 0 -> P = R)
  /\ (forall i w task, workers s !! i = Some w -> wpc w = WTask task ->
        task_bufferPosition task = 0%nat -> P = R ++ [task_name task])
  /\ (forall o, objects (shared s) !! 0%nat = Some o -> readLock o = false ->
        P = R ++ [obj_name o])
  /\ (P = R \/ exists name, P = R ++ [name]).

(** ** What [Metrics] returns *)

(** The worker has returned through the done case. *)
Definition exited (w : worker) : bool :=
  match wpc w with WExited true => true | _ => false end.

(** The worker has sent its file counter and stands at its send on
    [returnBytesDownloaded]. *)
Definition at_bytes (w : worker) : bool :=
  match wpc w with WReturnBytesDownloaded => true | _ => false end.

(** The worker has sent its file counter. *)
Definition files_sent (w : worker) : bool := exited w || at_bytes w.

Definition everyone (w : worker) : bool := true.

Fixpoint count_workers (p : worker -> bool) (ws : list worker) : nat :=
  match ws with
  | [] => 0
  | w :: ws => (if p w then 1 else 0) + count_workers p ws
  end.

(** The sum of a counter over the workers that satisfy [p], not wrapped. *)
Fixpoint total_of (p : worker -> bool) (f : worker -> Z) (ws : list worker) : Z :=
  match ws with
  | [] => 0
  | w :: ws => (if p w then f w else 0) + total_of p f ws
  end.

(** The rounds of its second loop a call of [Metrics] has completed. *)
Definition rounds (m : metricsPc) : nat :=
  match m with
  | MFilesDownloaded k _ _ _ | MBytesDownloaded k _ _ _ => k
  | _ => 0%nat
  end.

(** The two sums [Metrics] keeps in its second loop are the wrapped sums
    of the counters it has received. *)
Definition sums_ok (files bytes : Z) (ws : list worker) : Prop :=
  files = int64 (total_of files_sent filesDownloaded ws)
  /\ bytes = uint64 (total_of exited bytesDownloaded ws).

(** The workers that have returned through the done case are those of the
    completed calls of [Metrics] and of the completed rounds of the call
    in progress; one worker stands between its last two sends exactly while
    [Metrics] stands between its two receives. *)
Definition report_inv (N : nat) (s : System) : Prop :=
  length (workers s) = N
  /\ count_workers exited (workers s) = (N * length (reports s) + rounds (metrics s))%nat
  /\ count_workers at_bytes (workers s)
     = match metrics s with MBytesDownloaded _ _ _ _ => 1%nat | _ => 0%nat end
  /\ match metrics s with
     | MFilesDownloaded _ _ files bytes | MBytesDownloaded _ _ files bytes =>
         sums_ok files bytes (workers s)
     | _ => True
     end
  /\ forall r, r ∈ reports s ->
       sums_ok (FilesDownloaded r) (BytesDownloaded r) (workers s).

(** The latency lists of the workers [ids], one after the other. *)
Definition latencies_of (ws : list worker) (ids : list nat) : list Z :=
  concat ((fun i => default [] (latencies <$> ws !! i)) <$> ids).

(** The list a call of [Metrics] has built is made of the lists it
    received, in the order received. *)
Definition latencies_inv (s : System) : Prop :=
  match metrics s with
  | MIdle => reports s = [] -> reported s = []
  | MLatencies _ l => reports s = [] -> l = latencies_of (workers s) (reported s)
  | MFilesDownloaded _ l _ _ | MBytesDownloaded _ l _ _ =>
      l = latencies_of (workers s) (reported s)
  end
  /\ forall r, r ∈ reports s ->
       FirstByteLatencies r = latencies_of (workers s) (reported s).

(** One key, one slot, metrics on: the object is downloaded, [Close] is
    called, and [Metrics] collects from the one worker and returns. *)
Definition metrics_run : list label :=
  [SetCollectMetrics true; Feeder; Feeder; Handoff 0; Download 0 one_byte_object;
   CallClose; ObserveDone 0; CallMetrics;
   ReturnLatencies 0; ReturnFilesDownloaded 0; ReturnBytesDownloaded 0].

(** The report of that call. *)
Definition metrics_run_report : MinioMetrics :=
  {| FilesDownloaded := 1; BytesDownloaded := 1; FilesConsumed := 0;
     BytesConsumed := 0; FirstByteLatencies := [5] |}.

(** ** The slots [NextObject] never drains *)




(** * Properties *)

(** ** Helper lemmas on slots *)

Lemma index_slice_Some {A : Type} (s : list A) (i : nat) (a : A) :
  s !! i = Some a -> index_slice s i = Ok a.
Proof. unfold index_slice. intros ->. reflexivity. Qed.

Lemma index_slice_Ok {A : Type} (s : list A) (i : nat) (a : A) :
  index_slice s i = Ok a -> s !! i = Some a.
Proof. unfold index_slice. destruct (s !! i); congruence. Qed.

Lemma complete_slot_held pos size c o :
  objects c !! pos = Some o ->
  readLock o = true ->
  complete_slot pos size c
  = Ok (set_objects
          (<[pos := {| obj_size := size; obj_name := obj_name o;
                       readLock := false;
                       changeObjectLock := changeObjectLock o |}]> (objects c)) c).
Proof.
  intros Ho Hl. unfold complete_slot.
  rewrite (index_slice_Some _ _ _ Ho). simpl. rewrite Hl. reflexivity.
Qed.

Lemma lookup_insert_same {A : Type} (l : list A) (i : nat) (a b : A) :
  l !! i = Some a -> <[i := b]> l !! i = Some b.
Proof. intros H. apply list_lookup_insert_eq. eapply lookup_lt_Some, H. Qed.

(** ** The zero-size fast path *)

(** The case body for an object of declared size 0, in one piece. *)
Lemma download_empty task start body c w o :
  objects c !! task_bufferPosition task = Some o ->
  readLock o = true ->
  downloadObjectsBenchmark_task task (Object 0 start body) c w
  = Ok ({| nextObjectBufferPosition := nextObjectBufferPosition c;
           objects := <[task_bufferPosition task :=
                         {| obj_size := 0; obj_name := task_name task;
                            readLock := false;
                            changeObjectLock := changeObjectLock o |}]> (objects c);
           CollectMetrics := CollectMetrics c;
           bytesConsumed := bytesConsumed c;
           filesConsumed := filesConsumed c;
           logger := logger c ++ [(Info, "Starting download of new object");
                                  (Info, "Downloaded object of size 0")];
           done_closed := done_closed c |},
        if CollectMetrics c
        then {| wpc := WSelect;
                latencies := latencies w;
                filesDownloaded := int64 (filesDownloaded w + 1);
                bytesDownloaded := bytesDownloaded w |}
        else set_wpc WSelect w).
Proof.
  intros Ho Hl. unfold downloadObjectsBenchmark_task.
  rewrite (index_slice_Some _ _ _ Ho). cbn [mbind outcome_bind].
  rewrite bool_decide_eq_true_2 by reflexivity.
  erewrite complete_slot_held; cycle 1.
  { cbn. eapply lookup_insert_same, Ho. }
  { exact Hl. }
  unfold log, set_objects, set_wpc. cbn.
  rewrite list_insert_insert_eq, <- app_assoc.
  destruct (CollectMetrics c); reflexivity.
Qed.

(** C4: for a downloaded object whose declared size is 0 the worker sets
    the slot's size to 0 (and its name to the task's), releases the slot's
    [readLock], adds no latency sample and no bytes, and adds one to its
    files-downloaded counter exactly when [CollectMetrics] is set; it then
    is back at its [select]. *)
Theorem zero_size_fast_path task start body c w o :
  objects c !! task_bufferPosition task = Some o ->
  readLock o = true ->
  exists c' w',
    downloadObjectsBenchmark_task task (Object 0 start body) c w = Ok (c', w')
    /\ objects c' !! task_bufferPosition task
       = Some {| obj_size := 0; obj_name := task_name task;
                 readLock := false; changeObjectLock := changeObjectLock o |}
    /\ latencies w' = latencies w
    /\ bytesDownloaded w' = bytesDownloaded w
    /\ filesDownloaded w'
       = (if CollectMetrics c then int64 (filesDownloaded w + 1) else filesDownloaded w)
    /\ wpc w' = WSelect.
Proof.
  intros Ho Hl. rewrite (download_empty _ _ _ _ _ _ Ho Hl).
  eexists _, _. split; [reflexivity|]. cbn [objects].
  split; [eapply lookup_insert_same, Ho|].
  destruct (CollectMetrics c); cbn; auto.
Qed.

Lemma zero_size_fast_path_witness :
  exists c' w',
    downloadObjectsBenchmark_task
      {| task_name := "a"; task_bufferPosition := 0 |} (Object 0 7 [])
      {| nextObjectBufferPosition := 0;
         objects := [ {| obj_size := 3; obj_name := ""; readLock := true;
                         changeObjectLock := true |} ];
         CollectMetrics := true; bytesConsumed := 0; filesConsumed := 0;
         logger := []; done_closed := false |}
      {| wpc := WTask {| task_name := "a"; task_bufferPosition := 0 |};
         latencies := []; filesDownloaded := 4; bytesDownloaded := 9 |}
    = Ok (c', w')
    /\ objects c' !! 0%nat
       = Some {| obj_size := 0; obj_name := "a";
                 readLock := false; changeObjectLock := true |}
    /\ latencies w' = []
    /\ bytesDownloaded w' = 9
    /\ filesDownloaded w' = int64 (4 + 1)
    /\ wpc w' = WSelect.
Proof.
  exact (zero_size_fast_path
           {| task_name := "a"; task_bufferPosition := 0 |} 7 []
           {| nextObjectBufferPosition := 0;
              objects := [ {| obj_size := 3; obj_name := ""; readLock := true;
                              changeObjectLock := true |} ];
              CollectMetrics := true; bytesConsumed := 0; filesConsumed := 0;
              logger := []; done_closed := false |}
           {| wpc := WTask {| task_name := "a"; task_bufferPosition := 0 |};
              latencies := []; filesDownloaded := 4; bytesDownloaded := 9 |}
           _ eq_refl eq_refl).
Defined.

(** ** Downloads of non-empty objects *)

(** The case body for a non-empty object, in one piece: it panics when
    metrics are collected and no read returned a byte ([fbr.t] is still
    [nil] at [fbr.t.Sub(start)]); otherwise the slot gets the task's name
    and the copy's byte count, its [readLock] is released, and the worker is
    back at its [select], its locals changed only when metrics are
    collected. *)
Lemma download_nonempty task stats_Size start body c w o n err fbr :
  objects c !! task_bufferPosition task = Some o ->
  readLock o = true ->
  stats_Size ≠ 0 ->
  io_Copy {| fbr_t := None; fbr_r := body |} = (n, err, fbr) ->
  downloadObjectsBenchmark_task task (Object stats_Size start body) c w
  = let c' := {| nextObjectBufferPosition := nextObjectBufferPosition c;
                 objects := <[task_bufferPosition task :=
                               {| obj_size := n; obj_name := task_name task;
                                  readLock := false;
                                  changeObjectLock := changeObjectLock o |}]> (objects c);
                 CollectMetrics := CollectMetrics c;
                 bytesConsumed := bytesConsumed c;
                 filesConsumed := filesConsumed c;
                 logger := logger c ++ download_log err n stats_Size (CollectMetrics c);
                 done_closed := done_closed c |} in
    if CollectMetrics c then
      match fbr_t fbr with
      | None => Panic "invalid memory address or nil pointer dereference"
      | Some t =>
          Ok (c', {| wpc := WSelect;
                     latencies := latencies w ++ [Sub t start];
                     filesDownloaded := int64 (filesDownloaded w + 1);
                     bytesDownloaded := uint64 (bytesDownloaded w + uint64 stats_Size) |})
      end
    else Ok (c', set_wpc WSelect w).
Proof.
  intros Ho Hl Hsize Hcopy. unfold downloadObjectsBenchmark_task.
  rewrite (index_slice_Some _ _ _ Ho). cbn [mbind outcome_bind].
  rewrite bool_decide_eq_false_2 by exact Hsize.
  rewrite Hcopy.
  unfold download_log.
  destruct (CollectMetrics c) eqn:Hcm.
  - destruct (bool_decide (err ≠ None)), (bool_decide (n ≠ stats_Size));
      cbn; rewrite Hcm; destruct (fbr_t fbr) as [t|]; try reflexivity;
      cbn [mbind outcome_bind];
      (erewrite complete_slot_held;
       [ | cbn; eapply lookup_insert_same, Ho | exact Hl ]);
      unfold log, set_objects, set_wpc; cbn;
      rewrite ?Hcm, list_insert_insert_eq, <- ?app_assoc; reflexivity.
  - destruct (bool_decide (err ≠ None)), (bool_decide (n ≠ stats_Size));
      cbn; rewrite Hcm; cbn [mbind outcome_bind];
      (erewrite complete_slot_held;
       [ | cbn; eapply lookup_insert_same, Ho | exact Hl ]);
      unfold log, set_objects, set_wpc; cbn;
      rewrite ?Hcm, list_insert_insert_eq, <- ?app_assoc; reflexivity.
Qed.

Lemma CollectMetrics_log_if b level msg c :
  CollectMetrics (log_if b level msg c) = CollectMetrics c.
Proof. destruct b; reflexivity. Qed.

(** C5, as stated, fails: an object declared with 10 bytes whose copy
    transfers 4 adds 10 to the worker's bytes-downloaded counter, not 4. *)
Lemma bytes_downloaded_not_bytes_copied :
  exists n err fbr c' w',
    io_Copy {| fbr_t := None; fbr_r := four_bytes |} = (n, err, fbr)
    /\ CollectMetrics (example_consumer true) = true
    /\ downloadObjectsBenchmark_task example_task (Object 10 0 four_bytes)
         (example_consumer true) example_worker = Ok (c', w')
    /\ n = 4
    /\ bytesDownloaded w' = 10
    /\ bytesDownloaded w' ≠ uint64 (bytesDownloaded example_worker + n).
Proof.
  do 5 eexists. repeat split; try (vm_compute; reflexivity).
  vm_compute. discriminate.
Qed.

Lemma int64_range x : - 2 ^ 63 <= int64 x < 2 ^ 63.
Proof.
  unfold int64. pose proof (Z.mod_pos_bound (x + 2 ^ 63) (2 ^ 64) eq_refl) as Hb.
  change (2 ^ 64) with 18446744073709551616 in *.
  change (2 ^ 63) with 9223372036854775808 in *.
  lia.
Qed.

(** The byte count [io.Copy] returns is an [int64]. *)
Lemma discard_ReadFrom_int64 fuel f n :
  - 2 ^ 63 <= (discard_ReadFrom fuel f n).1.1 < 2 ^ 63.
Proof.
  revert f n. induction fuel as [|fuel IH]; intros f n; cbn [discard_ReadFrom];
    destruct (firstByteRecorder_Read f 8192) as [[readSize [e|]] f'];
    cbn [fst]; try apply int64_range.
  apply IH.
Qed.

(** Two [int64] values that are the same modulo 2^64 are the same. *)
Lemma uint64_add_inj b x y :
  - 2 ^ 63 <= x < 2 ^ 63 ->
  - 2 ^ 63 <= y < 2 ^ 63 ->
  uint64 (b + uint64 x) = uint64 (b + uint64 y) ->
  x = y.
Proof.
  unfold uint64. intros Hx Hy. rewrite !Zplus_mod_idemp_r. intros Heq.
  pose proof (Z.div_mod (b + x) (2 ^ 64) ltac:(discriminate)) as H1.
  pose proof (Z.div_mod (b + y) (2 ^ 64) ltac:(discriminate)) as H2.
  rewrite Heq in H1.
  change (2 ^ 64) with 18446744073709551616 in *.
  change (2 ^ 63) with 9223372036854775808 in *.
  lia.
Qed.

(** C5, amended: with [CollectMetrics] set, a completed download of a
    non-empty object adds the object's declared size ([stats.Size], modulo
    2^64) to the worker's bytes-downloaded counter, whatever the copy
    returned.  That is the number of bytes copied when the copy returned the
    declared size, and, the declared size being an [int64], only then. *)
Theorem bytes_downloaded_adds_declared_size task stats_Size start body c w c' w' :
  CollectMetrics c = true ->
  stats_Size ≠ 0 ->
  downloadObjectsBenchmark_task task (Object stats_Size start body) c w = Ok (c', w') ->
  bytesDownloaded w' = uint64 (bytesDownloaded w + uint64 stats_Size)
  /\ ((io_Copy {| fbr_t := None; fbr_r := body |}).1.1 = stats_Size ->
      bytesDownloaded w'
      = uint64 (bytesDownloaded w
                + uint64 (io_Copy {| fbr_t := None; fbr_r := body |}).1.1))
  /\ (- 2 ^ 63 <= stats_Size < 2 ^ 63 ->
      bytesDownloaded w'
      = uint64 (bytesDownloaded w
                + uint64 (io_Copy {| fbr_t := None; fbr_r := body |}).1.1) ->
      (io_Copy {| fbr_t := None; fbr_r := body |}).1.1 = stats_Size).
Proof.
  intros Hcm Hsize. unfold downloadObjectsBenchmark_task.
  destruct (index_slice _ _) as [o| |]; cbn [mbind outcome_bind]; try discriminate.
  rewrite bool_decide_eq_false_2 by exact Hsize.
  assert (Hn : - 2 ^ 63 <= (io_Copy {| fbr_t := None; fbr_r := body |}).1.1 < 2 ^ 63)
    by apply discard_ReadFrom_int64.
  destruct (io_Copy _) as [[n err] fbr]. cbn [fst snd] in Hn |- *.
  rewrite !CollectMetrics_log_if. cbn [CollectMetrics log set_objects]. rewrite Hcm.
  destruct (fbr_t fbr) as [t|]; cbn [mbind outcome_bind]; try discriminate.
  destruct (complete_slot _ _ _); cbn [mbind outcome_bind]; try discriminate.
  intros [= <- <-]. cbn. split; [reflexivity|]. split; [intros ->; reflexivity|].
  intros Hrange Heq. symmetry. apply (uint64_add_inj _ _ _ Hrange Hn Heq).
Qed.

Lemma bytes_downloaded_adds_declared_size_witness :
  bytesDownloaded
    {| wpc := WSelect; latencies := [5]; filesDownloaded := 1; bytesDownloaded := 10 |}
  = uint64 (bytesDownloaded example_worker + uint64 10).
Proof.
  refine (proj1 (bytes_downloaded_adds_declared_size
                   example_task 10 0 four_bytes (example_consumer true) example_worker
                   _ _ eq_refl _ _)).
  - discriminate.
  - vm_compute. reflexivity.
Defined.

(** C6 at its failing input: with [CollectMetrics] set, a copy that fails
    before the first byte (or a body that is empty although a size was
    declared) ends in a nil-pointer panic at [fbr.t.Sub(start)]; the slot is
    not completed. *)
Theorem copy_without_first_byte_panics :
  downloadObjectsBenchmark_task example_task (Object 5 0 broken_stream)
    (example_consumer true) example_worker
  = Panic "invalid memory address or nil pointer dereference"
  /\ downloadObjectsBenchmark_task example_task (Object 5 0 [])
       (example_consumer true) example_worker
     = Panic "invalid memory address or nil pointer dereference".
Proof. split; vm_compute; reflexivity. Qed.

(** Away from that input the claim of C6 holds: when metrics are not
    collected or some read returned a byte, the worker logs a failed copy and
    a byte count that differs from the declared size, sets the slot's size to
    the bytes read, releases its [readLock], and is back at its [select]. *)
Lemma copy_problem_still_completes task stats_Size start body c w o n err fbr :
  objects c !! task_bufferPosition task = Some o ->
  readLock o = true ->
  stats_Size ≠ 0 ->
  io_Copy {| fbr_t := None; fbr_r := body |} = (n, err, fbr) ->
  CollectMetrics c = false \/ fbr_t fbr ≠ None ->
  exists c' w' entries,
    downloadObjectsBenchmark_task task (Object stats_Size start body) c w = Ok (c', w')
    /\ objects c' !! task_bufferPosition task
       = Some {| obj_size := n; obj_name := task_name task;
                 readLock := false; changeObjectLock := changeObjectLock o |}
    /\ wpc w' = WSelect
    /\ logger c' = logger c ++ entries
    /\ (err ≠ None -> (Error, "Failed to copy object data") ∈ entries)
    /\ (n ≠ stats_Size -> (Error, "Read less bytes than expected") ∈ entries).
Proof.
  intros Ho Hl Hsize Hcopy Hfirst.
  rewrite (download_nonempty _ _ _ _ _ _ _ _ _ _ Ho Hl Hsize Hcopy). cbv zeta.
  assert (Hlog : forall collect,
    (err ≠ None -> (Error, "Failed to copy object data")
                   ∈ download_log err n stats_Size collect)
    /\ (n ≠ stats_Size -> (Error, "Read less bytes than expected")
                          ∈ download_log err n stats_Size collect)).
  { intros collect. unfold download_log. split; intros H;
      rewrite (bool_decide_eq_true_2 _ H);
      destruct collect; repeat case_bool_decide;
      apply list_elem_of_In; simpl; tauto. }
  destruct (CollectMetrics c) eqn:Hcm.
  - destruct Hfirst as [|Hfirst]; [discriminate|].
    destruct (fbr_t fbr) as [t|]; [|congruence].
    eexists _, _, _. split; [reflexivity|]. cbn [objects logger wpc].
    split; [eapply lookup_insert_same, Ho|].
    split; [reflexivity|]. split; [reflexivity|]. apply Hlog.
  - eexists _, _, _. split; [reflexivity|]. cbn [objects logger wpc set_wpc].
    split; [eapply lookup_insert_same, Ho|].
    split; [reflexivity|]. split; [reflexivity|]. apply Hlog.
Qed.

(** ** [NextObject] and [Close] *)

(** [NextObject] on a slot that is ready (its [readLock] free, its
    [changeObjectLock] held), in one piece. *)
Lemma NextObject_ready c o :
  objects c !! nextObjectBufferPosition c = Some o ->
  readLock o = false ->
  changeObjectLock o = true ->
  NextObject c
  = Ok {| nextObjectBufferPosition := nextObjectBufferPosition c;
          objects := <[nextObjectBufferPosition c := set_locks true false o]> (objects c);
          CollectMetrics := CollectMetrics c;
          bytesConsumed := if CollectMetrics c
                           then uint64 (bytesConsumed c + uint64 (obj_size o))
                           else bytesConsumed c;
          filesConsumed := if CollectMetrics c
                           then int64 (filesConsumed c + 1)
                           else filesConsumed c;
          logger := logger c ++ [(Info, "Waiting to read object"); (Info, "Read object")];
          done_closed := done_closed c |}.
Proof.
  intros Ho Hr Hc. unfold NextObject.
  rewrite (index_slice_Some _ _ _ Ho). cbn [mbind outcome_bind].
  rewrite Hr, Hc. cbn.
  unfold set_objects, count_consumed, log.
  destruct (CollectMetrics c); cbn; rewrite <- ?app_assoc; reflexivity.
Qed.

(** [NextObject] while the slot's [readLock] is held: the call waits. *)
Lemma NextObject_blocked c o :
  objects c !! nextObjectBufferPosition c = Some o ->
  readLock o = true ->
  NextObject c = Blocked.
Proof.
  intros Ho Hr. unfold NextObject.
  rewrite (index_slice_Some _ _ _ Ho). cbn [mbind outcome_bind].
  rewrite Hr. reflexivity.
Qed.

(** No path of [NextObject] assigns [nextObjectBufferPosition]. *)
Lemma NextObject_keeps_position c c' :
  NextObject c = Ok c' ->
  nextObjectBufferPosition c' = nextObjectBufferPosition c.
Proof.
  unfold NextObject.
  destruct (index_slice _ _) as [o| |]; cbn [mbind outcome_bind]; try discriminate.
  destruct (Lock _); cbn [mbind outcome_bind]; try discriminate.
  destruct (Unlock _); cbn [mbind outcome_bind]; try discriminate.
  intros [= <-]. cbn. destruct (CollectMetrics c); reflexivity.
Qed.

(** C7: while [CollectMetrics] is false, a download that completes (of an
    empty or a non-empty object) leaves the worker's latency list, file
    count and byte count as they were and still gives the slot the task's
    name and the size read and releases its [readLock]; and a [NextObject]
    call leaves the files- and bytes-consumed counters as they were and
    still takes the slot's [readLock] and releases its [changeObjectLock]. *)
Theorem toggle_off_leaves_counters task stats_Size start body c w o c2 o2 :
  CollectMetrics c = false ->
  objects c !! task_bufferPosition task = Some o ->
  readLock o = true ->
  CollectMetrics c2 = false ->
  objects c2 !! nextObjectBufferPosition c2 = Some o2 ->
  readLock o2 = false ->
  changeObjectLock o2 = true ->
  (exists c' w',
     downloadObjectsBenchmark_task task (Object stats_Size start body) c w = Ok (c', w')
     /\ latencies w' = latencies w
     /\ filesDownloaded w' = filesDownloaded w
     /\ bytesDownloaded w' = bytesDownloaded w
     /\ filesConsumed c' = filesConsumed c
     /\ bytesConsumed c' = bytesConsumed c
     /\ objects c' !! task_bufferPosition task
        = Some {| obj_size := if bool_decide (stats_Size = 0) then 0
                              else (io_Copy {| fbr_t := None; fbr_r := body |}).1.1;
                  obj_name := task_name task;
                  readLock := false;
                  changeObjectLock := changeObjectLock o |})
  /\ (exists c2',
        NextObject c2 = Ok c2'
        /\ filesConsumed c2' = filesConsumed c2
        /\ bytesConsumed c2' = bytesConsumed c2
        /\ objects c2' !! nextObjectBufferPosition c2
           = Some {| obj_size := obj_size o2; obj_name := obj_name o2;
                     readLock := true; changeObjectLock := false |}).
Proof.
  intros Hcm Ho Hl Hcm2 Ho2 Hr2 Hc2. split.
  - destruct (decide (stats_Size = 0)) as [->|Hsize].
    + rewrite (download_empty _ _ _ _ _ _ Ho Hl), Hcm.
      rewrite bool_decide_eq_true_2 by reflexivity.
      eexists _, _. split; [reflexivity|]. cbn.
      repeat (split; [reflexivity|]). eapply lookup_insert_same, Ho.
    + destruct (io_Copy _) as [[n err] fbr] eqn:Hcopy.
      rewrite (download_nonempty _ _ _ _ _ _ _ _ _ _ Ho Hl Hsize Hcopy).
      cbv zeta. rewrite Hcm, bool_decide_eq_false_2 by exact Hsize.
      eexists _, _. split; [reflexivity|]. cbn.
      repeat (split; [reflexivity|]). eapply lookup_insert_same, Ho.
  - rewrite (NextObject_ready _ _ Ho2 Hr2 Hc2), Hcm2.
    eexists. split; [reflexivity|]. cbn.
    repeat (split; [reflexivity|]). eapply lookup_insert_same, Ho2.
Qed.

Lemma toggle_off_leaves_counters_witness :
  (exists c' w',
     downloadObjectsBenchmark_task example_task (Object 10 0 four_bytes)
       (example_consumer false) example_worker = Ok (c', w')
     /\ latencies w' = []
     /\ filesDownloaded w' = 0
     /\ bytesDownloaded w' = 0
     /\ filesConsumed c' = 0
     /\ bytesConsumed c' = 0
     /\ objects c' !! 0%nat
        = Some {| obj_size := 4; obj_name := "a";
                  readLock := false; changeObjectLock := true |})
  /\ (exists c2',
        NextObject
          {| nextObjectBufferPosition := 0;
             objects := [ {| obj_size := 4; obj_name := "a"; readLock := false;
                             changeObjectLock := true |} ];
             CollectMetrics := false; bytesConsumed := 0; filesConsumed := 0;
             logger := []; done_closed := false |} = Ok c2'
        /\ filesConsumed c2' = 0
        /\ bytesConsumed c2' = 0
        /\ objects c2' !! 0%nat
           = Some {| obj_size := 4; obj_name := "a";
                     readLock := true; changeObjectLock := false |}).
Proof.
  exact (toggle_off_leaves_counters example_task 10 0 four_bytes
           (example_consumer false) example_worker _
           {| nextObjectBufferPosition := 0;
              objects := [ {| obj_size := 4; obj_name := "a"; readLock := false;
                              changeObjectLock := true |} ];
              CollectMetrics := false; bytesConsumed := 0; filesConsumed := 0;
              logger := []; done_closed := false |} _
           eq_refl eq_refl eq_refl eq_refl eq_refl eq_refl eq_refl).
Defined.

(** C3, as stated, fails: a second [Close] panics. *)
Lemma Close_twice_panics :
  exists c', Close (example_consumer false) = Ok c'
             /\ Close c' = Panic "close of closed channel".
Proof. eexists. split; vm_compute; reflexivity. Qed.

(** C3, amended: [Close] is one-shot.  On a consumer whose [done] channel
    is open it closes the channel and returns, changing nothing else but
    the log; on a consumer whose [done] channel is closed, so on every
    later call, it panics. *)
Theorem Close_one_shot c :
  (done_closed c = false ->
   exists c', Close c = Ok c'
              /\ done_closed c' = true
              /\ objects c' = objects c
              /\ nextObjectBufferPosition c' = nextObjectBufferPosition c
              /\ Close c' = Panic "close of closed channel")
  /\ (done_closed c = true -> Close c = Panic "close of closed channel").
Proof.
  unfold Close. cbn. split; intros ->.
  - eexists. split; [reflexivity|]. cbn. auto.
  - reflexivity.
Qed.

Lemma Close_one_shot_witness :
  exists c', Close (example_consumer false) = Ok c'
             /\ done_closed c' = true
             /\ objects c' = objects (example_consumer false)
             /\ nextObjectBufferPosition c' = 0%nat
             /\ Close c' = Panic "close of closed channel".
Proof. exact (proj1 (Close_one_shot (example_consumer false)) eq_refl). Defined.

(** ** [firstByteRecorder.Read] *)

Example io_Copy_two_reads :
  io_Copy {| fbr_t := None;
             fbr_r := [ {| respond := fun len => (len, None); arrival := 5 |};
                        {| respond := fun len => (3, Some (Err "reset")); arrival := 7 |} ] |}
  = (4, Some (Err "reset"), {| fbr_t := Some 5; fbr_r := [] |}).
Proof. vm_compute. reflexivity. Qed.

(** C9: a [Read] with a non-empty buffer before any byte has been received
    asks the underlying reader for exactly one byte, returns what that read
    returns, and records the time exactly when the read returned a byte;
    once a time is recorded, or for an empty buffer, [Read] passes the
    buffer on and returns what the underlying reader returns, the recorded
    time unchanged. *)
Theorem firstByteRecorder_Read_first_byte f len_p :
  (fbr_t f = None -> len_p ≠ 0 ->
   let '(n, err, now, r') := Reader_Read (fbr_r f) 1 in
   firstByteRecorder_Read f len_p
   = (n, err, {| fbr_t := if bool_decide (n > 0) then Some now else None;
                 fbr_r := r' |}))
  /\ (fbr_t f ≠ None \/ len_p = 0 ->
      let '(n, err, _, r') := Reader_Read (fbr_r f) len_p in
      firstByteRecorder_Read f len_p = (n, err, {| fbr_t := fbr_t f; fbr_r := r' |})).
Proof.
  unfold firstByteRecorder_Read. split.
  - intros Ht Hlen. rewrite Ht.
    rewrite bool_decide_eq_false_2 by (intros H; apply H; reflexivity).
    rewrite bool_decide_eq_false_2 by exact Hlen. cbn [orb].
    destruct (Reader_Read _ _) as [[[n err] now] r']. reflexivity.
  - intros H.
    assert (Hb : orb (bool_decide (fbr_t f ≠ None)) (bool_decide (len_p = 0)) = true).
    { destruct H as [H|H].
      - rewrite (bool_decide_eq_true_2 _ H). reflexivity.
      - rewrite (bool_decide_eq_true_2 _ H). apply orb_true_r. }
    rewrite Hb. destruct (Reader_Read _ _) as [[[n err] now] r']. reflexivity.
Qed.

Lemma firstByteRecorder_Read_first_byte_witness :
  firstByteRecorder_Read
    {| fbr_t := None;
       fbr_r := [ {| respond := fun len => (len, None); arrival := 5 |} ] |} 8192
  = (1, None, {| fbr_t := Some 5; fbr_r := [] |})
  /\ firstByteRecorder_Read
       {| fbr_t := Some 5;
          fbr_r := [ {| respond := fun len => (len, None); arrival := 6 |} ] |} 8192
     = (8192, None, {| fbr_t := Some 5; fbr_r := [] |}).
Proof.
  split.
  - refine (proj1 (firstByteRecorder_Read_first_byte
                     {| fbr_t := None;
                        fbr_r := [ {| respond := fun len => (len, None);
                                      arrival := 5 |} ] |} 8192) eq_refl _).
    discriminate.
  - refine (proj2 (firstByteRecorder_Read_first_byte
                     {| fbr_t := Some 5;
                        fbr_r := [ {| respond := fun len => (len, None);
                                      arrival := 6 |} ] |} 8192) (or_introl _)).
    discriminate.
Defined.

(** ** Runs of the system *)

(** A property kept by every step holds along every run. *)
Lemma exec_invariant N (P : System -> Prop) :
  (forall l s s', P s -> step N l s = Some s' -> P s') ->
  forall ls s s', P s -> exec N ls s = Some s' -> P s'.
Proof.
  intros Hstep ls. induction ls as [|l ls IH]; intros s s' HP; cbn.
  - intros [= <-]. exact HP.
  - destruct (step N l s) as [s1|] eqn:Hs; cbn; [|discriminate].
    apply IH. eapply Hstep; eauto.
Qed.

(** C1 at its failing input: two slots, keys a, b, c, every download
    succeeding.  The feeder publishes a for slot 0, b for slot 1 and, once
    slot 0 is drained, c for slot 0.  Both [NextObject] calls drain slot 0:
    they read a and c, b is skipped, and the consumer position is still 0. *)
Theorem NextObject_never_advances :
  exists s,
    exec 2 [Feeder; Feeder; Handoff 0; Feeder; Handoff 1;
            Download 0 one_byte_object; Download 1 one_byte_object;
            CallNextObject;
            Feeder; Handoff 0; Download 0 one_byte_object;
            CallNextObject] (started 2 abc_listing) = Some s
    /\ published s = [ {| task_name := "a"; task_bufferPosition := 0 |};
                       {| task_name := "b"; task_bufferPosition := 1 |};
                       {| task_name := "c"; task_bufferPosition := 0 |} ]
    /\ read_names s = ["a"; "c"]
    /\ nextObjectBufferPosition (shared s) = 0%nat
    /\ panicked s = None.
Proof. eexists. split; [vm_compute; reflexivity|]. cbn. auto. Qed.

(** ** What each routine leaves alone *)

Lemma list_keys_length listing names :
  list_keys listing = Ok names -> length names = length listing.
Proof.
  revert names. induction listing as [|i listing IH]; intros names; cbn.
  - intros [= <-]. reflexivity.
  - destruct (Err_ i); [discriminate|].
    destruct (list_keys listing) as [names'| |]; cbn; try discriminate.
    intros [= <-]. cbn. f_equal. apply IH. reflexivity.
Qed.

Lemma claim_slot_frame pos c c' :
  claim_slot pos c = Ok c' ->
  done_closed c' = done_closed c
  /\ CollectMetrics c' = CollectMetrics c
  /\ nextObjectBufferPosition c' = nextObjectBufferPosition c
  /\ exists o, objects c !! pos = Some o
               /\ changeObjectLock o = false
               /\ objects c' = <[pos := set_locks (readLock o) true o]> (objects c).
Proof.
  unfold claim_slot.
  destruct (index_slice _ _) as [o| |] eqn:Ho; cbn [mbind outcome_bind]; try discriminate.
  apply index_slice_Ok in Ho.
  unfold Lock. destruct (changeObjectLock o) eqn:Hc; cbn; try discriminate.
  intros [= <-]. cbn. repeat (split; [reflexivity|]). eauto.
Qed.

Lemma download_frame task answer c w c' w' :
  downloadObjectsBenchmark_task task answer c w = Ok (c', w') ->
  done_closed c' = done_closed c
  /\ CollectMetrics c' = CollectMetrics c
  /\ nextObjectBufferPosition c' = nextObjectBufferPosition c.
Proof.
  unfold downloadObjectsBenchmark_task, complete_slot.
  destruct (index_slice _ _) as [o| |]; cbn [mbind outcome_bind]; try discriminate.
  destruct answer as [e|e|stats_Size start body].
  - intros [= <- _]. auto.
  - intros [= <- _]. auto.
  - case_bool_decide.
    + destruct (index_slice _ _) as [o'| |]; cbn [mbind outcome_bind]; try discriminate.
      destruct (Unlock _); cbn [mbind outcome_bind]; try discriminate.
      intros [= <- _]. auto.
    + destruct (io_Copy _) as [[n err] fbr].
      destruct (bool_decide (err ≠ None)), (bool_decide (n ≠ stats_Size));
        cbn [log_if];
        (destruct (CollectMetrics _) eqn:Hcm;
         [destruct (fbr_t fbr)|]; cbn [mbind outcome_bind]; try discriminate;
         (destruct (index_slice _ _) as [o'| |];
          cbn [mbind outcome_bind]; try discriminate);
         (destruct (Unlock _); cbn [mbind outcome_bind]; try discriminate);
         intros [= <- _]; auto).
Qed.

Lemma NextObject_frame c c' :
  NextObject c = Ok c' ->
  done_closed c' = done_closed c /\ CollectMetrics c' = CollectMetrics c.
Proof.
  unfold NextObject.
  destruct (index_slice _ _) as [o| |]; cbn [mbind outcome_bind]; try discriminate.
  destruct (Lock _); cbn [mbind outcome_bind]; try discriminate.
  destruct (Unlock _); cbn [mbind outcome_bind]; try discriminate.
  intros [= <-]. cbn. destruct (CollectMetrics c) eqn:Hcm; cbn; auto.
Qed.

Lemma set_metrics_frame N m s :
  shared (set_metrics N m s) = shared s
  /\ the_feeder (set_metrics N m s) = the_feeder s
  /\ workers (set_metrics N m s) = workers s
  /\ published (set_metrics N m s) = published s
  /\ read_names (set_metrics N m s) = read_names s
  /\ reported (set_metrics N m s) = reported s
  /\ panicked (set_metrics N m s) = panicked s.
Proof.
  unfold set_metrics. destruct (Metrics_advance N (shared s) m). cbn. auto 10.
Qed.

(** ** The feeder after shutdown *)

(** At its [select] with [done] closed the feeder is not blocked: it
    logs and is at the [select] again, its locals unchanged. *)
Lemma feeder_observes_done c f :
  fpc f = FSelect ->
  done_closed c = true ->
  findDownloadableObjectsBenchmark_step c f
  = Ok (log Info "Stop feeding downloadable objects" c, f).
Proof.
  intros Hpc Hd. unfold findDownloadableObjectsBenchmark_step. rewrite Hpc, Hd. reflexivity.
Qed.

Lemma feeder_step_after_done c f c' f' :
  findDownloadableObjectsBenchmark_step c f = Ok (c', f') ->
  done_closed c' = done_closed c
  /\ (done_closed c = true ->
      (pending f' <= pending f)%nat /\ (fpc f = FSelect -> fpc f' = FSelect)).
Proof.
  unfold findDownloadableObjectsBenchmark_step.
  destruct (fpc f) as [listing|[|name rest]|name rest| |current|current] eqn:Hpc.
  - destruct (list_keys listing) as [names| |] eqn:Hk; cbn; try discriminate.
    intros [= <- <-]. split; [reflexivity|]. intros _. unfold pending. rewrite Hpc. cbn.
    rewrite (list_keys_length _ _ Hk). split; [lia|discriminate].
  - intros [= <- <-]. split; [reflexivity|]. intros _. unfold pending. rewrite Hpc. cbn.
    split; [lia|discriminate].
  - destruct (claim_slot _ _) as [c1| |] eqn:Hc; cbn; try discriminate.
    intros [= <- <-]. split; [apply (claim_slot_frame _ _ _ Hc)|].
    intros _. unfold pending. rewrite Hpc. cbn. split; [lia|discriminate].
  - discriminate.
  - destruct (done_closed c) eqn:Hd.
    + intros [= <- <-]. split; [exact Hd|]. intros _. split; [lia|auto].
    + destruct (index_slice _ _); cbn; try discriminate.
      intros [= <- <-]. split; [|discriminate].
      rewrite <- Hd. destruct (bool_decide _); reflexivity.
  - destruct (claim_slot _ _) as [c1| |] eqn:Hc; cbn; try discriminate.
    intros [= <- <-]. split; [apply (claim_slot_frame _ _ _ Hc)|].
    intros _. unfold pending. rewrite Hpc. cbn. split; [lia|discriminate].
  - discriminate.
Qed.

Lemma feeder_send_pending N f task f' :
  findDownloadableObjectsBenchmark_send N f = Ok (task, f') ->
  pending f = S (pending f') /\ fpc f ≠ FSelect.
Proof.
  unfold findDownloadableObjectsBenchmark_send, pending.
  destruct (fpc f) as [listing|rest|name rest| |current|current]; try discriminate.
  - destruct (go_mod _ _); cbn; try discriminate.
    intros [= <- <-]. cbn. split; [reflexivity|discriminate].
  - destruct (go_mod (bufferPosition f + 1) N); cbn; try discriminate.
    destruct (go_mod _ _); cbn; try discriminate.
    intros [= <- <-]. cbn. split; [reflexivity|discriminate].
Qed.

(** ** Case analysis of a step *)

Lemma worker_at_Some pc i s w :
  worker_at pc i s = Some w -> workers s !! i = Some w /\ wpc w = pc.
Proof.
  unfold worker_at. destruct (workers s !! i) as [w0|]; cbn; [|discriminate].
  destruct pc, (wpc w0) eqn:Hpc; try discriminate; intros [= <-]; auto.
Qed.

Lemma settle_Some {A : Type} (o : outcome A) (k : A -> System) s s' :
  settle o k s = Some s' ->
  (exists a, o = Ok a /\ s' = k a) \/ (exists msg, o = Panic msg /\ s' = panic msg s).
Proof.
  destruct o as [a| |msg]; cbn; intros [= <-]; eauto.
Qed.

Lemma step_inv N l s s' :
  step N l s = Some s' -> panicked s = None /\ step_shape N l s s'.
Proof.
  unfold step. case_bool_decide as Hp; [discriminate|].
  assert (Hnone : panicked s = None) by (destruct (panicked s); congruence).
  intros Hstep. split; [exact Hnone|]. clear Hp Hnone.
  destruct l as [|i|i answer|i| | |b| |i|i|i]; cbn [step_shape].
  - apply settle_Some in Hstep as [([c f] & Ho & ->)|(msg & _ & ->)]; eauto.
  - destruct (worker_at _ _ _) as [w|] eqn:Hw; cbn in Hstep; [|discriminate].
    apply worker_at_Some in Hw as [Hw Hpc]. exists w. split; [exact Hw|]. split; [exact Hpc|].
    apply settle_Some in Hstep as [([task f] & Ho & ->)|(msg & _ & ->)]; eauto.
  - destruct (workers s !! i) as [w|] eqn:Hw; cbn in Hstep; [|discriminate].
    destruct (wpc w) as [|task| | | |] eqn:Hpc; try discriminate.
    exists w, task. split; [reflexivity|]. split; [exact Hpc|].
    apply settle_Some in Hstep as [([c w'] & Ho & ->)|(msg & _ & ->)]; eauto.
  - destruct (worker_at _ _ _) as [w|] eqn:Hw; cbn in Hstep; [|discriminate].
    apply worker_at_Some in Hw as [Hw Hpc].
    destruct (done_closed (shared s)) eqn:Hd; [|discriminate].
    injection Hstep as <-. eauto 10.
  - apply settle_Some in Hstep as [(c & Ho & ->)|(msg & _ & ->)]; eauto.
  - apply settle_Some in Hstep as [(c & Ho & ->)|(msg & _ & ->)]; eauto.
  - injection Hstep as <-. reflexivity.
  - destruct (metrics s); try discriminate. injection Hstep as <-. auto.
  - destruct (worker_at _ _ _) as [w|] eqn:Hw; cbn in Hstep; [|discriminate].
    apply worker_at_Some in Hw as [Hw Hpc].
    destruct (metrics s) as [|k l| |] eqn:Hm; try discriminate.
    injection Hstep as <-. eauto 10.
  - destruct (worker_at _ _ _) as [w|] eqn:Hw; cbn in Hstep; [|discriminate].
    apply worker_at_Some in Hw as [Hw Hpc].
    destruct (metrics s) as [| |k l files bytes|] eqn:Hm; try discriminate.
    injection Hstep as <-. eauto 12.
  - destruct (worker_at _ _ _) as [w|] eqn:Hw; cbn in Hstep; [|discriminate].
    apply worker_at_Some in Hw as [Hw Hpc].
    destruct (metrics s) as [| | |k l files bytes] eqn:Hm; try discriminate.
    injection Hstep as <-. eauto 12.
Qed.

Lemma step_after_done N l s s' :
  done_closed (shared s) = true ->
  step N l s = Some s' ->
  done_closed (shared s') = true
  /\ (length (published s') + pending (the_feeder s')
      <= length (published s) + pending (the_feeder s))%nat
  /\ (fpc (the_feeder s) = FSelect ->
      fpc (the_feeder s') = FSelect /\ published s' = published s).
Proof.
  intros Hd Hstep. apply step_inv in Hstep as [_ Hshape].
  destruct l as [|i|i answer|i| | |b| |i|i|i]; cbn [step_shape] in Hshape.
  - destruct Hshape as [(c & f & Hf & ->)|(msg & ->)]; cbn; [|auto with lia].
    apply feeder_step_after_done in Hf as [Hd' Hf]. specialize (Hf Hd).
    split; [congruence|]. split; [lia|]. intros Hpc. split; [|reflexivity]. apply Hf, Hpc.
  - destruct Hshape as (w & _ & _ & [(task & f & Hf & ->)|(msg & ->)]); cbn;
      [|auto with lia].
    apply feeder_send_pending in Hf as [Hp Hpc]. rewrite length_app. cbn.
    split; [exact Hd|]. split; [lia|]. intros Hsel. contradiction.
  - destruct Hshape as (w & task & _ & _ & [(c & w' & Hw & ->)|(msg & ->)]); cbn;
      [|auto with lia].
    apply download_frame in Hw as (Hd' & _). split; [congruence|]. auto with lia.
  - destruct Hshape as (w & _ & _ & _ & ->); cbn. auto with lia.
  - destruct Hshape as [(c & Hc & ->)|(msg & ->)]; cbn; [|auto with lia].
    apply NextObject_frame in Hc as (Hd' & _). split; [congruence|]. auto with lia.
  - destruct Hshape as [(c & Hc & ->)|(msg & ->)]; cbn; [|auto with lia].
    unfold Close in Hc. cbn in Hc. rewrite Hd in Hc. discriminate.
  - subst s'. cbn. auto with lia.
  - destruct Hshape as (_ & ->).
    destruct (set_metrics_frame N (MLatencies 0 []) s) as (-> & -> & _ & -> & _).
    auto with lia.
  - destruct Hshape as (w & k & l & _ & _ & _ & ->).
    match goal with |- context [set_metrics N ?m ?s0] =>
      destruct (set_metrics_frame N m s0) as (-> & -> & _ & -> & _) end.
    cbn. auto with lia.
  - destruct Hshape as (w & k & l & files & bytes & _ & _ & _ & ->).
    match goal with |- context [set_metrics N ?m ?s0] =>
      destruct (set_metrics_frame N m s0) as (-> & -> & _ & -> & _) end.
    cbn. auto with lia.
  - destruct Hshape as (w & k & l & files & bytes & _ & _ & _ & ->).
    match goal with |- context [set_metrics N ?m ?s0] =>
      destruct (set_metrics_frame N m s0) as (-> & -> & _ & -> & _) end.
    cbn. auto with lia.
Qed.

(** C2: once [done] is closed the feeder publishes no more than the sends
    it has pending before its [select] (the rest of its first pass, or the
    one of the default case it is in); and from an iteration on in which its
    [select] sees [done] closed, so from any state where it stands at the
    [select] with [done] closed, it never publishes again: it stays at the
    [select]. *)
Theorem feeder_stops_after_done N s ls s' :
  done_closed (shared s) = true ->
  exec N ls s = Some s' ->
  (length (published s') <= length (published s) + pending (the_feeder s))%nat
  /\ (fpc (the_feeder s) = FSelect ->
      published s' = published s /\ fpc (the_feeder s') = FSelect).
Proof.
  intros Hd Hrun.
  pose (P := fun s1 : System =>
    done_closed (shared s1) = true
    /\ (length (published s1) + pending (the_feeder s1)
        <= length (published s) + pending (the_feeder s))%nat
    /\ (fpc (the_feeder s) = FSelect ->
        fpc (the_feeder s1) = FSelect /\ published s1 = published s)).
  assert (HP : P s') .
  { eapply (exec_invariant N P); [| |exact Hrun].
    - intros l s1 s2 (Hd1 & Hle1 & Hsel1) Hstep.
      destruct (step_after_done N l s1 s2 Hd1 Hstep) as (Hd2 & Hle2 & Hsel2).
      split; [exact Hd2|]. split; [lia|].
      intros Hsel. destruct (Hsel1 Hsel) as [Hpc1 Hpub1].
      destruct (Hsel2 Hpc1) as [Hpc2 Hpub2]. split; congruence.
    - split; [exact Hd|]. split; [lia|]. auto. }
  destruct HP as (_ & Hle & Hsel). split; [lia|].
  intros Hpc. destruct (Hsel Hpc). auto.
Qed.

Lemma feeder_stops_after_done_witness :
  (length (published (after 2 [Feeder; ObserveDone 1; Feeder; Download 0 one_byte_object;
                               Feeder] closed_at_select))
   <= length (published closed_at_select) + pending (the_feeder closed_at_select))%nat
  /\ (fpc (the_feeder closed_at_select) = FSelect ->
      published (after 2 [Feeder; ObserveDone 1; Feeder; Download 0 one_byte_object;
                          Feeder] closed_at_select)
      = published closed_at_select
      /\ fpc (the_feeder
                (after 2 [Feeder; ObserveDone 1; Feeder; Download 0 one_byte_object;
                          Feeder] closed_at_select)) = FSelect).
Proof.
  apply (feeder_stops_after_done 2 closed_at_select
           [Feeder; ObserveDone 1; Feeder; Download 0 one_byte_object; Feeder]).
  - vm_compute. reflexivity.
  - vm_compute. reflexivity.
Defined.

(** ** The feeder's order of assignment *)

Lemma drop_cons_inv {A : Type} (l : list A) (n : nat) (x : A) (rest : list A) :
  drop n l = x :: rest ->
  l !! n = Some x /\ drop (S n) l = rest /\ (n < length l)%nat.
Proof.
  intros Hd.
  assert (Hx : l !! n = Some x).
  { rewrite <- (Nat.add_0_r n), <- lookup_drop, Hd. reflexivity. }
  split; [exact Hx|]. split.
  - rewrite (drop_S _ _ _ Hx) in Hd. congruence.
  - eapply lookup_lt_Some, Hx.
Qed.

Lemma feeder_inv_frame N listing s s' :
  the_feeder s' = the_feeder s ->
  published s' = published s ->
  feeder_inv N listing s -> feeder_inv N listing s'.
Proof. unfold feeder_inv. intros -> ->. auto. Qed.

Lemma in_order_snoc names N tasks task :
  in_order names N tasks ->
  names !! (length tasks mod length names)%nat = Some (task_name task) ->
  task_bufferPosition task = (length tasks mod N)%nat ->
  in_order names N (tasks ++ [task]).
Proof.
  intros Hin Hname Hpos j task' Hj.
  destruct (decide (j < length tasks)%nat) as [Hlt|Hge].
  - rewrite lookup_app_l in Hj by exact Hlt. apply Hin, Hj.
  - rewrite lookup_app_r in Hj by lia.
    destruct (j - length tasks)%nat as [|k] eqn:Hk; [|destruct k; discriminate].
    injection Hj as <-. assert (j = length tasks) as -> by lia. auto.
Qed.

Lemma feeder_step_inv N listing s c f :
  feeder_inv N listing s ->
  findDownloadableObjectsBenchmark_step (shared s) (the_feeder s) = Ok (c, f) ->
  feeder_inv N listing (set_shared c (set_feeder f s)).
Proof.
  unfold feeder_inv, findDownloadableObjectsBenchmark_step.
  cbn [the_feeder published set_shared set_feeder].
  destruct (fpc (the_feeder s)) as [l|[|name rest]|name rest| |current|current] eqn:Hpc.
  - intros [-> Hpub].
    destruct (list_keys listing) as [names| |] eqn:Hk; cbn; try discriminate.
    intros [= <- <-]. cbn. rewrite Hpub. cbn.
    split; [reflexivity|]. split; [symmetry; apply Nat.Div0.mod_0_l|].
    split; [intros j task; rewrite lookup_nil; discriminate|].
    split; [reflexivity|lia].
  - intros (Hk & Hbp & Hin & Hdrop & Hle). intros [= <- <-]. cbn.
    repeat (split; [assumption|]).
    assert (length (published s) = length (objectNames (the_feeder s))) as ->.
    { apply (f_equal length) in Hdrop. rewrite length_drop in Hdrop. cbn in Hdrop. lia. }
    symmetry. apply Nat.Div0.mod_same.
  - intros (Hk & Hbp & Hin & Hdrop & Hle).
    destruct (claim_slot _ _); cbn; try discriminate.
    intros [= <- <-]. cbn. auto.
  - discriminate.
  - intros (Hk & Hbp & Hin & Hidx).
    destruct (done_closed (shared s)).
    + intros [= <- <-]. rewrite Hpc. auto.
    + destruct (index_slice _ _) as [current| |] eqn:Hcur; cbn; try discriminate.
      apply index_slice_Ok in Hcur.
      intros [= <- <-]. cbn. auto.
  - intros (Hk & Hbp & Hin & Hidx).
    destruct (claim_slot _ _); cbn; try discriminate.
    intros [= <- <-]. cbn. auto.
  - discriminate.
Qed.

Lemma go_mod_Ok a b m : go_mod a b = Ok m -> b ≠ 0%nat /\ m = (a mod b)%nat.
Proof. unfold go_mod. case_bool_decide; [discriminate|]. intros [= <-]. auto. Qed.

Lemma feeder_send_inv N listing s task f i w :
  feeder_inv N listing s ->
  findDownloadableObjectsBenchmark_send N (the_feeder s) = Ok (task, f) ->
  feeder_inv N listing (publish task (set_worker i w (set_feeder f s))).
Proof.
  unfold feeder_inv, findDownloadableObjectsBenchmark_send.
  cbn [the_feeder published publish set_worker set_feeder].
  destruct (fpc (the_feeder s)) as [l|rest|name rest| |current|current] eqn:Hpc;
    try discriminate.
  - intros (Hk & Hbp & Hin & Hdrop).
    destruct (go_mod _ _) as [bp| |] eqn:Hmod; cbn; try discriminate.
    apply go_mod_Ok in Hmod as [HN ->].
    intros [= <- <-]. cbn. rewrite length_app. cbn.
    apply drop_cons_inv in Hdrop as (Hname & Hrest & Hlt).
    split; [exact Hk|]. split.
    { rewrite Hbp, Nat.Div0.add_mod_idemp_l. reflexivity. }
    split.
    { apply in_order_snoc; cbn; [exact Hin| |exact Hbp].
      rewrite Nat.mod_small by exact Hlt. exact Hname. }
    split; [|lia]. rewrite Nat.add_1_r. exact Hrest.
  - intros (Hk & Hbp & Hin & Hidx & Hcur).
    destruct (go_mod (bufferPosition _ + 1) N) as [bp| |] eqn:Hmod; cbn; try discriminate.
    apply go_mod_Ok in Hmod as [HN ->].
    destruct (go_mod _ _) as [idx| |] eqn:Hmod; cbn; try discriminate.
    apply go_mod_Ok in Hmod as [HK ->].
    intros [= <- <-]. cbn. rewrite length_app. cbn.
    split; [exact Hk|]. split.
    { rewrite Hbp, Nat.Div0.add_mod_idemp_l. reflexivity. }
    split.
    { apply in_order_snoc; cbn; [exact Hin| |exact Hbp]. rewrite <- Hidx. exact Hcur. }
    rewrite Hidx, Nat.Div0.add_mod_idemp_l. reflexivity.
Qed.

Lemma step_feeder_inv N listing l s s' :
  feeder_inv N listing s -> step N l s = Some s' -> feeder_inv N listing s'.
Proof.
  intros Hinv Hstep. apply step_inv in Hstep as [_ Hshape].
  destruct l as [|i|i answer|i| | |b| |i|i|i]; cbn [step_shape] in Hshape.
  - destruct Hshape as [(c & f & Hf & ->)|(msg & ->)]; [|exact Hinv].
    apply feeder_step_inv; assumption.
  - destruct Hshape as (w & _ & _ & [(task & f & Hf & ->)|(msg & ->)]); [|exact Hinv].
    apply feeder_send_inv; assumption.
  - destruct Hshape as (w & task & _ & _ & [(c & w' & Hw & ->)|(msg & ->)]); exact Hinv.
  - destruct Hshape as (w & _ & _ & _ & ->). exact Hinv.
  - destruct Hshape as [(c & Hc & ->)|(msg & ->)]; exact Hinv.
  - destruct Hshape as [(c & Hc & ->)|(msg & ->)]; exact Hinv.
  - subst s'. exact Hinv.
  - destruct Hshape as (_ & ->).
    eapply feeder_inv_frame; [..|exact Hinv]; apply set_metrics_frame.
  - destruct Hshape as (w & k & l & _ & _ & _ & ->).
    eapply feeder_inv_frame; [apply set_metrics_frame|apply set_metrics_frame|exact Hinv].
  - destruct Hshape as (w & k & l & files & bytes & _ & _ & _ & ->).
    eapply feeder_inv_frame; [apply set_metrics_frame|apply set_metrics_frame|exact Hinv].
  - destruct Hshape as (w & k & l & files & bytes & _ & _ & _ & ->).
    eapply feeder_inv_frame; [apply set_metrics_frame|apply set_metrics_frame|exact Hinv].
Qed.

Example assignment_abc_2 :
  assignment ["a"; "b"; "c"] 2 <$> [0; 1; 2; 3]%nat
  = [ Some {| task_name := "a"; task_bufferPosition := 0 |};
      Some {| task_name := "b"; task_bufferPosition := 1 |};
      Some {| task_name := "c"; task_bufferPosition := 0 |};
      Some {| task_name := "a"; task_bufferPosition := 1 |} ].
Proof. reflexivity. Qed.

(** X16: what the feeder publishes is in the round-robin order: in every
    state the started system can come to, the [j]-th task the feeder has
    published (from 0, in the first pass and in its endless loop alike)
    carries key [j mod K] of the listed keys and slot index [j mod N]. *)
Theorem feeder_round_robin N listing s j task :
  reachable N listing s ->
  published s !! j = Some task ->
  exists names,
    list_keys listing = Ok names
    /\ assignment names N j = Some task.
Proof.
  intros [ls Hrun] Hj.
  assert (Hinv : feeder_inv N listing s).
  { eapply (exec_invariant N (feeder_inv N listing)); [| |exact Hrun].
    - intros l s1 s2. apply step_feeder_inv.
    - cbn. auto. }
  unfold feeder_inv in Hinv.
  destruct (fpc (the_feeder s));
    try (destruct Hinv as (Hk & _ & Hin & _);
         exists (objectNames (the_feeder s)); split; [exact Hk|];
         destruct (Hin j task Hj) as [Hname Hpos];
         unfold assignment; rewrite Hname; cbn; destruct task; cbn in *; congruence).
  destruct Hinv as [_ Hnil]. rewrite Hnil in Hj. discriminate.
Qed.

Lemma feeder_round_robin_witness :
  exists names,
    list_keys a_listing = Ok names
    /\ assignment names 2 1 = Some {| task_name := "a"; task_bufferPosition := 1 |}.
Proof.
  apply (feeder_round_robin 2 a_listing
           (after 2 [Feeder; Feeder; Handoff 0; Feeder; Feeder; Feeder; Handoff 1]
              (started 2 a_listing))
           1 {| task_name := "a"; task_bufferPosition := 1 |}).
  - exists [Feeder; Feeder; Handoff 0; Feeder; Feeder; Feeder; Handoff 1].
    vm_compute. reflexivity.
  - vm_compute. reflexivity.
Defined.

(** ** The slot handshake *)

Lemma holds_set_worker s i w' h pos :
  no_task w' ->
  holds (set_worker i w' s) h pos -> holds s h pos.
Proof.
  intros Hw'. destruct h as [|i2]; cbn; [auto|].
  intros (w & task & Hw & Hpc & Hpos).
  apply list_lookup_insert_Some in Hw as [(-> & <- & _)|[_ Hw]].
  - unfold no_task in Hw'. rewrite Hpc in Hw'. contradiction.
  - eauto.
Qed.

Lemma slot_inv_shrink s s' :
  objects (shared s') = objects (shared s) ->
  (forall h pos, holds s' h pos -> holds s h pos) ->
  slot_inv s -> slot_inv s'.
Proof.
  intros Ho Hsub (HA & HB & HC). unfold slot_inv. rewrite Ho.
  split; [|split].
  - intros h pos Hh. apply (HA h), Hsub, Hh.
  - intros h1 h2 pos H1 H2. apply (HB h1 h2 pos); apply Hsub; assumption.
  - exact HC.
Qed.

Lemma feeder_step_sending c f c' f' :
  findDownloadableObjectsBenchmark_step c f = Ok (c', f') ->
  bufferPosition f' = 0%nat /\ sending f' = false /\ objects c' = objects c
  \/ bufferPosition f' = bufferPosition f
     /\ ((sending f' = false /\ objects c' = objects c)
         \/ (sending f' = true /\ sending f = false
             /\ exists o, objects c !! bufferPosition f = Some o
                          /\ changeObjectLock o = false
                          /\ objects c'
                             = <[bufferPosition f := set_locks (readLock o) true o]>
                                 (objects c))).
Proof.
  unfold findDownloadableObjectsBenchmark_step, sending.
  destruct (fpc f) as [l|[|name rest]|name rest| |current|current] eqn:Hpc.
  - destruct (list_keys l); cbn; try discriminate. intros [= <- <-]. cbn. auto.
  - intros [= <- <-]. cbn. auto.
  - destruct (claim_slot _ _) as [c1| |] eqn:Hc; cbn; try discriminate.
    intros [= <- <-]. cbn. apply claim_slot_frame in Hc as (_ & _ & _ & Hc). auto 10.
  - discriminate.
  - destruct (done_closed c).
    + intros [= <- <-]. rewrite Hpc. cbn. auto.
    + destruct (index_slice _ _); cbn; try discriminate.
      intros [= <- <-]. cbn. right. split; [reflexivity|]. left. split; [reflexivity|].
      destruct (bool_decide _); reflexivity.
  - destruct (claim_slot _ _) as [c1| |] eqn:Hc; cbn; try discriminate.
    intros [= <- <-]. cbn. apply claim_slot_frame in Hc as (_ & _ & _ & Hc). auto 10.
  - discriminate.
Qed.

Lemma feeder_send_sending N f task f' :
  findDownloadableObjectsBenchmark_send N f = Ok (task, f') ->
  sending f = true /\ sending f' = false /\ task_bufferPosition task = bufferPosition f.
Proof.
  unfold findDownloadableObjectsBenchmark_send, sending.
  destruct (fpc f) as [l|rest|name rest| |current|current]; try discriminate.
  - destruct (go_mod _ _); cbn; try discriminate. intros [= <- <-]. cbn. auto.
  - destruct (go_mod (bufferPosition f + 1) N); cbn; try discriminate.
    destruct (go_mod _ _); cbn; try discriminate.
    intros [= <- <-]. cbn. auto.
Qed.

(** What the case body does to the slots: only the task's slot changes;
    its [changeObjectLock] stays as it was, and so does its [readLock]
    when the worker returns on an error of the store. *)
Lemma download_slots task answer c w c' w' :
  downloadObjectsBenchmark_task task answer c w = Ok (c', w') ->
  no_task w'
  /\ exists o o',
       objects c !! task_bufferPosition task = Some o
       /\ objects c' = <[task_bufferPosition task := o']> (objects c)
       /\ changeObjectLock o' = changeObjectLock o
       /\ (wpc w' = WSelect /\ readLock o = true /\ readLock o' = false
           \/ wpc w' = WExited false /\ readLock o' = readLock o
              /\ (exists e, answer = GetObject_error e \/ answer = Stat_error e)).
Proof.
  unfold downloadObjectsBenchmark_task, complete_slot.
  destruct (index_slice _ _) as [o| |] eqn:Ho; cbn [mbind outcome_bind]; try discriminate.
  apply index_slice_Ok in Ho.
  assert (Hin : forall x, <[task_bufferPosition task := x]> (objects c)
                          !! task_bufferPosition task = Some x).
  { intros x. eapply lookup_insert_same, Ho. }
  destruct answer as [e|e|stats_Size start body].
  - intros [= <- <-]. split; [exact I|]. cbn. eexists o, _.
    split; [exact Ho|]. split; [reflexivity|]. split; [reflexivity|]. right. eauto.
  - intros [= <- <-]. split; [exact I|]. cbn. eexists o, _.
    split; [exact Ho|]. split; [reflexivity|]. split; [reflexivity|]. right. eauto.
  - case_bool_decide.
    + cbn [objects log set_objects]. rewrite (index_slice_Some _ _ _ (Hin _)).
      cbn [mbind outcome_bind]. unfold Unlock. cbn [readLock set_name].
      destruct (readLock o) eqn:Hr; cbn [mbind outcome_bind]; try discriminate.
      intros [= <- <-]. split; [exact I|]. cbn. rewrite list_insert_insert_eq.
      eexists o, _. split; [exact Ho|]. split; [reflexivity|]. split; [reflexivity|].
      left. auto.
    + destruct (io_Copy _) as [[n err] fbr].
      assert (Hobj : forall b1 l1 m1 b2 l2 m2 c0,
                objects (log_if b1 l1 m1 (log_if b2 l2 m2 c0)) = objects c0).
      { intros [] ? ? [] ? ? ?; reflexivity. }
      destruct (CollectMetrics _);
        [destruct (fbr_t fbr)|]; cbn [mbind outcome_bind]; try discriminate;
        cbn [objects log]; rewrite Hobj; cbn [objects log set_objects];
        rewrite (index_slice_Some _ _ _ (Hin _));
        cbn [mbind outcome_bind]; unfold Unlock; cbn [readLock set_name];
        (destruct (readLock o) eqn:Hr; cbn [mbind outcome_bind]; try discriminate);
        intros [= <- <-]; (split; [exact I|]); cbn [wpc set_wpc objects log set_objects];
        rewrite ?Hobj; cbn [objects log set_objects];
        rewrite list_insert_insert_eq;
        eexists o, _; (split; [exact Ho|]); (split; [reflexivity|]);
        (split; [reflexivity|]); left; auto.
Qed.

Lemma NextObject_slots c c' :
  NextObject c = Ok c' ->
  exists o, objects c !! nextObjectBufferPosition c = Some o
            /\ readLock o = false /\ changeObjectLock o = true
            /\ objects c' = <[nextObjectBufferPosition c := set_locks true false o]> (objects c).
Proof.
  unfold NextObject.
  destruct (index_slice _ _) as [o| |] eqn:Ho; cbn [mbind outcome_bind]; try discriminate.
  apply index_slice_Ok in Ho. unfold Lock, Unlock.
  destruct (readLock o) eqn:Hr; cbn [mbind outcome_bind]; try discriminate.
  destruct (changeObjectLock o) eqn:Hc; cbn [mbind outcome_bind]; try discriminate.
  intros [= <-]. exists o. cbn. destruct (CollectMetrics c); cbn; auto.
Qed.

Lemma holds_frame s s' h pos :
  the_feeder s' = the_feeder s ->
  workers s' = workers s ->
  holds s' h pos -> holds s h pos.
Proof. unfold holds. intros -> ->. auto. Qed.

Lemma slot_inv_claim s c f :
  slot_inv s ->
  sending f = true ->
  sending (the_feeder s) = false ->
  (exists o, objects (shared s) !! bufferPosition f = Some o
             /\ changeObjectLock o = false
             /\ objects c = <[bufferPosition f := set_locks (readLock o) true o]>
                              (objects (shared s))) ->
  slot_inv (set_shared c (set_feeder f s)).
Proof.
  intros (HA & HB & HC) Hsend Hold (o & Ho & Hfree & Hobj).
  assert (Hworker : forall i pos,
            holds (set_shared c (set_feeder f s)) (HWorker i) pos ->
            holds s (HWorker i) pos /\ pos ≠ bufferPosition f).
  { intros i pos Hh. split; [exact Hh|]. intros ->.
    destruct (HA (HWorker i) _ Hh) as (o' & Ho' & _ & Hheld). congruence. }
  unfold slot_inv. cbn [shared set_shared]. rewrite Hobj.
  split; [|split].
  - intros [|i] pos Hh.
    + destruct Hh as [_ <-]. cbn.
      rewrite (lookup_insert_same _ _ _ _ Ho). eexists. split; [reflexivity|]. cbn.
      destruct (HC _ _ Ho) as [Hr|Hc]; [auto|congruence].
    + apply Hworker in Hh as [Hh Hne].
      rewrite list_lookup_insert_ne by congruence. apply (HA _ _ Hh).
  - intros [|i1] [|i2] pos H1 H2; [reflexivity| | |].
    + cbn in H1. destruct H1 as [_ <-]. apply Hworker in H2 as [_ Hne]. congruence.
    + cbn in H2. destruct H2 as [_ <-]. apply Hworker in H1 as [_ Hne]. congruence.
    + apply (HB _ _ pos); [apply (Hworker _ _ H1)|apply (Hworker _ _ H2)].
  - intros pos o' Ho'.
    apply list_lookup_insert_Some in Ho' as [(_ & <- & _)|[_ Ho']]; [cbn; auto|].
    apply (HC _ _ Ho').
Qed.

Lemma slot_inv_handoff s i w task f :
  slot_inv s ->
  workers s !! i = Some w ->
  sending (the_feeder s) = true ->
  sending f = false ->
  task_bufferPosition task = bufferPosition (the_feeder s) ->
  slot_inv (publish task (set_worker i (set_wpc (WTask task) w) (set_feeder f s))).
Proof.
  intros (HA & HB & HC) Hw Hsend Hf Htask.
  assert (Hfeeder : holds s HFeeder (task_bufferPosition task)).
  { split; [exact Hsend|]. congruence. }
  assert (Hold : forall h pos,
            holds (publish task (set_worker i (set_wpc (WTask task) w) (set_feeder f s)))
              h pos ->
            (h = HWorker i /\ pos = task_bufferPosition task)
            \/ (h ≠ HWorker i /\ h ≠ HFeeder /\ holds s h pos)).
  { intros [|i2] pos Hh.
    - destruct Hh as [Hh _]. cbn in Hh. congruence.
    - destruct Hh as (w2 & task2 & Hw2 & Hpc2 & Hpos2). cbn in Hw2.
      apply list_lookup_insert_Some in Hw2 as [(-> & <- & _)|[Hne Hw2]].
      + cbn in Hpc2. injection Hpc2 as <-. auto.
      + right. split; [congruence|]. split; [discriminate|]. cbn. eauto. }
  unfold slot_inv. cbn [shared publish set_worker set_feeder].
  split; [|split]; [| |exact HC].
  - intros h pos Hh. apply Hold in Hh as [[-> ->]|(_ & _ & Hh)]; eauto.
  - intros h1 h2 pos H1 H2.
    apply Hold in H1 as [[-> ->]|(Hn1 & Hf1 & H1)];
      apply Hold in H2 as [[-> E2]|(Hn2 & Hf2 & H2)]; try reflexivity.
    + exfalso. apply Hf2. apply (HB _ _ _ H2 Hfeeder).
    + subst pos. exfalso. apply Hf1. apply (HB _ _ _ H1 Hfeeder).
    + apply (HB _ _ _ H1 H2).
Qed.

Lemma slot_inv_download s i w task c w' o o' :
  slot_inv s ->
  workers s !! i = Some w ->
  wpc w = WTask task ->
  no_task w' ->
  objects (shared s) !! task_bufferPosition task = Some o ->
  objects c = <[task_bufferPosition task := o']> (objects (shared s)) ->
  changeObjectLock o' = changeObjectLock o ->
  slot_inv (set_shared c (set_worker i w' s)).
Proof.
  intros (HA & HB & HC) Hw Hpc Hw' Ho Hobj Hchange.
  assert (Hme : holds s (HWorker i) (task_bufferPosition task)) by (cbn; eauto).
  assert (Hold : forall h pos,
            holds (set_shared c (set_worker i w' s)) h pos ->
            holds s h pos /\ pos ≠ task_bufferPosition task).
  { intros h pos Hh.
    assert (Hh' : holds s h pos).
    { apply (holds_set_worker s i w' h pos Hw'). exact Hh. }
    split; [exact Hh'|]. intros ->.
    assert (h = HWorker i) as -> by apply (HB _ _ _ Hh' Hme).
    destruct Hh as (w2 & task2 & Hw2 & Hpc2 & _). cbn in Hw2.
    rewrite (lookup_insert_same _ _ _ _ Hw) in Hw2. injection Hw2 as <-.
    unfold no_task in Hw'. rewrite Hpc2 in Hw'. exact Hw'. }
  destruct (HA _ _ Hme) as (o0 & Ho0 & _ & Hheld).
  assert (o0 = o) as -> by congruence.
  unfold slot_inv. cbn [shared set_shared]. rewrite Hobj.
  split; [|split].
  - intros h pos Hh. apply Hold in Hh as [Hh Hne].
    rewrite list_lookup_insert_ne by congruence. apply (HA _ _ Hh).
  - intros h1 h2 pos H1 H2. apply (HB _ _ pos); [apply (Hold _ _ H1)|apply (Hold _ _ H2)].
  - intros pos o2 Ho2.
    apply list_lookup_insert_Some in Ho2 as [(_ & <- & _)|[_ Ho2]].
    + right. congruence.
    + apply (HC _ _ Ho2).
Qed.

Lemma slot_inv_drain s c r o :
  slot_inv s ->
  objects (shared s) !! nextObjectBufferPosition (shared s) = Some o ->
  readLock o = false ->
  objects c = <[nextObjectBufferPosition (shared s) := set_locks true false o]>
                (objects (shared s)) ->
  slot_inv (set_shared c (record_read r s)).
Proof.
  intros (HA & HB & HC) Ho Hfree Hobj.
  assert (Hne : forall h pos,
            holds s h pos -> pos ≠ nextObjectBufferPosition (shared s)).
  { intros h pos Hh ->. destruct (HA _ _ Hh) as (o' & Ho' & Hr & _). congruence. }
  unfold slot_inv. cbn [shared set_shared]. rewrite Hobj.
  split; [|split].
  - intros h pos Hh.
    rewrite list_lookup_insert_ne by (apply not_eq_sym, (Hne h); exact Hh).
    apply (HA h), Hh.
  - intros h1 h2 pos H1 H2. apply (HB h1 h2 pos); assumption.
  - intros pos o2 Ho2.
    apply list_lookup_insert_Some in Ho2 as [(_ & <- & _)|[_ Ho2]]; [cbn; auto|].
    apply (HC _ _ Ho2).
Qed.

Lemma step_slot_inv N l s s' :
  slot_inv s -> step N l s = Some s' -> slot_inv s'.
Proof.
  intros Hinv Hstep. apply step_inv in Hstep as [_ Hshape].
  destruct l as [|i|i answer|i| | |b| |i|i|i]; cbn [step_shape] in Hshape.
  - destruct Hshape as [(c & f & Hf & ->)|(msg & ->)]; [|exact Hinv].
    destruct (feeder_step_sending _ _ _ _ Hf)
      as [(_ & Hs & Ho)|(Hbp & [(Hs & Ho)|(Hs & Hs0 & Hclaim)])].
    + apply (slot_inv_shrink s); [exact Ho| |exact Hinv].
      intros [|i] pos Hh; [|exact Hh]. destruct Hh as [Hh _]. cbn in Hh. congruence.
    + apply (slot_inv_shrink s); [exact Ho| |exact Hinv].
      intros [|i] pos Hh; [|exact Hh]. destruct Hh as [Hh _]. cbn in Hh. congruence.
    + apply slot_inv_claim; try assumption. rewrite Hbp. exact Hclaim.
  - destruct Hshape as (w & Hw & _ & [(task & f & Hf & ->)|(msg & ->)]); [|exact Hinv].
    apply feeder_send_sending in Hf as (Hs & Hs' & Htask).
    apply slot_inv_handoff; assumption.
  - destruct Hshape as (w & task & Hw & Hpc & [(c & w' & Hd & ->)|(msg & ->)]);
      [|exact Hinv].
    apply download_slots in Hd as (Hw' & o & o' & Ho & Hobj & Hchange & _).
    eapply slot_inv_download; eassumption.
  - destruct Hshape as (w & Hw & Hpc & _ & ->).
    apply (slot_inv_shrink s); [reflexivity| |exact Hinv].
    intros h pos. apply holds_set_worker. exact I.
  - destruct Hshape as [(c & Hc & ->)|(msg & ->)]; [|exact Hinv].
    apply NextObject_slots in Hc as (o & Ho & Hr & _ & Hobj).
    eapply slot_inv_drain; eassumption.
  - destruct Hshape as [(c & Hc & ->)|(msg & ->)]; [|exact Hinv].
    apply (slot_inv_shrink s); [|auto|exact Hinv].
    unfold Close in Hc. destruct (done_closed _); [discriminate|].
    injection Hc as <-. reflexivity.
  - subst s'. apply (slot_inv_shrink s); [reflexivity|auto|exact Hinv].
  - destruct Hshape as (_ & ->).
    apply (slot_inv_shrink s); [|  |exact Hinv].
    + destruct (set_metrics_frame N (MLatencies 0 []) s) as (-> & _). reflexivity.
    + intros h pos. apply holds_frame; apply set_metrics_frame.
  - destruct Hshape as (w & k & l & Hw & Hpc & _ & ->).
    match goal with |- slot_inv (set_metrics N ?m ?s0) =>
      apply (slot_inv_shrink s0);
        [destruct (set_metrics_frame N m s0) as (-> & _); reflexivity
        |intros h pos; apply holds_frame; apply set_metrics_frame|] end.
    apply (slot_inv_shrink s); [reflexivity| |exact Hinv].
    intros h pos. apply (holds_set_worker s i). exact I.
  - destruct Hshape as (w & k & l & files & bytes & Hw & Hpc & _ & ->).
    match goal with |- slot_inv (set_metrics N ?m ?s0) =>
      apply (slot_inv_shrink s0);
        [destruct (set_metrics_frame N m s0) as (-> & _); reflexivity
        |intros h pos; apply holds_frame; apply set_metrics_frame|] end.
    apply (slot_inv_shrink s); [reflexivity| |exact Hinv].
    intros h pos. apply (holds_set_worker s i). exact I.
  - destruct Hshape as (w & k & l & files & bytes & Hw & Hpc & _ & ->).
    match goal with |- slot_inv (set_metrics N ?m ?s0) =>
      apply (slot_inv_shrink s0);
        [destruct (set_metrics_frame N m s0) as (-> & _); reflexivity
        |intros h pos; apply holds_frame; apply set_metrics_frame|] end.
    apply (slot_inv_shrink s); [reflexivity| |exact Hinv].
    intros h pos. apply (holds_set_worker s i). exact I.
Qed.

Lemma started_slot_inv N listing : slot_inv (started N listing).
Proof.
  split; [|split].
  - intros [|i] pos; cbn.
    + intros [? _]. discriminate.
    + intros (w & task & Hw & Hpc & _).
      apply lookup_replicate in Hw as [-> _]. discriminate.
  - intros [|i1] h2 pos; cbn.
    + intros [? _]. discriminate.
    + intros (w & task & Hw & Hpc & _).
      apply lookup_replicate in Hw as [-> _]. discriminate.
  - intros pos o Ho. cbn in Ho. apply lookup_replicate in Ho as [-> _]. auto.
Qed.

Lemma reachable_slot_inv N listing s : reachable N listing s -> slot_inv s.
Proof.
  intros [ls Hrun].
  eapply (exec_invariant N slot_inv); [| |exact Hrun].
  - intros l s1 s2. apply step_slot_inv.
  - apply started_slot_inv.
Qed.

(** ** A worker that returns on an error of the store *)

Lemma stranded_frame s s' pos :
  objects (shared s') !! pos = objects (shared s) !! pos ->
  (forall h, holds s' h pos -> holds s h pos) ->
  stranded s pos -> stranded s' pos.
Proof.
  intros Ho Hsub [Hslot Hnone]. split.
  - rewrite Ho. exact Hslot.
  - intros h Hh. apply (Hnone h), Hsub, Hh.
Qed.

Lemma step_stranded N l s s' pos :
  stranded s pos -> step N l s = Some s' -> stranded s' pos.
Proof.
  intros Hst Hstep. pose proof Hst as [(o & Ho & Hr & Hc) Hnone].
  apply step_inv in Hstep as [_ Hshape].
  destruct l as [|i|i answer|i| | |b| |i|i|i]; cbn [step_shape] in Hshape.
  - destruct Hshape as [(c & f & Hf & ->)|(msg & ->)]; [|exact Hst].
    destruct (feeder_step_sending _ _ _ _ Hf)
      as [(_ & Hs & Hobj)|(Hbp & [(Hs & Hobj)|(Hs & Hs0 & o1 & Ho1 & Hfree & Hobj)])].
    + apply (stranded_frame s); [cbn; rewrite Hobj; reflexivity| |exact Hst].
      intros [|i] Hh; [|exact Hh]. destruct Hh as [Hh _]. cbn in Hh. congruence.
    + apply (stranded_frame s); [cbn; rewrite Hobj; reflexivity| |exact Hst].
      intros [|i] Hh; [|exact Hh]. destruct Hh as [Hh _]. cbn in Hh. congruence.
    + assert (Hne : bufferPosition (the_feeder s) ≠ pos).
      { intros E. rewrite E in Ho1. congruence. }
      apply (stranded_frame s); [| |exact Hst].
      * cbn. rewrite Hobj. apply list_lookup_insert_ne. exact Hne.
      * intros [|i] Hh; [|exact Hh]. destruct Hh as [_ Hh]. cbn in Hh. congruence.
  - destruct Hshape as (w & Hw & _ & [(task & f & Hf & ->)|(msg & ->)]); [|exact Hst].
    apply feeder_send_sending in Hf as (Hs & Hs' & Htask).
    apply (stranded_frame s); [reflexivity| |exact Hst].
    intros [|i2] Hh.
    + destruct Hh as [Hh _]. cbn in Hh. congruence.
    + destruct Hh as (w2 & task2 & Hw2 & Hpc2 & Hpos2). cbn in Hw2.
      apply list_lookup_insert_Some in Hw2 as [(-> & <- & _)|[_ Hw2]].
      * cbn in Hpc2. injection Hpc2 as <-.
        exfalso. apply (Hnone HFeeder). split; [exact Hs|]. congruence.
      * cbn. eauto.
  - destruct Hshape as (w & task & Hw & Hpc & [(c & w' & Hd & ->)|(msg & ->)]);
      [|exact Hst].
    apply download_slots in Hd as (Hw' & o1 & o' & Ho1 & Hobj & _).
    assert (Hne : task_bufferPosition task ≠ pos).
    { intros <-. apply (Hnone (HWorker i)). cbn. eauto. }
    apply (stranded_frame s); [| |exact Hst].
    + cbn. rewrite Hobj. apply list_lookup_insert_ne. exact Hne.
    + intros h. apply (holds_set_worker s i w' h pos Hw').
  - destruct Hshape as (w & Hw & Hpc & _ & ->).
    apply (stranded_frame s); [reflexivity| |exact Hst].
    intros h. apply (holds_set_worker s i). exact I.
  - destruct Hshape as [(c & Hc' & ->)|(msg & ->)]; [|exact Hst].
    apply NextObject_slots in Hc' as (o1 & Ho1 & Hr1 & _ & Hobj).
    assert (Hne : nextObjectBufferPosition (shared s) ≠ pos).
    { intros E. rewrite E in Ho1. congruence. }
    apply (stranded_frame s); [|auto|exact Hst].
    cbn. rewrite Hobj. apply list_lookup_insert_ne. exact Hne.
  - destruct Hshape as [(c & Hc' & ->)|(msg & ->)]; [|exact Hst].
    apply (stranded_frame s); [|auto|exact Hst].
    unfold Close in Hc'. destruct (done_closed _); [discriminate|].
    injection Hc' as <-. reflexivity.
  - subst s'. apply (stranded_frame s); [reflexivity|auto|exact Hst].
  - destruct Hshape as (_ & ->).
    apply (stranded_frame s); [| |exact Hst].
    + destruct (set_metrics_frame N (MLatencies 0 []) s) as (-> & _). reflexivity.
    + intros h. apply holds_frame; apply set_metrics_frame.
  - destruct Hshape as (w & k & l & Hw & Hpc & _ & ->).
    match goal with |- stranded (set_metrics N ?m ?s0) _ =>
      apply (stranded_frame s0);
        [destruct (set_metrics_frame N m s0) as (-> & _); reflexivity
        |intros h; apply holds_frame; apply set_metrics_frame|] end.
    apply (stranded_frame s); [reflexivity| |exact Hst].
    intros h. apply (holds_set_worker s i). exact I.
  - destruct Hshape as (w & k & l & files & bytes & Hw & Hpc & _ & ->).
    match goal with |- stranded (set_metrics N ?m ?s0) _ =>
      apply (stranded_frame s0);
        [destruct (set_metrics_frame N m s0) as (-> & _); reflexivity
        |intros h; apply holds_frame; apply set_metrics_frame|] end.
    apply (stranded_frame s); [reflexivity| |exact Hst].
    intros h. apply (holds_set_worker s i). exact I.
  - destruct Hshape as (w & k & l & files & bytes & Hw & Hpc & _ & ->).
    match goal with |- stranded (set_metrics N ?m ?s0) _ =>
      apply (stranded_frame s0);
        [destruct (set_metrics_frame N m s0) as (-> & _); reflexivity
        |intros h; apply holds_frame; apply set_metrics_frame|] end.
    apply (stranded_frame s); [reflexivity| |exact Hst].
    intros h. apply (holds_set_worker s i). exact I.
Qed.

Lemma dead_set_worker s i j w w' :
  dead s i ->
  workers s !! j = Some w ->
  wpc w ≠ WExited false ->
  dead (set_worker j w' s) i.
Proof.
  intros (w0 & Hw0 & Hpc0) Hw Hne. exists w0. split; [|exact Hpc0]. cbn.
  rewrite list_lookup_insert_ne; [exact Hw0|]. intros ->. congruence.
Qed.

Lemma dead_frame s s' i : workers s' = workers s -> dead s i -> dead s' i.
Proof. unfold dead. intros ->. auto. Qed.

Lemma step_dead N l s s' i :
  dead s i -> step N l s = Some s' -> dead s' i.
Proof.
  intros Hdead Hstep. apply step_inv in Hstep as [_ Hshape].
  destruct l as [|j|j answer|j| | |b| |j|j|j]; cbn [step_shape] in Hshape.
  - destruct Hshape as [(c & f & Hf & ->)|(msg & ->)]; exact Hdead.
  - destruct Hshape as (w & Hw & Hpc & [(task & f & Hf & ->)|(msg & ->)]); [|exact Hdead].
    apply (dead_set_worker s i j w); [exact Hdead|exact Hw|congruence].
  - destruct Hshape as (w & task & Hw & Hpc & [(c & w' & Hd & ->)|(msg & ->)]);
      [|exact Hdead].
    apply (dead_set_worker s i j w); [exact Hdead|exact Hw|congruence].
  - destruct Hshape as (w & Hw & Hpc & _ & ->).
    apply (dead_set_worker s i j w); [exact Hdead|exact Hw|congruence].
  - destruct Hshape as [(c & Hc & ->)|(msg & ->)]; exact Hdead.
  - destruct Hshape as [(c & Hc & ->)|(msg & ->)]; exact Hdead.
  - subst s'. exact Hdead.
  - destruct Hshape as (_ & ->).
    eapply dead_frame; [apply set_metrics_frame|exact Hdead].
  - destruct Hshape as (w & k & l & Hw & Hpc & _ & ->).
    eapply dead_frame; [apply set_metrics_frame|].
    apply (dead_set_worker s i j w); [exact Hdead|exact Hw|congruence].
  - destruct Hshape as (w & k & l & files & bytes & Hw & Hpc & _ & ->).
    eapply dead_frame; [apply set_metrics_frame|].
    apply (dead_set_worker s i j w); [exact Hdead|exact Hw|congruence].
  - destruct Hshape as (w & k & l & files & bytes & Hw & Hpc & _ & ->).
    eapply dead_frame; [apply set_metrics_frame|].
    apply (dead_set_worker (set_shared _ s) i j w); [exact Hdead|exact Hw|congruence].
Qed.

(** ** What [Metrics] can receive *)

Lemma set_metrics_inv N m s :
  workers_inv N s ->
  metrics_ok N m (length (reported s)) ->
  metrics_inv N (set_metrics N m s).
Proof.
  intros (Hnd & Hsent & Hlen & Hrep) Hok.
  unfold metrics_inv, workers_inv, set_metrics, Metrics_advance.
  destruct m as [|k l|k l files bytes|k l files bytes]; cbn in Hok |- *;
    repeat case_bool_decide; cbn; rewrite ?app_nil_r;
    repeat split; auto; try lia; intros _; lia.
Qed.

Lemma workers_inv_set_worker N s i w w' :
  workers s !! i = Some w ->
  (sent_latencies w -> sent_latencies w') ->
  workers_inv N s -> workers_inv N (set_worker i w' s).
Proof.
  intros Hw Hmono (Hnd & Hsent & Hlen & Hrep).
  unfold workers_inv. cbn. rewrite length_insert.
  repeat (split; [assumption|]). split; [|split; assumption].
  intros j Hj. destruct (Hsent j Hj) as (w0 & Hw0 & Hs0).
  destruct (decide (i = j)) as [->|Hne].
  - rewrite (lookup_insert_same _ _ _ _ Hw). eexists. split; [reflexivity|].
    apply Hmono. congruence.
  - rewrite list_lookup_insert_ne by exact Hne. eauto.
Qed.

Lemma workers_inv_frame N s s' :
  workers s' = workers s -> reported s' = reported s -> reports s' = reports s ->
  workers_inv N s -> workers_inv N s'.
Proof. unfold workers_inv. intros -> -> ->. auto. Qed.

Lemma workers_inv_reported N s i w :
  workers s !! i = Some w ->
  wpc w = WReturnLatencies ->
  workers_inv N s ->
  workers_inv N (record_reported i (set_worker i (set_wpc WReturnFilesDownloaded w) s)).
Proof.
  intros Hw Hpc (Hnd & Hsent & Hlen & Hrep).
  assert (Hfresh : i ∉ reported s).
  { intros Hi. destruct (Hsent i Hi) as (w0 & Hw0 & Hs0).
    assert (w0 = w) as -> by congruence. unfold sent_latencies in Hs0.
    rewrite Hpc in Hs0. exact Hs0. }
  unfold workers_inv. cbn. rewrite length_insert, length_app. cbn.
  split; [|split; [|split]].
  - apply NoDup_app. split; [exact Hnd|]. split; [|apply NoDup_singleton].
    intros j Hj Hj'. apply list_elem_of_singleton in Hj'. subst j. contradiction.
  - intros j Hj. apply elem_of_app in Hj as [Hj|Hj].
    + destruct (Hsent j Hj) as (w0 & Hw0 & Hs0).
      rewrite list_lookup_insert_ne by (intros ->; contradiction). eauto.
    + apply list_elem_of_singleton in Hj. subst j.
      rewrite (lookup_insert_same _ _ _ _ Hw). eexists. split; [reflexivity|]. exact I.
  - exact Hlen.
  - intros H. specialize (Hrep H). lia.
Qed.

Lemma step_metrics_inv N l s s' :
  metrics_inv N s -> step N l s = Some s' -> metrics_inv N s'.
Proof.
  intros Hinv Hstep. pose proof Hinv as [Hwi Hok].
  apply step_inv in Hstep as [_ Hshape].
  destruct l as [|i|i answer|i| | |b| |i|i|i]; cbn [step_shape] in Hshape.
  - destruct Hshape as [(c & f & Hf & ->)|(msg & ->)]; exact Hinv.
  - destruct Hshape as (w & Hw & Hpc & [(task & f & Hf & ->)|(msg & ->)]); [|exact Hinv].
    split; [|exact Hok].
    apply (workers_inv_set_worker N (set_feeder f s) i w); [exact Hw| |exact Hwi].
    unfold sent_latencies. rewrite Hpc. contradiction.
  - destruct Hshape as (w & task & Hw & Hpc & [(c & w' & Hd & ->)|(msg & ->)]);
      [|exact Hinv].
    split; [|exact Hok].
    apply (workers_inv_set_worker N s i w); [exact Hw| |exact Hwi].
    unfold sent_latencies. rewrite Hpc. contradiction.
  - destruct Hshape as (w & Hw & Hpc & _ & ->).
    split; [|exact Hok].
    apply (workers_inv_set_worker N s i w); [exact Hw| |exact Hwi].
    unfold sent_latencies. rewrite Hpc. contradiction.
  - destruct Hshape as [(c & Hc & ->)|(msg & ->)]; exact Hinv.
  - destruct Hshape as [(c & Hc & ->)|(msg & ->)]; exact Hinv.
  - subst s'. exact Hinv.
  - destruct Hshape as (_ & ->). apply set_metrics_inv; [exact Hwi|]. cbn. lia.
  - destruct Hshape as (w & k & l & Hw & Hpc & Hm & ->).
    rewrite Hm in Hok. cbn in Hok.
    apply set_metrics_inv.
    + apply workers_inv_reported; assumption.
    + cbn. rewrite length_app. cbn. lia.
  - destruct Hshape as (w & k & l & files & bytes & Hw & Hpc & Hm & ->).
    rewrite Hm in Hok. cbn in Hok.
    apply set_metrics_inv; [|exact Hok].
    apply (workers_inv_set_worker N s i w); [exact Hw| |exact Hwi].
    intros _. exact I.
  - destruct Hshape as (w & k & l & files & bytes & Hw & Hpc & Hm & ->).
    rewrite Hm in Hok. cbn in Hok.
    apply set_metrics_inv; [|exact Hok].
    apply (workers_inv_set_worker N (set_shared _ s) i w); [exact Hw| |exact Hwi].
    intros _. exact I.
Qed.

Lemma started_metrics_inv N listing : metrics_inv N (started N listing).
Proof.
  split; [|exact I]. split; [apply NoDup_nil_2|]. split.
  - intros i Hi. cbn in Hi. apply elem_of_nil in Hi. contradiction.
  - split; [apply length_replicate|]. cbn. congruence.
Qed.

(** With a dead worker fewer than [N] latency lists have been received. *)
Lemma dead_bounds_reported N s i :
  workers_inv N s -> dead s i -> (length (reported s) < N)%nat.
Proof.
  intros (Hnd & Hsent & Hlen & _) (w & Hw & Hpc).
  assert (Hfresh : i ∉ reported s).
  { intros Hi. destruct (Hsent i Hi) as (w0 & Hw0 & Hs0).
    assert (w0 = w) as -> by congruence. unfold sent_latencies in Hs0.
    rewrite Hpc in Hs0. exact Hs0. }
  assert (Hsub : i :: reported s ⊆+ seq 0 N).
  { apply NoDup_submseteq; [apply NoDup_cons; auto|].
    intros j Hj. apply elem_of_seq. split; [lia|]. cbn. rewrite <- Hlen.
    apply elem_of_cons in Hj as [->|Hj].
    - eapply lookup_lt_Some, Hw.
    - destruct (Hsent j Hj) as (w0 & Hw0 & _). eapply lookup_lt_Some, Hw0. }
  apply submseteq_length in Hsub. rewrite length_seq in Hsub. cbn in Hsub. lia.
Qed.

Lemma reachable_metrics_inv N listing s : reachable N listing s -> metrics_inv N s.
Proof.
  intros [ls Hrun].
  eapply (exec_invariant N (metrics_inv N)); [| |exact Hrun].
  - intros l s1 s2. apply step_metrics_inv.
  - apply started_metrics_inv.
Qed.

(** The case body on an error of [GetObject] or [Stat]: the slot gets the
    task's name, nothing else of it changes, and the worker has returned. *)
Lemma download_error_returns task answer c w o :
  objects c !! task_bufferPosition task = Some o ->
  (exists e, answer = GetObject_error e \/ answer = Stat_error e) ->
  exists c',
    downloadObjectsBenchmark_task task answer c w = Ok (c', set_wpc (WExited false) w)
    /\ objects c' = <[task_bufferPosition task := set_name (task_name task) o]> (objects c).
Proof.
  intros Ho (e & [-> | ->]); unfold downloadObjectsBenchmark_task;
    rewrite (index_slice_Some _ _ _ Ho); cbn [mbind outcome_bind];
    eexists; (split; [reflexivity|]); reflexivity.
Qed.

(** C10: when [GetObject] or [Stat] fails for the task a worker holds, the
    worker returns with the slot's [readLock] still held.  In every state
    the system comes to afterwards the worker has returned without the done
    case (so it is at none of the three sends, and [Metrics] has no latency
    list from it), the slot's [readLock] is held, a [NextObject] call at
    that slot waits, and [Metrics] has received fewer than [N] latency
    lists, is not past its first loop, and has returned no report. *)
Theorem worker_error_strands_slot N listing s i w task answer s1 ls s' :
  reachable N listing s ->
  workers s !! i = Some w ->
  wpc w = WTask task ->
  (exists e, answer = GetObject_error e \/ answer = Stat_error e) ->
  step N (Download i answer) s = Some s1 ->
  exec N ls s1 = Some s' ->
  dead s' i
  /\ (i ∉ reported s')
  /\ (exists o, objects (shared s') !! task_bufferPosition task = Some o
                /\ readLock o = true)
  /\ (nextObjectBufferPosition (shared s') = task_bufferPosition task ->
      NextObject (shared s') = Blocked)
  /\ (length (reported s') < N)%nat
  /\ in_first_loop N (metrics s')
  /\ reports s' = [].
Proof.
  intros Hreach Hw Hpc Herr Hstep Hrun.
  pose proof (reachable_slot_inv _ _ _ Hreach) as (HA & HB & _).
  pose proof (reachable_metrics_inv _ _ _ Hreach) as Hm.
  assert (Hme : holds s (HWorker i) (task_bufferPosition task)) by (cbn; eauto).
  destruct (HA _ _ Hme) as (o & Ho & Hr & Hc).
  destruct (download_error_returns task answer (shared s) w o Ho Herr) as (c' & Hd & Hobj).
  assert (Hs1 : s1 = set_shared c' (set_worker i (set_wpc (WExited false) w) s)).
  { unfold step in Hstep. case_bool_decide; [discriminate|].
    cbn in Hstep. rewrite Hw in Hstep. cbn in Hstep. rewrite Hpc, Hd in Hstep.
    cbn in Hstep. congruence. }
  assert (Hdead1 : dead s1 i).
  { subst s1. eexists. cbn. split; [eapply lookup_insert_same, Hw|reflexivity]. }
  assert (Hst1 : stranded s1 (task_bufferPosition task)).
  { subst s1. split.
    - cbn. rewrite Hobj, (lookup_insert_same _ _ _ _ Ho). eexists. split; [reflexivity|].
      cbn. auto.
    - intros h Hh.
      assert (Hh' : holds s h (task_bufferPosition task)).
      { apply (holds_set_worker s i (set_wpc (WExited false) w)); [exact I|exact Hh]. }
      assert (h = HWorker i) as -> by apply (HB _ _ _ Hh' Hme).
      destruct Hh as (w2 & task2 & Hw2 & Hpc2 & _). cbn in Hw2.
      rewrite (lookup_insert_same _ _ _ _ Hw) in Hw2. injection Hw2 as <-.
      discriminate. }
  assert (Hm1 : metrics_inv N s1).
  { eapply step_metrics_inv; eassumption. }
  assert (Hdead : dead s' i).
  { eapply (exec_invariant N (fun x => dead x i)); [| |exact Hrun]; [|exact Hdead1].
    intros l x y. apply step_dead. }
  assert (Hst : stranded s' (task_bufferPosition task)).
  { eapply (exec_invariant N (fun x => stranded x (task_bufferPosition task)));
      [| |exact Hrun]; [|exact Hst1].
    intros l x y. apply step_stranded. }
  assert (Hm' : metrics_inv N s').
  { eapply (exec_invariant N (metrics_inv N)); [| |exact Hrun]; [|exact Hm1].
    intros l x y. apply step_metrics_inv. }
  destruct Hm' as [Hwi Hok].
  pose proof (dead_bounds_reported _ _ _ Hwi Hdead) as Hlt.
  destruct Hst as [(o' & Ho' & Hr' & _) _].
  split; [exact Hdead|]. split.
  { destruct Hwi as (_ & Hsent & _). destruct Hdead as (w0 & Hw0 & Hpc0).
    intros Hi. destruct (Hsent i Hi) as (w1 & Hw1 & Hs1').
    assert (w1 = w0) as -> by congruence.
    unfold sent_latencies in Hs1'. rewrite Hpc0 in Hs1'. exact Hs1'. }
  split; [eauto|]. split.
  { intros Hpos. apply (NextObject_blocked _ o'); [rewrite Hpos; exact Ho'|exact Hr']. }
  split; [exact Hlt|]. split.
  - unfold in_first_loop. unfold metrics_ok in Hok.
    destruct (metrics s'); try exact I; lia.
  - destruct Hwi as (_ & _ & _ & Hrep).
    destruct (reports s') as [|r rs]; [reflexivity|].
    assert (N <= length (reported s'))%nat by (apply Hrep; discriminate). lia.
Qed.

Lemma worker_error_strands_slot_witness :
  dead after_error_later 0
  /\ (0%nat ∉ reported after_error_later)
  /\ (exists o, objects (shared after_error_later) !! 0%nat = Some o /\ readLock o = true)
  /\ (nextObjectBufferPosition (shared after_error_later) = 0%nat ->
      NextObject (shared after_error_later) = Blocked)
  /\ (length (reported after_error_later) < 2)%nat
  /\ in_first_loop 2 (metrics after_error_later)
  /\ reports after_error_later = [].
Proof.
  apply (worker_error_strands_slot 2 a_listing holding_task 0
           {| wpc := WTask {| task_name := "a"; task_bufferPosition := 0 |};
              latencies := []; filesDownloaded := 0; bytesDownloaded := 0 |}
           {| task_name := "a"; task_bufferPosition := 0 |}
           (Stat_error (Err "stat failed")) after_error
           [Feeder; CallClose; ObserveDone 1; CallMetrics; ReturnLatencies 1]
           after_error_later).
  - exists [Feeder; Feeder; Handoff 0]. vm_compute. reflexivity.
  - vm_compute. reflexivity.
  - reflexivity.
  - eexists. right. reflexivity.
  - vm_compute. reflexivity.
  - vm_compute. reflexivity.
Defined.

(** ** Further facts about the model *)

Lemma firstByteRecorder_Read_uses_one f len_p n f' :
  firstByteRecorder_Read f len_p = (n, None, f') ->
  length (fbr_r f) = S (length (fbr_r f')).
Proof.
  unfold firstByteRecorder_Read, Reader_Read.
  destruct (fbr_r f) as [|ev r']; destruct (orb _ _); cbn;
    intros [= ? ? <-]; try discriminate; reflexivity.
Qed.

(** The copy loop does not depend on its bound once the bound covers the
    answers the stream has left: the bound [io_Copy] passes is never used
    up, the loop ends at an error of the reader. *)
Lemma discard_ReadFrom_fuel fuel1 fuel2 f n :
  (length (fbr_r f) <= fuel1)%nat ->
  (length (fbr_r f) <= fuel2)%nat ->
  discard_ReadFrom fuel1 f n = discard_ReadFrom fuel2 f n.
Proof.
  revert fuel2 f n. induction fuel1 as [|fuel1 IH]; intros fuel2 f n H1 H2.
  - destruct fuel2 as [|fuel2]; [reflexivity|]. cbn.
    destruct (firstByteRecorder_Read f 8192) as [[k [e|]] f'] eqn:Hread; [reflexivity|].
    apply firstByteRecorder_Read_uses_one in Hread. lia.
  - cbn. destruct (firstByteRecorder_Read f 8192) as [[k [e|]] f'] eqn:Hread.
    + destruct fuel2; cbn; rewrite Hread; reflexivity.
    + pose proof (firstByteRecorder_Read_uses_one _ _ _ _ Hread) as Hlen.
      destruct fuel2 as [|fuel2]; [lia|]. cbn. rewrite Hread. apply IH; lia.
Qed.

(** In every state the system comes to, a worker that holds a task finds
    the task's slot with both locks held: the [Unlock] of the case body
    meets a locked [readLock]. *)
Lemma reachable_task_slot_held N listing s i w task :
  reachable N listing s ->
  workers s !! i = Some w ->
  wpc w = WTask task ->
  exists o, objects (shared s) !! task_bufferPosition task = Some o
            /\ readLock o = true /\ changeObjectLock o = true.
Proof.
  intros Hreach Hw Hpc.
  destruct (reachable_slot_inv _ _ _ Hreach) as (HA & _).
  apply (HA (HWorker i)). cbn. eauto.
Qed.

Lemma feeder_step_position c f c' f' :
  findDownloadableObjectsBenchmark_step c f = Ok (c', f') ->
  nextObjectBufferPosition c' = nextObjectBufferPosition c.
Proof.
  unfold findDownloadableObjectsBenchmark_step.
  destruct (fpc f) as [l|[|name rest]|name rest| |current|current].
  - destruct (list_keys l); cbn; try discriminate. intros [= <- _]. reflexivity.
  - intros [= <- _]. reflexivity.
  - destruct (claim_slot _ _) as [c1| |] eqn:Hc; cbn; try discriminate.
    intros [= <- _]. apply (claim_slot_frame _ _ _ Hc).
  - discriminate.
  - destruct (done_closed c).
    + intros [= <- _]. reflexivity.
    + destruct (index_slice _ _); cbn; try discriminate.
      intros [= <- _]. destruct (bool_decide _); reflexivity.
  - destruct (claim_slot _ _) as [c1| |] eqn:Hc; cbn; try discriminate.
    intros [= <- _]. apply (claim_slot_frame _ _ _ Hc).
  - discriminate.
Qed.

(** No step of the system moves the consumer position. *)
Lemma step_position N l s s' :
  step N l s = Some s' ->
  nextObjectBufferPosition (shared s') = nextObjectBufferPosition (shared s).
Proof.
  intros Hstep. apply step_inv in Hstep as [_ Hshape].
  destruct l as [|i|i answer|i| | |b| |i|i|i]; cbn [step_shape] in Hshape.
  - destruct Hshape as [(c & f & Hf & ->)|(msg & ->)]; [|reflexivity].
    cbn. apply (feeder_step_position _ _ _ _ Hf).
  - destruct Hshape as (w & _ & _ & [(task & f & Hf & ->)|(msg & ->)]); reflexivity.
  - destruct Hshape as (w & task & _ & _ & [(c & w' & Hd & ->)|(msg & ->)]);
      [|reflexivity].
    cbn. apply (download_frame _ _ _ _ _ _ Hd).
  - destruct Hshape as (w & _ & _ & _ & ->). reflexivity.
  - destruct Hshape as [(c & Hc & ->)|(msg & ->)]; [|reflexivity].
    cbn. apply (NextObject_keeps_position _ _ Hc).
  - destruct Hshape as [(c & Hc & ->)|(msg & ->)]; [|reflexivity].
    unfold Close in Hc. destruct (done_closed _); [discriminate|].
    injection Hc as <-. reflexivity.
  - subst s'. reflexivity.
  - destruct Hshape as (_ & ->).
    destruct (set_metrics_frame N (MLatencies 0 []) s) as (-> & _). reflexivity.
  - destruct Hshape as (w & k & l & _ & _ & _ & ->).
    match goal with |- context [set_metrics N ?m ?s0] =>
      destruct (set_metrics_frame N m s0) as (-> & _) end. reflexivity.
  - destruct Hshape as (w & k & l & files & bytes & _ & _ & _ & ->).
    match goal with |- context [set_metrics N ?m ?s0] =>
      destruct (set_metrics_frame N m s0) as (-> & _) end. reflexivity.
  - destruct Hshape as (w & k & l & files & bytes & _ & _ & _ & ->).
    match goal with |- context [set_metrics N ?m ?s0] =>
      destruct (set_metrics_frame N m s0) as (-> & _) end. reflexivity.
Qed.

(** The consumer position is 0 in every state the system comes to: every
    [NextObject] call drains slot 0. *)
Lemma reachable_position_0 N listing s :
  reachable N listing s -> nextObjectBufferPosition (shared s) = 0%nat.
Proof.
  intros [ls Hrun].
  eapply (exec_invariant N (fun x => nextObjectBufferPosition (shared x) = 0%nat));
    [| |exact Hrun]; [|reflexivity].
  intros l s1 s2 H0 Hstep. rewrite (step_position _ _ _ _ Hstep). exact H0.
Qed.

(** ** The feeder behind a consumer that stays at slot 0 *)










(** * Further properties of the code *)

(** ** The listing loop *)

(** X1: the listing loop of the feeder keeps every key, in the order
    listed, when no item carries an error, and panics when some item
    does, wherever it stands in the listing. *)
Theorem list_keys_all_or_nothing listing :
  list_keys listing
  = if bool_decide (Forall (fun item => Err_ item = None) listing)
    then Ok (Key <$> listing)
    else Panic "Error looking for existing objects in bucket".
Proof.
  induction listing as [|item listing IH]; cbn [list_keys].
  - case_bool_decide as Hall; [reflexivity|]. destruct Hall. constructor.
  - destruct (Err_ item) as [e|] eqn:He.
    + clear IH. case_bool_decide as Hall; [|reflexivity].
      apply Forall_cons in Hall as [H _]. congruence.
    + rewrite IH. clear IH. cbn. repeat case_bool_decide; try reflexivity.
      * exfalso. match goal with H : ~ Forall _ (_ :: _) |- _ => apply H end.
        constructor; assumption.
      * exfalso. match goal with H : Forall _ (_ :: _) |- _ =>
          apply Forall_cons in H as [_ H] end. contradiction.
Qed.

(** ** The copy and the first byte *)

Lemma int64_idem x : int64 (int64 x) = int64 x.
Proof.
  unfold int64. f_equal.
  replace ((x + 2 ^ 63) mod 2 ^ 64 - 2 ^ 63 + 2 ^ 63) with ((x + 2 ^ 63) mod 2 ^ 64) by lia.
  apply Z.mod_mod. lia.
Qed.

(** Once the recorder holds a time, no later read of the copy changes it. *)
Lemma discard_ReadFrom_keeps_time fuel f n t :
  fbr_t f = Some t -> fbr_t (discard_ReadFrom fuel f n).2 = Some t.
Proof.
  revert f n. induction fuel as [|fuel IH]; intros f n Ht; cbn;
    unfold firstByteRecorder_Read; rewrite Ht;
    rewrite bool_decide_eq_true_2 by discriminate; cbn [orb];
    destruct (Reader_Read _ _) as [[[k [e|]] now] r']; cbn; auto.
Qed.

Lemma read_without_time body len_p :
  len_p ≠ 0 ->
  firstByteRecorder_Read {| fbr_t := None; fbr_r := body |} len_p
  = let '(k, e, now, r') := Reader_Read body 1 in
    (k, e, {| fbr_t := if bool_decide (k > 0) then Some now else None; fbr_r := r' |}).
Proof.
  intros Hlen. unfold firstByteRecorder_Read. cbn [fbr_t fbr_r].
  rewrite bool_decide_eq_false_2 by (intros H; apply H; reflexivity).
  rewrite bool_decide_eq_false_2 by exact Hlen. reflexivity.
Qed.

Lemma discard_ReadFrom_first_byte body fuel n :
  (length body <= fuel)%nat ->
  fbr_t (discard_ReadFrom fuel {| fbr_t := None; fbr_r := body |} n).2 = first_byte body.
Proof.
  revert fuel n. induction body as [|ev body IH]; intros fuel n Hfuel.
  - destruct fuel; reflexivity.
  - destruct fuel as [|fuel]; [cbn in Hfuel; lia|].
    cbn [discard_ReadFrom first_byte]. rewrite read_without_time by discriminate.
    cbn [Reader_Read].
    destruct (respond ev 1) as [k [e|]]; cbn [fst snd].
    + case_bool_decide; reflexivity.
    + case_bool_decide.
      * apply discard_ReadFrom_keeps_time. reflexivity.
      * apply IH. cbn in Hfuel. lia.
Qed.

Lemma discard_ReadFrom_no_EOF fuel f n : (discard_ReadFrom fuel f n).1.2 ≠ Some EOF.
Proof.
  revert f n. induction fuel as [|fuel IH]; intros f n; cbn;
    destruct (firstByteRecorder_Read f 8192) as [[k [e|]] f']; cbn; auto;
    destruct e; cbn; discriminate.
Qed.

Lemma discard_ReadFrom_no_byte body fuel n :
  counts_nonneg body ->
  first_byte body = None ->
  (length body <= fuel)%nat ->
  (discard_ReadFrom fuel {| fbr_t := None; fbr_r := body |} n).1.1 = int64 n.
Proof.
  revert fuel n. induction body as [|ev body IH]; intros fuel n Hpos Hnone Hfuel.
  - destruct fuel; cbn [discard_ReadFrom]; rewrite read_without_time by discriminate;
      cbn [Reader_Read fst]; rewrite Z.add_0_r; reflexivity.
  - destruct fuel as [|fuel]; [cbn in Hfuel; lia|].
    cbn [first_byte] in Hnone.
    assert (Hev : 0 <= (respond ev 1).1).
    { apply Hpos. apply elem_of_cons. auto. }
    assert (Hbody : counts_nonneg body).
    { intros ev' Hin. apply Hpos. apply elem_of_cons. auto. }
    cbn [discard_ReadFrom]. rewrite read_without_time by discriminate.
    cbn [Reader_Read].
    destruct (respond ev 1) as [k [e|]]; cbn [fst snd] in *;
      case_bool_decide; try discriminate;
      assert (k = 0) as -> by lia; rewrite Z.add_0_r.
    + reflexivity.
    + rewrite IH; [apply int64_idem|assumption|assumption|cbn in Hfuel; lia].
Qed.

(** X2: after the copy of a body the recorder holds the return time of the
    first read that gave a byte, and no time when the stream ended or failed
    before giving one; the copy never reports [io.EOF] as its error; and for
    a reader that returns no negative count, a recorder left without a time
    means the copy returned 0 bytes. *)
Theorem copy_records_first_byte body n err fbr :
  io_Copy {| fbr_t := None; fbr_r := body |} = (n, err, fbr) ->
  fbr_t fbr = first_byte body
  /\ err ≠ Some EOF
  /\ (counts_nonneg body -> fbr_t fbr = None -> n = 0).
Proof.
  unfold io_Copy. cbn [fbr_r]. intros Hcopy.
  pose proof (discard_ReadFrom_first_byte body (length body) 0 (le_n _)) as Hfirst.
  pose proof (discard_ReadFrom_no_EOF (length body) {| fbr_t := None; fbr_r := body |} 0)
    as Herr.
  rewrite Hcopy in Hfirst, Herr. cbn in Hfirst, Herr.
  split; [exact Hfirst|]. split; [exact Herr|].
  intros Hpos Hnone. rewrite Hfirst in Hnone.
  pose proof (discard_ReadFrom_no_byte body (length body) 0 Hpos Hnone (le_n _)) as Hn.
  rewrite Hcopy in Hn. exact Hn.
Qed.

Lemma copy_records_first_byte_witness :
  Some 5 = first_byte four_bytes
  /\ None ≠ Some EOF
  /\ (counts_nonneg four_bytes -> Some 5 = None -> 4 = 0).
Proof.
  apply (copy_records_first_byte four_bytes 4 None {| fbr_t := Some 5; fbr_r := [] |}).
  vm_compute. reflexivity.
Defined.

(** ** What the case body of a worker changes *)

(** The consumer after the case body, field by field: the task's slot is
    replaced, the log grows, nothing else changes.  The new slot has the
    task's name and the old [changeObjectLock]; its [readLock] is as before
    or was held and is released. *)
Lemma download_effect task answer c w c' w' :
  downloadObjectsBenchmark_task task answer c w = Ok (c', w') ->
  exists o o' entries,
    objects c !! task_bufferPosition task = Some o
    /\ c' = {| nextObjectBufferPosition := nextObjectBufferPosition c;
               objects := <[task_bufferPosition task := o']> (objects c);
               CollectMetrics := CollectMetrics c;
               bytesConsumed := bytesConsumed c;
               filesConsumed := filesConsumed c;
               logger := logger c ++ entries;
               done_closed := done_closed c |}
    /\ obj_name o' = task_name task
    /\ changeObjectLock o' = changeObjectLock o
    /\ (readLock o' = readLock o \/ readLock o = true /\ readLock o' = false).
Proof.
  intros Hrun.
  destruct (index_slice (objects c) (task_bufferPosition task)) as [o| |] eqn:Ho;
    [|unfold downloadObjectsBenchmark_task in Hrun; rewrite Ho in Hrun; discriminate..].
  apply index_slice_Ok in Ho.
  destruct answer as [e|e|stats_Size start body].
  - unfold downloadObjectsBenchmark_task in Hrun.
    rewrite (index_slice_Some _ _ _ Ho) in Hrun. cbn in Hrun. injection Hrun as <- <-.
    eexists o, _, _. split; [exact Ho|]. split.
    { unfold log, set_objects. cbn. rewrite <- app_assoc. reflexivity. }
    cbn. auto.
  - unfold downloadObjectsBenchmark_task in Hrun.
    rewrite (index_slice_Some _ _ _ Ho) in Hrun. cbn in Hrun. injection Hrun as <- <-.
    eexists o, _, _. split; [exact Ho|]. split.
    { unfold log, set_objects. cbn. rewrite <- app_assoc. reflexivity. }
    cbn. auto.
  - destruct (readLock o) eqn:Hr.
    + destruct (decide (stats_Size = 0)) as [->|Hsize].
      * rewrite (download_empty _ _ _ _ _ _ Ho Hr) in Hrun. injection Hrun as <- <-.
        eexists o, _, _. split; [exact Ho|]. split; [reflexivity|]. cbn. auto.
      * destruct (io_Copy {| fbr_t := None; fbr_r := body |}) as [[n err] fbr] eqn:Hcopy.
        rewrite (download_nonempty _ _ _ _ _ _ _ _ _ _ Ho Hr Hsize Hcopy) in Hrun.
        cbv zeta in Hrun.
        destruct (CollectMetrics c); [destruct (fbr_t fbr); [|discriminate]|];
          injection Hrun as <- <-;
          (eexists o, _, _; split; [exact Ho|]; split; [reflexivity|]; cbn; auto).
    + exfalso. revert Hrun. unfold downloadObjectsBenchmark_task, complete_slot.
      rewrite (index_slice_Some _ _ _ Ho). cbn [mbind outcome_bind].
      assert (Hin : forall x, <[task_bufferPosition task := x]> (objects c)
                              !! task_bufferPosition task = Some x).
      { intros x. eapply lookup_insert_same, Ho. }
      assert (Hobj : forall b1 l1 m1 b2 l2 m2 c0,
                objects (log_if b1 l1 m1 (log_if b2 l2 m2 c0)) = objects c0).
      { intros [] ? ? [] ? ? ?; reflexivity. }
      case_bool_decide.
      * cbn [objects log set_objects]. rewrite (index_slice_Some _ _ _ (Hin _)).
        cbn. rewrite Hr. discriminate.
      * destruct (io_Copy _) as [[n err] fbr].
        destruct (CollectMetrics _); [destruct (fbr_t fbr)|];
          cbn [mbind outcome_bind]; try discriminate;
          cbn [objects log]; rewrite Hobj; cbn [objects log set_objects];
          rewrite (index_slice_Some _ _ _ (Hin _)); cbn; rewrite Hr; discriminate.
Qed.

(** X3: the case body of a worker changes no slot but its task's, keeps
    the number of slots, gives the task's slot the task's name, never
    changes a [changeObjectLock], and leaves the shutdown signal, the
    collection toggle, the consumer position and the consumer's counters
    alone. *)
Theorem worker_changes_only_its_slot task answer c w c' w' :
  downloadObjectsBenchmark_task task answer c w = Ok (c', w') ->
  length (objects c') = length (objects c)
  /\ (forall pos, pos ≠ task_bufferPosition task -> objects c' !! pos = objects c !! pos)
  /\ (exists o o', objects c !! task_bufferPosition task = Some o
                   /\ objects c' !! task_bufferPosition task = Some o'
                   /\ obj_name o' = task_name task
                   /\ changeObjectLock o' = changeObjectLock o)
  /\ done_closed c' = done_closed c
  /\ CollectMetrics c' = CollectMetrics c
  /\ nextObjectBufferPosition c' = nextObjectBufferPosition c
  /\ bytesConsumed c' = bytesConsumed c
  /\ filesConsumed c' = filesConsumed c.
Proof.
  intros Hrun.
  apply download_effect in Hrun as (o & o' & entries & Ho & -> & Hname & Hchange & _).
  cbn. split; [apply length_insert|]. split.
  { intros pos Hne. apply list_lookup_insert_ne. congruence. }
  split; [|auto 10].
  exists o, o'. split; [exact Ho|]. split; [eapply lookup_insert_same, Ho|]. auto.
Qed.

Lemma worker_changes_only_its_slot_witness :
  length (objects (log Error "Failed to get object stats"
            (log Info "Starting download of new object"
               (set_objects [ {| obj_size := 0; obj_name := "a"; readLock := true;
                                 changeObjectLock := true |} ] (example_consumer true)))))
  = length (objects (example_consumer true))
  /\ (forall pos, pos ≠ 0%nat ->
        objects (log Error "Failed to get object stats"
           (log Info "Starting download of new object"
              (set_objects [ {| obj_size := 0; obj_name := "a"; readLock := true;
                                changeObjectLock := true |} ] (example_consumer true))))
        !! pos = objects (example_consumer true) !! pos)
  /\ (exists o o', objects (example_consumer true) !! 0%nat = Some o
                   /\ objects (log Error "Failed to get object stats"
                         (log Info "Starting download of new object"
                            (set_objects [ {| obj_size := 0; obj_name := "a";
                                              readLock := true;
                                              changeObjectLock := true |} ]
                               (example_consumer true)))) !! 0%nat = Some o'
                   /\ obj_name o' = "a"
                   /\ changeObjectLock o' = changeObjectLock o)
  /\ false = false /\ true = true /\ 0%nat = 0%nat /\ 0 = 0 /\ 0 = 0.
Proof.
  exact (worker_changes_only_its_slot example_task (Stat_error (Err "stat failed"))
           (example_consumer true) example_worker _ _ eq_refl).
Defined.

(** ** One turn of a slot *)

(** X4: a completed download of a non-empty object followed by
    [NextObject] on that slot: the consumer reads the task's name; with
    metrics collected its byte counter grows by the bytes the copy returned
    (the worker's by the declared size) and its file counter by one; and the
    slot is left with its [readLock] held and its [changeObjectLock] free,
    as the feeder needs it. *)
Theorem download_then_NextObject task stats_Size start body c w o n err fbr :
  task_bufferPosition task = nextObjectBufferPosition c ->
  objects c !! nextObjectBufferPosition c = Some o ->
  readLock o = true ->
  changeObjectLock o = true ->
  stats_Size ≠ 0 ->
  io_Copy {| fbr_t := None; fbr_r := body |} = (n, err, fbr) ->
  CollectMetrics c = false \/ fbr_t fbr ≠ None ->
  exists c1 w1 c2,
    downloadObjectsBenchmark_task task (Object stats_Size start body) c w = Ok (c1, w1)
    /\ NextObject_reads c1 = Some (task_name task)
    /\ NextObject c1 = Ok c2
    /\ bytesConsumed c2
       = (if CollectMetrics c then uint64 (bytesConsumed c + uint64 n) else bytesConsumed c)
    /\ filesConsumed c2
       = (if CollectMetrics c then int64 (filesConsumed c + 1) else filesConsumed c)
    /\ (CollectMetrics c = true ->
        bytesDownloaded w1 = uint64 (bytesDownloaded w + uint64 stats_Size))
    /\ objects c2 !! nextObjectBufferPosition c
       = Some {| obj_size := n; obj_name := task_name task;
                 readLock := true; changeObjectLock := false |}.
Proof.
  intros Hpos Ho Hr Hc Hsize Hcopy Hfirst. rewrite <- Hpos in Ho.
  rewrite (download_nonempty _ _ _ _ _ _ _ _ _ _ Ho Hr Hsize Hcopy). cbv zeta.
  set (o1 := {| obj_size := n; obj_name := task_name task; readLock := false;
                changeObjectLock := changeObjectLock o |}).
  set (c1 := {| nextObjectBufferPosition := nextObjectBufferPosition c;
                objects := <[task_bufferPosition task := o1]> (objects c);
                CollectMetrics := CollectMetrics c;
                bytesConsumed := bytesConsumed c;
                filesConsumed := filesConsumed c;
                logger := logger c
                          ++ download_log err n stats_Size (CollectMetrics c);
                done_closed := done_closed c |}).
  assert (Ho1 : objects c1 !! nextObjectBufferPosition c1 = Some o1).
  { cbn. rewrite <- Hpos. eapply lookup_insert_same, Ho. }
  assert (Hnext := NextObject_ready c1 o1 Ho1 eq_refl Hc).
  assert (Hreads : NextObject_reads c1 = Some (task_name task)).
  { unfold NextObject_reads. rewrite Ho1. reflexivity. }
  assert (Hslot : forall x, <[nextObjectBufferPosition c1 := x]> (objects c1)
                            !! nextObjectBufferPosition c = Some x).
  { intros x. apply (lookup_insert_same _ _ o1). exact Ho1. }
  destruct (CollectMetrics c) eqn:Hcm.
  - destruct Hfirst as [|Hfirst]; [discriminate|].
    destruct (fbr_t fbr) as [t|]; [|congruence].
    eexists c1, _, _. split; [reflexivity|]. split; [exact Hreads|].
    split; [exact Hnext|]. cbn [bytesConsumed filesConsumed objects].
    split; [reflexivity|]. split; [reflexivity|]. split; [reflexivity|].
    rewrite Hslot. reflexivity.
  - eexists c1, _, _. split; [reflexivity|]. split; [exact Hreads|].
    split; [exact Hnext|]. cbn [bytesConsumed filesConsumed objects].
    split; [reflexivity|]. split; [reflexivity|]. split; [discriminate|].
    rewrite Hslot. reflexivity.
Qed.

Lemma download_then_NextObject_witness :
  exists c1 w1 c2,
    downloadObjectsBenchmark_task example_task (Object 10 0 four_bytes)
      (example_consumer true) example_worker = Ok (c1, w1)
    /\ NextObject_reads c1 = Some "a"
    /\ NextObject c1 = Ok c2
    /\ bytesConsumed c2 = uint64 (0 + uint64 4)
    /\ filesConsumed c2 = int64 (0 + 1)
    /\ (true = true -> bytesDownloaded w1 = uint64 (0 + uint64 10))
    /\ objects c2 !! 0%nat
       = Some {| obj_size := 4; obj_name := "a";
                 readLock := true; changeObjectLock := false |}.
Proof.
  refine (download_then_NextObject example_task 10 0 four_bytes
            (example_consumer true) example_worker _ 4 None
            {| fbr_t := Some 5; fbr_r := [] |}
            eq_refl eq_refl eq_refl eq_refl _ _ (or_intror _)).
  - discriminate.
  - vm_compute. reflexivity.
  - discriminate.
Defined.

(** ** The ring and the shutdown signal *)

Lemma free_slots_insert os i o o' :
  os !! i = Some o ->
  (free_slots (<[i := o']> os) + (if changeObjectLock o then 0 else 1)
   = free_slots os + (if changeObjectLock o' then 0 else 1))%nat.
Proof.
  revert i. induction os as [|o0 os IH]; intros [|i] Ho; try discriminate.
  - injection Ho as ->. cbn.
    destruct (changeObjectLock o), (changeObjectLock o'); lia.
  - change (<[S i := o']> (o0 :: os)) with (o0 :: <[i := o']> os).
    cbn [free_slots]. specialize (IH i Ho). lia.
Qed.

Lemma free_slots_replicate n o :
  changeObjectLock o = false -> free_slots (replicate n o) = n.
Proof. intros Ho. induction n as [|n IH]; cbn; [reflexivity|]. rewrite Ho, IH. reflexivity. Qed.

Lemma feeder_step_not_sending c f c' f' :
  findDownloadableObjectsBenchmark_step c f = Ok (c', f') -> sending f = false.
Proof.
  unfold findDownloadableObjectsBenchmark_step, sending.
  destruct (fpc f); try reflexivity; discriminate.
Qed.

Lemma started_ring_inv N listing : ring_inv N (started N listing).
Proof.
  split; [apply length_replicate|]. split.
  - intros i w Hw. cbn in Hw. apply lookup_replicate in Hw as [-> _]. contradiction.
  - cbn. rewrite free_slots_replicate by reflexivity. lia.
Qed.

Lemma ring_inv_set_worker N s i w w' c :
  workers s !! i = Some w ->
  (past_done w' -> done_closed c = true) ->
  done_closed c = done_closed (shared s) ->
  objects c = objects (shared s) ->
  ring_inv N s -> ring_inv N (set_shared c (set_worker i w' s)).
Proof.
  intros Hw Hw' Hd Ho (Hlen & Hdone & Hcount).
  unfold ring_inv. cbn. rewrite Ho. split; [exact Hlen|]. split; [|exact Hcount].
  intros j wj Hj Hpast.
  apply list_lookup_insert_Some in Hj as [(-> & <- & _)|[_ Hj]]; [auto|].
  rewrite Hd. eauto.
Qed.

Lemma step_ring_inv N l s s' :
  ring_inv N s -> step N l s = Some s' -> ring_inv N s'.
Proof.
  intros Hinv Hstep. pose proof Hinv as (Hlen & Hdone & Hcount).
  apply step_inv in Hstep as [_ Hshape].
  destruct l as [|i|i answer|i| | |b| |i|i|i]; cbn [step_shape] in Hshape.
  - destruct Hshape as [(c & f & Hf & ->)|(msg & ->)]; [|exact Hinv].
    pose proof (feeder_step_not_sending _ _ _ _ Hf) as Hold.
    pose proof (feeder_step_after_done _ _ _ _ Hf) as [Hd _].
    rewrite Hold in Hcount. unfold ring_inv. cbn. rewrite Hd.
    destruct (feeder_step_sending _ _ _ _ Hf)
      as [(_ & Hs & Hobj)|(Hbp & [(Hs & Hobj)|(Hs & _ & o & Ho & Hfree & Hobj)])];
      rewrite Hs, Hobj.
    + auto.
    + auto.
    + rewrite length_insert. split; [exact Hlen|]. split; [exact Hdone|].
      pose proof (free_slots_insert _ _ _ (set_locks (readLock o) true o) Ho) as Hins.
      rewrite Hfree in Hins. cbn in Hins. lia.
  - destruct Hshape as (w & Hw & Hpc & [(task & f & Hf & ->)|(msg & ->)]); [|exact Hinv].
    apply feeder_send_sending in Hf as (Hs & Hs' & _).
    rewrite Hs in Hcount. unfold ring_inv. cbn. rewrite Hs', length_app. cbn.
    split; [exact Hlen|]. split; [|lia].
    intros j wj Hj Hpast.
    apply list_lookup_insert_Some in Hj as [(-> & <- & _)|[_ Hj]]; [contradiction|eauto].
  - destruct Hshape as (w & task & Hw & Hpc & [(c & w' & Hd & ->)|(msg & ->)]);
      [|exact Hinv].
    pose proof (download_slots _ _ _ _ _ _ Hd) as (_ & o1 & o2 & _ & _ & _ & Hpc').
    apply download_effect in Hd as (o & o' & entries & Ho & -> & _ & Hchange & _).
    unfold ring_inv. cbn. rewrite length_insert. split; [exact Hlen|]. split.
    + intros j wj Hj Hpast.
      apply list_lookup_insert_Some in Hj as [(-> & <- & _)|[_ Hj]]; [|eauto].
      unfold past_done in Hpast.
      destruct Hpc' as [(Hpc' & _)|(Hpc' & _)]; rewrite Hpc' in Hpast; contradiction.
    + pose proof (free_slots_insert _ _ _ o' Ho) as Hins. rewrite Hchange in Hins. lia.
  - destruct Hshape as (w & Hw & Hpc & Hd & ->).
    apply (ring_inv_set_worker N s i w); auto.
  - destruct Hshape as [(c & Hc & ->)|(msg & ->)]; [|exact Hinv].
    pose proof (NextObject_frame _ _ Hc) as [Hd _].
    apply NextObject_slots in Hc as (o & Ho & _ & Hheld & Hobj).
    unfold ring_inv. cbn. rewrite Hobj, Hd, length_insert, length_app.
    unfold NextObject_reads. rewrite Ho. cbn.
    split; [exact Hlen|]. split; [exact Hdone|].
    pose proof (free_slots_insert _ _ _ (set_locks true false o) Ho) as Hins.
    rewrite Hheld in Hins. cbn in Hins. lia.
  - destruct Hshape as [(c & Hc & ->)|(msg & ->)]; [|exact Hinv].
    unfold Close in Hc. destruct (done_closed _); [discriminate|].
    injection Hc as <-. unfold ring_inv. cbn. auto.
  - subst s'. exact Hinv.
  - destruct Hshape as (_ & ->). unfold ring_inv.
    destruct (set_metrics_frame N (MLatencies 0 []) s) as (-> & -> & -> & -> & -> & _).
    exact Hinv.
  - destruct Hshape as (w & k & l & Hw & Hpc & _ & ->). unfold ring_inv.
    match goal with |- context [set_metrics N ?m ?s0] =>
      destruct (set_metrics_frame N m s0) as (-> & -> & -> & -> & -> & _) end.
    apply (ring_inv_set_worker N s i w (set_wpc WReturnFilesDownloaded w) (shared s));
      auto.
    intros _. apply (Hdone i w Hw). unfold past_done. rewrite Hpc. exact I.
  - destruct Hshape as (w & k & l & files & bytes & Hw & Hpc & _ & ->). unfold ring_inv.
    match goal with |- context [set_metrics N ?m ?s0] =>
      destruct (set_metrics_frame N m s0) as (-> & -> & -> & -> & -> & _) end.
    apply (ring_inv_set_worker N s i w (set_wpc WReturnBytesDownloaded w) (shared s));
      auto.
    intros _. apply (Hdone i w Hw). unfold past_done. rewrite Hpc. exact I.
  - destruct Hshape as (w & k & l & files & bytes & Hw & Hpc & _ & ->). unfold ring_inv.
    match goal with |- context [set_metrics N ?m ?s0] =>
      destruct (set_metrics_frame N m s0) as (-> & -> & -> & -> & -> & _) end.
    apply (ring_inv_set_worker N s i w); auto.
    intros _. apply (Hdone i w Hw). unfold past_done. rewrite Hpc. exact I.
Qed.

Lemma reachable_ring_inv N listing s : reachable N listing s -> ring_inv N s.
Proof.
  intros [ls Hrun].
  eapply (exec_invariant N (ring_inv N)); [| |exact Hrun].
  - intros l s1 s2. apply step_ring_inv.
  - apply started_ring_inv.
Qed.

(** X5: the feeder is never more than [N] tasks ahead of the consumer:
    in every state the system comes to, the tasks published are at most
    the [N] slots plus the slots [NextObject] has given back. *)
Theorem feeder_lead_bounded N listing s :
  reachable N listing s ->
  (length (published s) <= N + length (read_names s))%nat.
Proof.
  intros Hreach. destruct (reachable_ring_inv _ _ _ Hreach) as (_ & _ & Hcount). lia.
Qed.

Lemma feeder_lead_bounded_witness :
  (length (published (after 2 [Feeder; Feeder; Handoff 0; Feeder; Handoff 1;
                               Download 0 one_byte_object; CallNextObject;
                               Feeder; Handoff 0] (started 2 abc_listing)))
   <= 2 + length (read_names
                    (after 2 [Feeder; Feeder; Handoff 0; Feeder; Handoff 1;
                              Download 0 one_byte_object; CallNextObject;
                              Feeder; Handoff 0] (started 2 abc_listing))))%nat.
Proof.
  apply (feeder_lead_bounded 2 abc_listing).
  exists [Feeder; Feeder; Handoff 0; Feeder; Handoff 1;
          Download 0 one_byte_object; CallNextObject; Feeder; Handoff 0].
  vm_compute. reflexivity.
Defined.

(** X6: in every state the system comes to, [NextObject] panics neither
    on its slot index nor on its [Unlock] as long as there is a slot: it
    waits while the [readLock] of slot 0 is held and returns otherwise.
    With no slot at all it panics on the index. *)
Theorem NextObject_waits_or_returns N listing s :
  reachable N listing s ->
  (N = 0%nat -> NextObject (shared s) = Panic "index out of range")
  /\ ((0 < N)%nat ->
      exists o, objects (shared s) !! 0%nat = Some o
                /\ (readLock o = true -> NextObject (shared s) = Blocked)
                /\ (readLock o = false -> exists c', NextObject (shared s) = Ok c')).
Proof.
  intros Hreach.
  pose proof (reachable_position_0 _ _ _ Hreach) as Hpos.
  destruct (reachable_ring_inv _ _ _ Hreach) as (Hlen & _).
  destruct (reachable_slot_inv _ _ _ Hreach) as (_ & _ & HC).
  split.
  - intros ->. unfold NextObject, index_slice. rewrite Hpos.
    destruct (objects (shared s)); [reflexivity|discriminate].
  - intros HN.
    destruct (objects (shared s) !! 0%nat) as [o|] eqn:Ho.
    + exists o. split; [reflexivity|]. rewrite <- Hpos in Ho. split.
      * intros Hr. apply (NextObject_blocked _ _ Ho Hr).
      * intros Hr. destruct (HC _ _ Ho) as [Hr'|Hc]; [congruence|].
        rewrite (NextObject_ready _ _ Ho Hr Hc). eauto.
    + apply lookup_ge_None in Ho. lia.
Qed.

Lemma NextObject_waits_or_returns_witness :
  (2%nat = 0%nat -> NextObject (shared (started 2 a_listing)) = Panic "index out of range")
  /\ ((0 < 2)%nat ->
      exists o, objects (shared (started 2 a_listing)) !! 0%nat = Some o
                /\ (readLock o = true -> NextObject (shared (started 2 a_listing)) = Blocked)
                /\ (readLock o = false ->
                    exists c', NextObject (shared (started 2 a_listing)) = Ok c')).
Proof.
  apply (NextObject_waits_or_returns 2 a_listing). exists []. reflexivity.
Defined.

Lemma sent_latencies_past_done w : sent_latencies w -> past_done w.
Proof. unfold sent_latencies, past_done. destruct (wpc w) as [| | | | |[]]; auto. Qed.

(** X7: [Metrics] gets nothing before [Close]: while [done] is open no
    worker has taken the done case, [Metrics] has received no latency list
    and, when there is a worker at all, has returned no report. *)
Theorem Metrics_waits_for_Close N listing s :
  reachable N listing s ->
  done_closed (shared s) = false ->
  (forall i w, workers s !! i = Some w -> ~ past_done w)
  /\ reported s = []
  /\ ((0 < N)%nat -> received_nothing (metrics s) /\ reports s = []).
Proof.
  intros Hreach Hopen.
  destruct (reachable_ring_inv _ _ _ Hreach) as (_ & Hdone & _).
  destruct (reachable_metrics_inv _ _ _ Hreach) as [(_ & Hsent & _ & Hrep) Hok].
  assert (Hnone : reported s = []).
  { destruct (reported s) as [|i r] eqn:Hr; [reflexivity|].
    destruct (Hsent i) as (w & Hw & Hs); [apply elem_of_cons; auto|].
    apply sent_latencies_past_done in Hs. specialize (Hdone _ _ Hw Hs). congruence. }
  split.
  { intros i w Hw Hpast. specialize (Hdone _ _ Hw Hpast). congruence. }
  split; [exact Hnone|]. intros HN. rewrite Hnone in Hok, Hrep. cbn in Hok, Hrep. split.
  - unfold metrics_ok in Hok. unfold received_nothing.
    destruct (metrics s); first [exact I|lia].
  - destruct (reports s) as [|r rs]; [reflexivity|].
    assert (N <= 0)%nat by (apply Hrep; discriminate). lia.
Qed.

Lemma Metrics_waits_for_Close_witness :
  (forall i w,
     workers (after 2 [Feeder; CallMetrics; Feeder; Handoff 0] (started 2 a_listing)) !! i
     = Some w -> ~ past_done w)
  /\ reported (after 2 [Feeder; CallMetrics; Feeder; Handoff 0] (started 2 a_listing)) = []
  /\ ((0 < 2)%nat ->
      received_nothing
        (metrics (after 2 [Feeder; CallMetrics; Feeder; Handoff 0] (started 2 a_listing)))
      /\ reports (after 2 [Feeder; CallMetrics; Feeder; Handoff 0] (started 2 a_listing))
         = []).
Proof.
  apply (Metrics_waits_for_Close 2 a_listing).
  - exists [Feeder; CallMetrics; Feeder; Handoff 0]. vm_compute. reflexivity.
  - vm_compute. reflexivity.
Defined.

(** ** A slot while a worker downloads into it *)

(** X8: while a worker holds a task, its slot has both locks held, the
    feeder's [Lock] for that slot and a [NextObject] at that slot wait, no
    other worker holds a task for the slot, and the feeder is not at a send
    for it. *)
Theorem slot_has_one_holder N listing s i w task :
  reachable N listing s ->
  workers s !! i = Some w ->
  wpc w = WTask task ->
  (exists o, objects (shared s) !! task_bufferPosition task = Some o
             /\ readLock o = true /\ changeObjectLock o = true)
  /\ claim_slot (task_bufferPosition task) (shared s) = Blocked
  /\ (nextObjectBufferPosition (shared s) = task_bufferPosition task ->
      NextObject (shared s) = Blocked)
  /\ (forall j w2 task2,
        workers s !! j = Some w2 -> wpc w2 = WTask task2 ->
        task_bufferPosition task2 = task_bufferPosition task -> j = i)
  /\ ~ (sending (the_feeder s) = true
        /\ bufferPosition (the_feeder s) = task_bufferPosition task).
Proof.
  intros Hreach Hw Hpc.
  destruct (reachable_task_slot_held _ _ _ _ _ _ Hreach Hw Hpc) as (o & Ho & Hr & Hc).
  destruct (reachable_slot_inv _ _ _ Hreach) as (_ & HB & _).
  assert (Hme : holds s (HWorker i) (task_bufferPosition task)) by (cbn; eauto).
  split; [eauto|]. split.
  { unfold claim_slot. rewrite (index_slice_Some _ _ _ Ho). cbn. rewrite Hc. reflexivity. }
  split.
  { intros Hpos. apply (NextObject_blocked _ o); [rewrite Hpos; exact Ho|exact Hr]. }
  split.
  - intros j w2 task2 Hw2 Hpc2 Hpos.
    assert (Hother : holds s (HWorker j) (task_bufferPosition task)) by (cbn; eauto).
    pose proof (HB _ _ _ Hother Hme) as E. congruence.
  - intros Hfeeder.
    assert (Hother : holds s HFeeder (task_bufferPosition task)) by exact Hfeeder.
    pose proof (HB _ _ _ Hother Hme) as E. discriminate.
Qed.

Lemma slot_has_one_holder_witness :
  (exists o, objects (shared holding_task) !! 0%nat = Some o
             /\ readLock o = true /\ changeObjectLock o = true)
  /\ claim_slot 0 (shared holding_task) = Blocked
  /\ (nextObjectBufferPosition (shared holding_task) = 0%nat ->
      NextObject (shared holding_task) = Blocked)
  /\ (forall j w2 task2,
        workers holding_task !! j = Some w2 -> wpc w2 = WTask task2 ->
        task_bufferPosition task2 = 0%nat -> j = 0%nat)
  /\ ~ (sending (the_feeder holding_task) = true
        /\ bufferPosition (the_feeder holding_task) = 0%nat).
Proof.
  apply (slot_has_one_holder 2 a_listing holding_task 0
           {| wpc := WTask example_task; latencies := [];
              filesDownloaded := 0; bytesDownloaded := 0 |} example_task).
  - exists [Feeder; Feeder; Handoff 0]. vm_compute. reflexivity.
  - vm_compute. reflexivity.
  - reflexivity.
Defined.

(** X9: in every state the system comes to, the case body of a worker
    that holds a task can run whatever the store answers, and it panics in
    one case only: a non-empty object, metrics collected, and no byte read
    by the copy.  It panics neither on the slot index nor on [Unlock]. *)
Theorem worker_panics_only_without_first_byte N listing s i w task answer :
  reachable N listing s ->
  panicked s = None ->
  workers s !! i = Some w ->
  wpc w = WTask task ->
  exists s',
    step N (Download i answer) s = Some s'
    /\ (panicked s' ≠ None <->
        exists stats_Size start body,
          answer = Object stats_Size start body
          /\ stats_Size ≠ 0
          /\ CollectMetrics (shared s) = true
          /\ fbr_t (io_Copy {| fbr_t := None; fbr_r := body |}).2 = None).
Proof.
  intros Hreach Hlive Hw Hpc.
  destruct (reachable_task_slot_held _ _ _ _ _ _ Hreach Hw Hpc) as (o & Ho & Hr & _).
  unfold step. rewrite Hlive.
  rewrite bool_decide_eq_false_2 by (intros H; apply H; reflexivity).
  cbn [mbind option_bind]. rewrite Hw. cbn [mbind option_bind]. rewrite Hpc.
  destruct answer as [e|e|stats_Size start body].
  - destruct (download_error_returns task (GetObject_error e) (shared s) w o Ho)
      as (c' & -> & _); [eauto|].
    eexists. split; [reflexivity|]. cbn [panicked set_shared set_worker panic]. rewrite Hlive. split; [congruence|].
    intros (? & ? & ? & ? & _). discriminate.
  - destruct (download_error_returns task (Stat_error e) (shared s) w o Ho)
      as (c' & -> & _); [eauto|].
    eexists. split; [reflexivity|]. cbn [panicked set_shared set_worker panic]. rewrite Hlive. split; [congruence|].
    intros (? & ? & ? & ? & _). discriminate.
  - destruct (decide (stats_Size = 0)) as [->|Hsize].
    + rewrite (download_empty _ _ _ _ _ _ Ho Hr).
      eexists. split; [reflexivity|]. cbn [panicked set_shared set_worker panic]. rewrite Hlive. split; [congruence|].
      intros (? & ? & ? & [= <- _ _] & Hne & _). congruence.
    + destruct (io_Copy {| fbr_t := None; fbr_r := body |}) as [[n err] fbr] eqn:Hcopy.
      rewrite (download_nonempty _ _ _ _ _ _ _ _ _ _ Ho Hr Hsize Hcopy). cbv zeta.
      destruct (CollectMetrics (shared s)) eqn:Hcm; [destruct (fbr_t fbr) as [t|] eqn:Ht|].
      * eexists. split; [reflexivity|]. cbn [panicked set_shared set_worker panic]. rewrite Hlive. split; [congruence|].
        intros (? & ? & ? & [= <- <- <-] & _ & _ & Hnone).
        rewrite Hcopy in Hnone. cbn in Hnone. congruence.
      * eexists. split; [reflexivity|]. cbn [panicked set_shared set_worker panic].
        split; [|discriminate].
        intros _. exists stats_Size, start, body. rewrite Hcopy. auto.
      * eexists. split; [reflexivity|]. cbn [panicked set_shared set_worker panic]. rewrite Hlive. split; [congruence|].
        intros (? & ? & ? & _ & _ & ? & _). discriminate.
Qed.

Lemma worker_panics_only_without_first_byte_witness :
  exists s',
    step 2 (Download 0 (Object 5 0 broken_stream)) holding_task = Some s'
    /\ (panicked s' ≠ None <->
        exists stats_Size start body,
          Object 5 0 broken_stream = Object stats_Size start body
          /\ stats_Size ≠ 0
          /\ CollectMetrics (shared holding_task) = true
          /\ fbr_t (io_Copy {| fbr_t := None; fbr_r := body |}).2 = None).
Proof.
  apply (worker_panics_only_without_first_byte 2 a_listing holding_task 0
           {| wpc := WTask example_task; latencies := [];
              filesDownloaded := 0; bytesDownloaded := 0 |} example_task).
  - exists [Feeder; Feeder; Handoff 0]. vm_compute. reflexivity.
  - reflexivity.
  - vm_compute. reflexivity.
  - reflexivity.
Defined.

(** ** An empty bucket *)

Lemma reachable_feeder_inv N listing s : reachable N listing s -> feeder_inv N listing s.
Proof.
  intros [ls Hrun].
  eapply (exec_invariant N (feeder_inv N listing)); [| |exact Hrun].
  - intros l s1 s2. apply step_feeder_inv.
  - cbn. auto.
Qed.

(** X10: with a bucket that lists no key the feeder never publishes a
    task, and the first time it comes to its [select] with [done] still open
    it panics on [objectNames[index]]. *)
Theorem empty_bucket_panics N listing s :
  reachable N listing s ->
  list_keys listing = Ok [] ->
  published s = []
  /\ (panicked s = None ->
      fpc (the_feeder s) = FSelect ->
      done_closed (shared s) = false ->
      exists s', step N Feeder s = Some s' /\ panicked s' = Some "index out of range").
Proof.
  intros Hreach Hempty. pose proof (reachable_feeder_inv _ _ _ Hreach) as Hinv.
  unfold feeder_inv in Hinv.
  assert (Hnames : fpc (the_feeder s) = FList listing /\ published s = []
                   \/ objectNames (the_feeder s) = []
                      /\ in_order (objectNames (the_feeder s)) N (published s)).
  { destruct (fpc (the_feeder s)); [destruct Hinv as [-> ?]; auto|..];
      destruct Hinv as (Hk & _ & Hin & _); right; (split; [congruence|exact Hin]). }
  split.
  - destruct Hnames as [[_ Hnil]|[Hnames Hin]]; [exact Hnil|].
    destruct (published s) as [|task tasks]; [reflexivity|].
    destruct (Hin 0%nat task eq_refl) as [Hname _]. rewrite Hnames in Hname. discriminate.
  - intros Hlive Hpc Hopen.
    destruct Hnames as [[Hlist _]|[Hnames _]]; [congruence|].
    unfold step. rewrite Hlive.
    rewrite bool_decide_eq_false_2 by (intros H; apply H; reflexivity).
    unfold findDownloadableObjectsBenchmark_step. rewrite Hpc, Hopen, Hnames. cbn.
    eexists. split; reflexivity.
Qed.

Lemma empty_bucket_panics_witness :
  published (after 2 [Feeder; Feeder] (started 2 [])) = []
  /\ (panicked (after 2 [Feeder; Feeder] (started 2 [])) = None ->
      fpc (the_feeder (after 2 [Feeder; Feeder] (started 2 []))) = FSelect ->
      done_closed (shared (after 2 [Feeder; Feeder] (started 2 []))) = false ->
      exists s', step 2 Feeder (after 2 [Feeder; Feeder] (started 2 [])) = Some s'
                 /\ panicked s' = Some "index out of range").
Proof.
  apply (empty_bucket_panics 2 []).
  - exists [Feeder; Feeder]. vm_compute. reflexivity.
  - reflexivity.
Defined.

(** ** What the consumer reads *)

Lemma names_for_snoc pos tasks task :
  names_for pos (tasks ++ [task])
  = names_for pos tasks
    ++ (if decide (task_bufferPosition task = pos) then [task_name task] else []).
Proof.
  unfold names_for. rewrite filter_app, fmap_app. f_equal.
  rewrite filter_cons, filter_nil. case_decide; reflexivity.
Qed.

Lemma delivery_inv_frame s s' :
  objects (shared s') !! 0%nat = objects (shared s) !! 0%nat ->
  published s' = published s ->
  read_names s' = read_names s ->
  (holds s' HFeeder 0 -> holds s HFeeder 0) ->
  (forall i w task, workers s' !! i = Some w -> wpc w = WTask task ->
     exists w0, workers s !! i = Some w0 /\ wpc w0 = WTask task) ->
  delivery_inv s -> delivery_inv s'.
Proof.
  unfold delivery_inv. intros -> -> -> Hf Hw (Ha & Hb & Hc & Hd & He).
  split; [exact Ha|]. split; [auto|]. split; [|auto].
  intros i w task Hi Hpc Hpos. destruct (Hw _ _ _ Hi Hpc) as (w0 & Hi0 & Hpc0). eauto.
Qed.

Lemma set_worker_tasks s i w' j w task :
  no_task w' ->
  workers (set_worker i w' s) !! j = Some w -> wpc w = WTask task ->
  exists w0, workers s !! j = Some w0 /\ wpc w0 = WTask task.
Proof.
  intros Hw' Hj Hpc. cbn in Hj.
  apply list_lookup_insert_Some in Hj as [(-> & <- & _)|[_ Hj]]; [|eauto].
  unfold no_task in Hw'. rewrite Hpc in Hw'. contradiction.
Qed.

Lemma delivery_inv_set_metrics N m s : delivery_inv s -> delivery_inv (set_metrics N m s).
Proof.
  destruct (set_metrics_frame N m s) as (Hc & Hf & Hw & Hp & Hr & _).
  apply delivery_inv_frame; [rewrite Hc; reflexivity|exact Hp|exact Hr| |].
  - unfold holds. rewrite Hf. auto.
  - rewrite Hw. eauto.
Qed.

Lemma delivery_inv_set_worker s i w' c :
  no_task w' ->
  objects c = objects (shared s) ->
  delivery_inv s -> delivery_inv (set_shared c (set_worker i w' s)).
Proof.
  intros Hw' Ho. apply delivery_inv_frame; cbn; [rewrite Ho; reflexivity|auto..|].
  intros j w task. apply (set_worker_tasks s i w' j w task Hw').
Qed.

Lemma step_delivery_inv N l s s' :
  slot_inv s ->
  nextObjectBufferPosition (shared s) = 0%nat ->
  delivery_inv s -> step N l s = Some s' -> delivery_inv s'.
Proof.
  intros (HA & HB & HC) Hpos Hinv Hstep. apply step_inv in Hstep as [_ Hshape].
  destruct l as [|i|i answer|i| | |b| |i|i|i]; cbn [step_shape] in Hshape.
  - destruct Hshape as [(c & f & Hf & ->)|(msg & ->)]; [|exact Hinv].
    destruct (feeder_step_sending _ _ _ _ Hf)
      as [(_ & Hs & Ho)|(Hbp & [(Hs & Ho)|(Hs & Hs0 & o & Ho & Hfree & Hobj)])].
    + revert Hinv. apply delivery_inv_frame; cbn; [rewrite Ho; reflexivity|auto..| |eauto].
      intros [? _]. congruence.
    + revert Hinv. apply delivery_inv_frame; cbn; [rewrite Ho; reflexivity|auto..| |eauto].
      intros [? _]. congruence.
    + destruct Hinv as (Ha & Hb & Hc & Hd & He).
      unfold delivery_inv. cbn [shared set_shared set_feeder published read_names workers].
      rewrite Hobj. split; [|split; [|split; [|split]]].
      * intros o0 Ho0 Hch.
        apply list_lookup_insert_Some in Ho0 as [(_ & <- & _)|[_ Ho0]]; [discriminate|eauto].
      * intros [_ Hb0]. cbn in Hb0. apply (Ha o); [|exact Hfree]. congruence.
      * exact Hc.
      * intros o0 Ho0 Hr.
        apply list_lookup_insert_Some in Ho0 as [(_ & <- & _)|[_ Ho0]]; [|eauto].
        cbn in Hr. destruct (HC _ _ Ho); congruence.
      * exact He.
  - destruct Hshape as (w & Hw & Hsel & [(task & f & Hf & ->)|(msg & ->)]); [|exact Hinv].
    apply feeder_send_sending in Hf as (Hs & Hs' & Htask).
    destruct Hinv as (Ha & Hb & Hc & Hd & He).
    assert (Hfeeder : holds s HFeeder (task_bufferPosition task)).
    { split; [exact Hs|]. congruence. }
    unfold delivery_inv.
    cbn [shared publish set_worker set_feeder published read_names workers].
    rewrite names_for_snoc. case_decide as Hzero.
    + rewrite Hzero in Hfeeder.
      destruct (HA _ _ Hfeeder) as (o & Ho & Hr & Hch).
      rewrite (Hb Hfeeder).
      split; [|split; [|split; [|split]]].
      * intros o0 Ho0 Hch0. congruence.
      * intros [Hsend _]. cbn in Hsend. congruence.
      * intros j w0 task0 Hj Hpc0 Hpos0.
        apply list_lookup_insert_Some in Hj as [(-> & <- & _)|[Hne Hj]].
        -- cbn in Hpc0. injection Hpc0 as <-. reflexivity.
        -- exfalso. assert (Hj' : holds s (HWorker j) 0) by (cbn; eauto).
           specialize (HB _ _ _ Hj' Hfeeder). discriminate.
      * intros o0 Ho0 Hr0. congruence.
      * eauto.
    + rewrite app_nil_r. split; [|split; [|split; [|split]]].
      * exact Ha.
      * intros [Hsend _]. cbn in Hsend. congruence.
      * intros j w0 task0 Hj Hpc0 Hpos0.
        apply list_lookup_insert_Some in Hj as [(-> & <- & _)|[Hne Hj]]; [|eauto].
        cbn in Hpc0. injection Hpc0 as <-. contradiction.
      * exact Hd.
      * exact He.
  - destruct Hshape as (w & task & Hw & Hpc & [(c & w' & Hd & ->)|(msg & ->)]);
      [|exact Hinv].
    pose proof (download_slots _ _ _ _ _ _ Hd) as (Hw' & _).
    apply download_effect in Hd as (o & o' & entries & Ho & -> & Hname & Hch & _).
    assert (Hme : holds s (HWorker i) (task_bufferPosition task)) by (cbn; eauto).
    destruct (decide (task_bufferPosition task = 0%nat)) as [Hzero|Hzero].
    + destruct Hinv as (Ha & Hb & Hc & Hd0 & He).
      rewrite Hzero in Hme, Ho.
      destruct (HA _ _ Hme) as (o0 & Ho0 & Hr0 & Hch0).
      assert (o0 = o) as -> by congruence.
      unfold delivery_inv. cbn [shared set_shared set_worker published read_names workers objects].
      rewrite Hzero, (lookup_insert_same _ _ _ _ Ho), (Hc _ _ _ Hw Hpc Hzero).
      split; [|split; [|split; [|split]]].
      * intros o1 [= <-] Hch1. congruence.
      * intros Hh. assert (Hh' : holds s HFeeder 0) by exact Hh.
        specialize (HB _ _ _ Hh' Hme). discriminate.
      * intros j w0 task0 Hj Hpc0 Hpos0.
        apply list_lookup_insert_Some in Hj as [(-> & <- & _)|[Hne Hj]].
        -- unfold no_task in Hw'. rewrite Hpc0 in Hw'. contradiction.
        -- exfalso. assert (Hj' : holds s (HWorker j) 0) by (cbn; eauto).
           specialize (HB _ _ _ Hj' Hme). congruence.
      * intros o1 [= <-] Hr1. rewrite Hname. reflexivity.
      * eauto.
    + revert Hinv. apply delivery_inv_frame; cbn; [|auto..|].
      * rewrite list_lookup_insert_ne by exact Hzero. reflexivity.
      * intros j w0 task0. apply (set_worker_tasks s i w' j w0 task0 Hw').
  - destruct Hshape as (w & Hw & Hpc & _ & ->).
    apply delivery_inv_set_worker; [exact I|reflexivity|exact Hinv].
  - destruct Hshape as [(c & Hc & ->)|(msg & ->)]; [|exact Hinv].
    apply NextObject_slots in Hc as (o & Ho & Hr & Hch & Hobj).
    rewrite Hpos in Ho, Hobj.
    destruct Hinv as (Ha & Hb & Hc & Hd & He).
    assert (Hread : read_names (set_shared c (record_read (NextObject_reads (shared s)) s))
                    = names_for 0 (published s)).
    { cbn. unfold NextObject_reads. rewrite Hpos, Ho. cbn. symmetry. apply (Hd _ Ho Hr). }
    unfold delivery_inv. rewrite Hread.
    cbn [shared set_shared record_read published workers].
    split; [|split; [|split; [|split]]].
    + reflexivity.
    + reflexivity.
    + intros j w0 task0 Hj Hpc0 Hpos0. exfalso.
      assert (Hj' : holds s (HWorker j) 0) by (cbn; eauto).
      destruct (HA _ _ Hj') as (o0 & Ho0 & Hr0 & _). congruence.
    + intros o1 Ho1 Hr1. rewrite Hobj, (lookup_insert_same _ _ _ _ Ho) in Ho1.
      injection Ho1 as <-. discriminate.
    + left. reflexivity.
  - destruct Hshape as [(c & Hc & ->)|(msg & ->)]; [|exact Hinv].
    unfold Close in Hc. destruct (done_closed _); [discriminate|].
    injection Hc as <-. revert Hinv. apply delivery_inv_frame; cbn; eauto.
  - subst s'. revert Hinv. apply delivery_inv_frame; cbn; eauto.
  - destruct Hshape as (_ & ->). apply delivery_inv_set_metrics, Hinv.
  - destruct Hshape as (w & k & l & Hw & Hpc & _ & ->).
    apply delivery_inv_set_metrics.
    apply (delivery_inv_frame (set_worker i (set_wpc WReturnFilesDownloaded w) s));
      [reflexivity..|auto|eauto|].
    apply (delivery_inv_set_worker s i _ (shared s)); [exact I|reflexivity|exact Hinv].
  - destruct Hshape as (w & k & l & files & bytes & Hw & Hpc & _ & ->).
    apply delivery_inv_set_metrics.
    apply (delivery_inv_set_worker s i _ (shared s)); [exact I|reflexivity|exact Hinv].
  - destruct Hshape as (w & k & l & files & bytes & Hw & Hpc & _ & ->).
    apply delivery_inv_set_metrics.
    apply delivery_inv_set_worker; [exact I|reflexivity|exact Hinv].
Qed.

Lemma started_delivery_inv N listing : delivery_inv (started N listing).
Proof.
  unfold delivery_inv. cbn. split; [|split; [|split; [|split]]]; auto.
  - intros i w task Hw Hpc. apply lookup_replicate in Hw as [-> _]. discriminate.
  - intros o Ho Hr. destruct N; [discriminate|]. cbn in Ho. injection Ho as <-. discriminate.
Qed.

Lemma reachable_delivery_inv N listing s : reachable N listing s -> delivery_inv s.
Proof.
  intros [ls Hrun].
  apply (exec_invariant N
           (fun x => slot_inv x /\ nextObjectBufferPosition (shared x) = 0%nat
                     /\ delivery_inv x) ) in Hrun as (_ & _ & Hinv); [exact Hinv| |].
  - intros l s1 s2 (Hslot & Hpos & Hinv) Hstep. split; [|split].
    + apply (step_slot_inv _ _ _ _ Hslot Hstep).
    + rewrite (step_position _ _ _ _ Hstep). exact Hpos.
    + apply (step_delivery_inv _ _ _ _ Hslot Hpos Hinv Hstep).
  - split; [apply started_slot_inv|]. split; [reflexivity|apply started_delivery_inv].
Qed.

(** X11: [NextObject] reads the keys the feeder assigned to slot 0, in
    the order assigned, none twice and none left out: in every state the
    system comes to, the names read are the names published for slot 0, but
    for at most one that is published and not yet read. *)
Theorem NextObject_reads_slot_0_in_order N listing s :
  reachable N listing s ->
  exists rest,
    names_for 0 (published s) = read_names s ++ rest /\ (length rest <= 1)%nat.
Proof.
  intros Hreach. destruct (reachable_delivery_inv _ _ _ Hreach) as (_ & _ & _ & _ & [He|[x He]]).
  - exists []. rewrite app_nil_r. split; [exact He|cbn; lia].
  - exists [x]. split; [exact He|cbn; lia].
Qed.

Lemma NextObject_reads_slot_0_in_order_witness :
  exists rest,
    names_for 0 (published (after 2 [Feeder; Feeder; Handoff 0; Feeder; Handoff 1;
                                     Download 0 one_byte_object; CallNextObject;
                                     Feeder; Handoff 0] (started 2 abc_listing)))
    = read_names (after 2 [Feeder; Feeder; Handoff 0; Feeder; Handoff 1;
                           Download 0 one_byte_object; CallNextObject;
                           Feeder; Handoff 0] (started 2 abc_listing)) ++ rest
    /\ (length rest <= 1)%nat.
Proof.
  apply (NextObject_reads_slot_0_in_order 2 abc_listing).
  exists [Feeder; Feeder; Handoff 0; Feeder; Handoff 1;
          Download 0 one_byte_object; CallNextObject; Feeder; Handoff 0].
  vm_compute. reflexivity.
Defined.

(** The tasks of a round-robin order that go to slot 0 are every [N]th
    one. *)
Lemma in_order_slot_0 names N tasks :
  (0 < N)%nat ->
  in_order names N tasks ->
  (length tasks <= length (names_for 0 tasks) * N < length tasks + N)%nat
  /\ forall j name, names_for 0 tasks !! j = Some name ->
       names !! ((j * N) mod length names)%nat = Some name.
Proof.
  intros HN. induction tasks as [|task tasks IH] using rev_ind; intros Hord.
  - cbn. split; [lia|]. intros j name Hj. discriminate.
  - assert (Hprefix : in_order names N tasks).
    { intros j t Hj. apply Hord. rewrite lookup_app_l; [exact Hj|].
      apply lookup_lt_Some in Hj. exact Hj. }
    destruct (IH Hprefix) as (Hcount & Hnames).
    destruct (Hord (length tasks) task) as (Hname & Hpos).
    { rewrite lookup_app_r by lia. rewrite Nat.sub_diag. reflexivity. }
    rewrite names_for_snoc, length_app. rewrite Hpos.
    pose proof (Nat.div_mod_eq (length tasks) N) as Hdiv.
    case_decide as Hzero.
    + assert (Heq : (length (names_for 0 tasks) * N = length tasks)%nat).
      { rewrite Hzero in Hdiv.
        destruct (Nat.lt_trichotomy (length (names_for 0 tasks)) (length tasks / N))
          as [Hlt|[Heq|Hgt]].
        - assert (((length (names_for 0 tasks) + 1) * N <= (length tasks / N) * N)%nat)
            by (apply Nat.mul_le_mono_r; lia).
          lia.
        - rewrite Heq. lia.
        - assert (((length tasks / N + 1) * N <= length (names_for 0 tasks) * N)%nat)
            by (apply Nat.mul_le_mono_r; lia).
          lia. }
      split; [rewrite length_app; cbn; nia|].
      intros j name Hj. apply lookup_app_Some in Hj as [Hj|[Hge Hj]]; [eauto|].
      destruct (j - length (names_for 0 tasks))%nat as [|d] eqn:Hd; [|discriminate].
      injection Hj as <-.
      assert (j = length (names_for 0 tasks)) as -> by lia.
      rewrite Heq. exact Hname.
    + rewrite app_nil_r. split; [|exact Hnames]. cbn.
      assert (Hne : (length (names_for 0 tasks) * N <> length tasks)%nat).
      { intros Heq. apply Hzero. rewrite <- Heq. apply Nat.Div0.mod_mul. }
      lia.
Qed.

(** X12: with [N] slots the calls of [NextObject] return every [N]th key
    of the round-robin order: call [j] (counted from 0) returns key
    [(j * N) mod K] of the [K] keys listed.  With one slot these are the
    keys in the order listed, again and again; with more slots the keys
    assigned to the other slots are never returned. *)
Theorem NextObject_returns_every_Nth_key N listing s j name :
  reachable N listing s ->
  (0 < N)%nat ->
  read_names s !! j = Some name ->
  exists names,
    list_keys listing = Ok names
    /\ names !! ((j * N) mod length names)%nat = Some name.
Proof.
  intros Hreach HN Hj.
  destruct (reachable_delivery_inv _ _ _ Hreach) as (_ & _ & _ & _ & He).
  assert (Hpub : names_for 0 (published s) !! j = Some name).
  { destruct He as [->|[x ->]]; [exact Hj|]. apply lookup_app_l_Some. exact Hj. }
  pose proof (reachable_feeder_inv _ _ _ Hreach) as Hf. unfold feeder_inv in Hf.
  assert (Hord : fpc (the_feeder s) = FList listing /\ published s = []
                 \/ list_keys listing = Ok (objectNames (the_feeder s))
                    /\ in_order (objectNames (the_feeder s)) N (published s)).
  { destruct (fpc (the_feeder s)); [left; destruct Hf as [-> ->]; auto|..];
      right; destruct Hf as (Hk & _ & Hord & _); auto. }
  destruct Hord as [[_ Hnil]|[Hk Hord]].
  - rewrite Hnil in Hpub. discriminate.
  - exists (objectNames (the_feeder s)). split; [exact Hk|].
    apply (in_order_slot_0 _ _ _ HN Hord). exact Hpub.
Qed.

Lemma NextObject_returns_every_Nth_key_witness :
  exists names,
    list_keys abc_listing = Ok names
    /\ names !! ((1 * 2) mod length names)%nat = Some "c".
Proof.
  apply (NextObject_returns_every_Nth_key 2 abc_listing
           (after 2 [Feeder; Feeder; Handoff 0; Feeder; Handoff 1;
                     Download 0 one_byte_object; Download 1 one_byte_object;
                     CallNextObject;
                     Feeder; Handoff 0; Download 0 one_byte_object;
                     CallNextObject] (started 2 abc_listing)) 1 "c").
  - exists [Feeder; Feeder; Handoff 0; Feeder; Handoff 1;
            Download 0 one_byte_object; Download 1 one_byte_object;
            CallNextObject;
            Feeder; Handoff 0; Download 0 one_byte_object;
            CallNextObject].
    vm_compute. reflexivity.
  - lia.
  - vm_compute. reflexivity.
Defined.

(** ** What [Metrics] returns *)

Lemma int64_add_l a b : int64 (int64 a + b) = int64 (a + b).
Proof.
  unfold int64. f_equal.
  replace ((a + 2 ^ 63) mod 2 ^ 64 - 2 ^ 63 + b + 2 ^ 63)
    with ((a + 2 ^ 63) mod 2 ^ 64 + b) by lia.
  rewrite Zplus_mod_idemp_l. f_equal. lia.
Qed.

Lemma uint64_add_l a b : uint64 (uint64 a + b) = uint64 (a + b).
Proof. unfold uint64. apply Zplus_mod_idemp_l. Qed.

Lemma count_workers_insert p ws i w w' :
  ws !! i = Some w ->
  (count_workers p (<[i := w']> ws) + (if p w then 1 else 0)
   = count_workers p ws + (if p w' then 1 else 0))%nat.
Proof.
  revert i. induction ws as [|w0 ws IH]; intros [|i] Hi; try discriminate.
  - injection Hi as ->. cbn. lia.
  - change (<[S i := w']> (w0 :: ws)) with (w0 :: <[i := w']> ws).
    cbn [count_workers]. specialize (IH i Hi). lia.
Qed.

Lemma total_of_insert p f ws i w w' :
  ws !! i = Some w ->
  total_of p f (<[i := w']> ws) + (if p w then f w else 0)
  = total_of p f ws + (if p w' then f w' else 0).
Proof.
  revert i. induction ws as [|w0 ws IH]; intros [|i] Hi; try discriminate.
  - injection Hi as ->. cbn. lia.
  - change (<[S i := w']> (w0 :: ws)) with (w0 :: <[i := w']> ws).
    cbn [total_of]. specialize (IH i Hi). lia.
Qed.

Lemma count_workers_le p ws : (count_workers p ws <= length ws)%nat.
Proof. induction ws as [|w ws IH]; cbn; [lia|]. destruct (p w); lia. Qed.

Lemma count_workers_lt p ws i w :
  ws !! i = Some w -> p w = false -> (count_workers p ws < length ws)%nat.
Proof.
  revert i. induction ws as [|w0 ws IH]; intros [|i] Hi Hp; try discriminate.
  - injection Hi as ->. cbn. rewrite Hp. pose proof (count_workers_le p ws). lia.
  - cbn. specialize (IH i Hi Hp). destruct (p w0); lia.
Qed.

Lemma total_of_none p f ws :
  count_workers p ws = 0%nat -> total_of p f ws = 0.
Proof.
  induction ws as [|w ws IH]; cbn; [reflexivity|].
  destruct (p w); [discriminate|]. intros H. rewrite IH by exact H. reflexivity.
Qed.

Lemma total_of_all p f ws :
  count_workers p ws = length ws -> total_of p f ws = total_of everyone f ws.
Proof.
  induction ws as [|w ws IH]; cbn; [reflexivity|].
  pose proof (count_workers_le p ws).
  destruct (p w); [|lia]. intros H0. rewrite IH by lia. reflexivity.
Qed.

Lemma count_workers_or ws :
  count_workers files_sent ws
  = (count_workers exited ws + count_workers at_bytes ws)%nat.
Proof.
  induction ws as [|w ws IH]; cbn; [reflexivity|]. rewrite IH.
  unfold files_sent, exited, at_bytes. destruct (wpc w) as [| | | | |[]]; cbn; lia.
Qed.

Lemma count_workers_files_sent ws :
  count_workers exited ws = length ws -> count_workers files_sent ws = length ws.
Proof.
  intros H. pose proof (count_workers_or ws). pose proof (count_workers_le files_sent ws). lia.
Qed.

Lemma count_workers_all p ws i w :
  count_workers p ws = length ws -> ws !! i = Some w -> p w = true.
Proof.
  intros Hall Hi. destruct (p w) eqn:Hp; [reflexivity|].
  pose proof (count_workers_lt p ws i w Hi Hp). lia.
Qed.

Lemma count_workers_move p ws i w w' (b b' : bool) :
  ws !! i = Some w -> p w = b -> p w' = b' ->
  (count_workers p (<[i := w']> ws) + (if b then 1 else 0)
   = count_workers p ws + (if b' then 1 else 0))%nat.
Proof. intros Hw <- <-. apply count_workers_insert, Hw. Qed.

Lemma total_of_move p f ws i w w' (b b' : bool) :
  ws !! i = Some w -> p w = b -> p w' = b' ->
  total_of p f (<[i := w']> ws) + (if b then f w else 0)
  = total_of p f ws + (if b' then f w' else 0).
Proof. intros Hw <- <-. apply total_of_insert, Hw. Qed.

(** A worker that changes between places before its last two sends
    changes nothing of what [Metrics] counts. *)
Lemma report_inv_worker N s s' i w w' :
  workers s !! i = Some w ->
  workers s' = <[i := w']> (workers s) ->
  metrics s' = metrics s ->
  reports s' = reports s ->
  files_sent w = false -> files_sent w' = false ->
  report_inv N s -> report_inv N s'.
Proof.
  intros Hw Hws Hm Hr Hp Hp' (Hlen & Hex & Hat & Hsums & Hrep).
  assert (Hpe : exited w = false /\ at_bytes w = false /\ exited w' = false
                /\ at_bytes w' = false).
  { unfold files_sent in Hp, Hp'.
    destruct (exited w), (at_bytes w), (exited w'), (at_bytes w'); try discriminate; auto. }
  destruct Hpe as (He & Ha & He' & Ha').
  pose proof (count_workers_insert exited _ _ _ w' Hw) as Hc1.
  pose proof (count_workers_insert at_bytes _ _ _ w' Hw) as Hc2.
  pose proof (total_of_insert files_sent filesDownloaded _ _ _ w' Hw) as Ht1.
  pose proof (total_of_insert exited bytesDownloaded _ _ _ w' Hw) as Ht2.
  rewrite He, He' in Hc1, Ht2. rewrite Ha, Ha' in Hc2. rewrite Hp, Hp' in Ht1.
  assert (Hsame : forall files bytes, sums_ok files bytes (workers s) ->
                                      sums_ok files bytes (workers s')).
  { unfold sums_ok. rewrite Hws. intros files bytes [-> ->]. split; f_equal; lia. }
  unfold report_inv. rewrite Hm, Hr, Hws, length_insert.
  split; [exact Hlen|]. split; [lia|]. split; [lia|]. rewrite <- Hws.
  split; [destruct (metrics s); auto|]. intros r Hin. apply Hsame, Hrep, Hin.
Qed.

Lemma report_inv_frame N s s' :
  workers s' = workers s ->
  metrics s' = metrics s ->
  reports s' = reports s ->
  report_inv N s -> report_inv N s'.
Proof. unfold report_inv. intros -> -> ->. auto. Qed.

(** No report while some worker has not returned through the done case. *)
Lemma report_inv_no_report N s i w :
  report_inv N s -> workers s !! i = Some w -> exited w = false -> reports s = [].
Proof.
  intros (Hlen & Hex & _) Hw He.
  pose proof (count_workers_lt exited _ _ _ Hw He) as Hlt.
  destruct (reports s) as [|r rs]; [reflexivity|]. cbn [length] in Hex. exfalso. nia.
Qed.

Lemma step_report_inv N l s s' :
  report_inv N s -> step N l s = Some s' -> report_inv N s'.
Proof.
  intros Hinv Hstep. apply step_inv in Hstep as [_ Hshape].
  destruct l as [|i|i answer|i| | |b| |i|i|i]; cbn [step_shape] in Hshape.
  - destruct Hshape as [(c & f & Hf & ->)|(msg & ->)];
      revert Hinv; apply report_inv_frame; reflexivity.
  - destruct Hshape as (w & Hw & Hsel & [(task & f & Hf & ->)|(msg & ->)]); [|exact Hinv].
    revert Hinv.
    apply (report_inv_worker N s _ i w (set_wpc (WTask task) w) Hw); try reflexivity.
    unfold files_sent, exited, at_bytes. rewrite Hsel. reflexivity.
  - destruct Hshape as (w & task & Hw & Hpc & [(c & w' & Hd & ->)|(msg & ->)]);
      [|exact Hinv].
    apply download_slots in Hd as (_ & o & o' & _ & _ & _ & Hpc').
    revert Hinv. apply (report_inv_worker N s _ i w w' Hw); try reflexivity.
    + unfold files_sent, exited, at_bytes. rewrite Hpc. reflexivity.
    + unfold files_sent, exited, at_bytes.
      destruct Hpc' as [(-> & _)|(-> & _)]; reflexivity.
  - destruct Hshape as (w & Hw & Hpc & _ & ->).
    revert Hinv.
    apply (report_inv_worker N s _ i w (set_wpc WReturnLatencies w) Hw); try reflexivity.
    unfold files_sent, exited, at_bytes. rewrite Hpc. reflexivity.
  - destruct Hshape as [(c & Hc & ->)|(msg & ->)];
      revert Hinv; apply report_inv_frame; reflexivity.
  - destruct Hshape as [(c & Hc & ->)|(msg & ->)];
      revert Hinv; apply report_inv_frame; reflexivity.
  - subst s'. revert Hinv. apply report_inv_frame; reflexivity.
  - destruct Hshape as (Hm & ->).
    destruct Hinv as (Hlen & Hex & Hat & Hsums & Hrep). rewrite Hm in Hex, Hat.
    unfold report_inv, set_metrics, Metrics_advance.
    case_bool_decide as HN; [case_bool_decide as H0; [|congruence]|];
      cbn [workers metrics reports rounds option_list].
    + split; [exact Hlen|]. rewrite length_app. cbn [length].
      split; [rewrite <- HN; cbn in Hex |- *; lia|]. split; [exact Hat|].
      split; [exact I|].
      intros r Hin. apply elem_of_app in Hin as [Hin|Hin]; [apply Hrep, Hin|].
      apply list_elem_of_singleton in Hin as ->. cbn.
      destruct (workers s); [|subst N; discriminate]. split; reflexivity.
    + rewrite app_nil_r. auto.
  - destruct Hshape as (w & k & l & Hw & Hpc & Hm & ->).
    assert (Hnot : files_sent w = false).
    { unfold files_sent, exited, at_bytes. rewrite Hpc. reflexivity. }
    assert (Hinv1 : report_inv N (record_reported i
                                   (set_worker i (set_wpc WReturnFilesDownloaded w) s))).
    { revert Hinv.
      apply (report_inv_worker N s _ i w (set_wpc WReturnFilesDownloaded w) Hw);
        try reflexivity. exact Hnot. }
    assert (Hnone : reports s = []).
    { apply (report_inv_no_report N s i w Hinv Hw).
      unfold exited. rewrite Hpc. reflexivity. }
    destruct Hinv1 as (Hlen & Hex & Hat & Hsums & Hrep).
    cbn [workers metrics reports record_reported set_worker] in Hlen, Hex, Hat, Hrep.
    rewrite Hm in Hex, Hat. rewrite Hnone in Hex, Hrep.
    unfold report_inv, set_metrics, Metrics_advance.
    case_bool_decide as HN; [case_bool_decide as H0; [lia|]|];
      cbn [workers metrics reports rounds option_list record_reported set_worker];
      rewrite Hnone, ?app_nil_r.
    + split; [exact Hlen|]. split; [exact Hex|]. split; [exact Hat|].
      split; [|exact Hrep]. unfold sums_ok.
      rewrite !total_of_none; [split; reflexivity|cbn in Hex; lia|].
      rewrite count_workers_or. cbn in Hex. lia.
    + auto.
  - destruct Hshape as (w & k & l & files & bytes & Hw & Hpc & Hm & ->).
    assert (Hnone : reports s = []).
    { apply (report_inv_no_report N s i w Hinv Hw).
      unfold exited. rewrite Hpc. reflexivity. }
    destruct Hinv as (Hlen & Hex & Hat & Hsums & Hrep).
    rewrite Hm in Hex, Hat, Hsums. destruct Hsums as [Hfiles Hbytes].
    rewrite Hnone in Hex. cbn [rounds length] in Hex.
    assert (Hc1 := count_workers_move exited _ i w (set_wpc WReturnBytesDownloaded w)
                     false false Hw
                     ltac:(unfold exited; rewrite Hpc; reflexivity) eq_refl).
    assert (Hc2 := count_workers_move at_bytes _ i w (set_wpc WReturnBytesDownloaded w)
                     false true Hw
                     ltac:(unfold at_bytes; rewrite Hpc; reflexivity) eq_refl).
    assert (Ht1 := total_of_move files_sent filesDownloaded _ i w
                     (set_wpc WReturnBytesDownloaded w) false true Hw
                     ltac:(unfold files_sent, exited, at_bytes; rewrite Hpc; reflexivity)
                     eq_refl).
    assert (Ht2 := total_of_move exited bytesDownloaded _ i w
                     (set_wpc WReturnBytesDownloaded w) false false Hw
                     ltac:(unfold exited; rewrite Hpc; reflexivity) eq_refl).
    cbn [set_wpc filesDownloaded bytesDownloaded] in Hc1, Hc2, Ht1, Ht2.
    unfold report_inv, set_metrics, Metrics_advance.
    cbn [workers metrics reports rounds option_list set_worker].
    rewrite Hnone, length_insert.
    change (@option_list MinioMetrics None) with (@nil MinioMetrics).
    cbn [app length].
    split; [exact Hlen|]. split; [lia|]. split; [lia|].
    split; [|intros r Hin; inversion Hin].
    unfold sums_ok. split.
    + rewrite Hfiles, int64_add_l. f_equal. lia.
    + rewrite Hbytes. f_equal. lia.
  - destruct Hshape as (w & k & l & files & bytes & Hw & Hpc & Hm & ->).
    assert (Hnone : reports s = []).
    { apply (report_inv_no_report N s i w Hinv Hw).
      unfold exited. rewrite Hpc. reflexivity. }
    destruct Hinv as (Hlen & Hex & Hat & Hsums & Hrep).
    rewrite Hm in Hex, Hat, Hsums. destruct Hsums as [Hfiles Hbytes].
    rewrite Hnone in Hex. cbn [rounds length] in Hex.
    assert (Hc1 := count_workers_move exited _ i w (set_wpc (WExited true) w)
                     false true Hw
                     ltac:(unfold exited; rewrite Hpc; reflexivity) eq_refl).
    assert (Hc2 := count_workers_move at_bytes _ i w (set_wpc (WExited true) w)
                     true false Hw
                     ltac:(unfold at_bytes; rewrite Hpc; reflexivity) eq_refl).
    assert (Ht1 := total_of_move files_sent filesDownloaded _ i w
                     (set_wpc (WExited true) w) true true Hw
                     ltac:(unfold files_sent, exited, at_bytes; rewrite Hpc; reflexivity)
                     eq_refl).
    assert (Ht2 := total_of_move exited bytesDownloaded _ i w
                     (set_wpc (WExited true) w) false true Hw
                     ltac:(unfold exited; rewrite Hpc; reflexivity) eq_refl).
    cbn [set_wpc filesDownloaded bytesDownloaded] in Hc1, Hc2, Ht1, Ht2.
    assert (Hsums : sums_ok files (uint64 (bytes + bytesDownloaded w))
                      (<[i := set_wpc (WExited true) w]> (workers s))).
    { unfold sums_ok. split.
      - rewrite Hfiles. f_equal. lia.
      - rewrite Hbytes, uint64_add_l. f_equal. lia. }
    unfold report_inv, set_metrics, Metrics_advance.
    case_bool_decide as HN;
      cbn [workers metrics reports rounds option_list option_rect set_worker set_shared];
      rewrite Hnone, length_insert; cbn [app length].
    + split; [exact Hlen|].
      split; [lia|]. split; [lia|]. split; [exact I|].
      intros r Hin. apply list_elem_of_singleton in Hin as ->. exact Hsums.
    + split; [exact Hlen|]. split; [lia|].
      split; [lia|]. split; [exact Hsums|]. intros r Hin. inversion Hin.
Qed.

Lemma count_workers_replicate p n w :
  p w = false -> count_workers p (replicate n w) = 0%nat.
Proof. intros Hp. induction n as [|n IH]; cbn; [reflexivity|]. rewrite Hp, IH. reflexivity. Qed.

Lemma started_report_inv N listing : report_inv N (started N listing).
Proof.
  unfold report_inv. cbn.
  rewrite length_replicate, !count_workers_replicate by reflexivity.
  split; [reflexivity|]. split; [lia|]. split; [reflexivity|]. split; [exact I|].
  intros r Hin. inversion Hin.
Qed.

Lemma reachable_report_inv N listing s : reachable N listing s -> report_inv N s.
Proof.
  intros [ls Hrun].
  eapply (exec_invariant N (report_inv N)); [| |exact Hrun].
  - intros l s1 s2. apply step_report_inv.
  - apply started_report_inv.
Qed.

(** Once a report was returned every worker has returned through the
    done case. *)
Lemma report_inv_all_exited N s :
  report_inv N s -> reports s ≠ [] ->
  count_workers exited (workers s) = length (workers s).
Proof.
  intros (Hlen & Hex & _) Hne.
  pose proof (count_workers_le exited (workers s)) as Hle.
  destruct (reports s) as [|r rs]; [contradiction|]. cbn [length] in Hex. nia.
Qed.

(** X13: [Metrics] returns at most once, and not before every worker has
    returned through the done case: with at least one worker, no state the
    system comes to has more than one report, and in a state with a report
    every worker has made its three sends and returned. *)
Theorem Metrics_returns_once N listing s :
  reachable N listing s ->
  ((0 < N)%nat -> (length (reports s) <= 1)%nat)
  /\ (reports s ≠ [] ->
      forall i w, workers s !! i = Some w -> wpc w = WExited true).
Proof.
  intros Hreach. pose proof (reachable_report_inv _ _ _ Hreach) as Hinv. split.
  - intros HN. destruct Hinv as (Hlen & Hex & _).
    pose proof (count_workers_le exited (workers s)) as Hle. nia.
  - intros Hne i w Hw.
    pose proof (count_workers_all _ _ _ _ (report_inv_all_exited _ _ Hinv Hne) Hw) as He.
    unfold exited in He. destruct (wpc w) as [| | | | |[]]; try discriminate. reflexivity.
Qed.

Lemma Metrics_returns_once_witness :
  ((0 < 1)%nat -> (length (reports (after 1 metrics_run (started 1 a_listing))) <= 1)%nat)
  /\ (reports (after 1 metrics_run (started 1 a_listing)) ≠ [] ->
      forall i w, workers (after 1 metrics_run (started 1 a_listing)) !! i = Some w ->
                  wpc w = WExited true).
Proof.
  apply (Metrics_returns_once 1 a_listing). exists metrics_run. vm_compute. reflexivity.
Defined.

(** X14: the counters of a report of [Metrics] are the sums over all
    workers of the workers' counters, wrapped to [int] and to [uint64]. *)
Theorem Metrics_report_totals N listing s r :
  reachable N listing s ->
  r ∈ reports s ->
  FilesDownloaded r = int64 (total_of everyone filesDownloaded (workers s))
  /\ BytesDownloaded r = uint64 (total_of everyone bytesDownloaded (workers s)).
Proof.
  intros Hreach Hin. pose proof (reachable_report_inv _ _ _ Hreach) as Hinv.
  assert (Hall : count_workers exited (workers s) = length (workers s)).
  { apply (report_inv_all_exited N _ Hinv). intros Hnil. rewrite Hnil in Hin. inversion Hin. }
  destruct Hinv as (_ & _ & _ & _ & Hrep). destruct (Hrep r Hin) as [-> ->].
  rewrite (total_of_all files_sent) by (apply count_workers_files_sent, Hall).
  rewrite (total_of_all exited) by exact Hall. split; reflexivity.
Qed.

Lemma Metrics_report_totals_witness :
  FilesDownloaded metrics_run_report
  = int64 (total_of everyone filesDownloaded
             (workers (after 1 metrics_run (started 1 a_listing))))
  /\ BytesDownloaded metrics_run_report
     = uint64 (total_of everyone bytesDownloaded
                 (workers (after 1 metrics_run (started 1 a_listing)))).
Proof.
  apply (Metrics_report_totals 1 a_listing).
  - exists metrics_run. vm_compute. reflexivity.
  - vm_compute. apply list_elem_of_here.
Defined.

Lemma latencies_of_snoc ws ids i :
  latencies_of ws (ids ++ [i])
  = latencies_of ws ids ++ default [] (latencies <$> ws !! i).
Proof.
  unfold latencies_of. rewrite fmap_app, concat_app. cbn. rewrite app_nil_r. reflexivity.
Qed.

Lemma latencies_of_nil ids : latencies_of [] ids = [].
Proof. induction ids as [|i ids IH]; [reflexivity|]. exact IH. Qed.

(** A worker that keeps its list, or has not sent it, changes nothing of
    the lists sent. *)
Lemma latencies_of_insert ws ids i w w' :
  ws !! i = Some w ->
  i ∉ ids \/ latencies w' = latencies w ->
  latencies_of (<[i := w']> ws) ids = latencies_of ws ids.
Proof.
  intros Hw Hor. unfold latencies_of. f_equal. apply list_fmap_ext.
  intros n j Hj. destruct (decide (j = i)) as [->|Hne].
  - destruct Hor as [Hnotin|Hsame].
    + exfalso. apply Hnotin. apply (list_elem_of_lookup_2 _ _ _ Hj).
    + rewrite (lookup_insert_same _ _ _ _ Hw), Hw. cbn. rewrite Hsame. reflexivity.
  - rewrite list_lookup_insert_ne by congruence. reflexivity.
Qed.

Lemma latencies_inv_frame s s' :
  workers s' = workers s ->
  metrics s' = metrics s ->
  reports s' = reports s ->
  reported s' = reported s ->
  latencies_inv s -> latencies_inv s'.
Proof. unfold latencies_inv. intros -> -> -> ->. auto. Qed.

Lemma latencies_inv_worker s s' i w w' :
  workers s !! i = Some w ->
  workers s' = <[i := w']> (workers s) ->
  metrics s' = metrics s ->
  reports s' = reports s ->
  reported s' = reported s ->
  i ∉ reported s \/ latencies w' = latencies w ->
  latencies_inv s -> latencies_inv s'.
Proof.
  unfold latencies_inv. intros Hw -> -> -> -> Hor.
  rewrite (latencies_of_insert _ _ _ _ _ Hw Hor). auto.
Qed.

Lemma step_latencies_inv N l s s' :
  report_inv N s -> metrics_inv N s ->
  latencies_inv s -> step N l s = Some s' -> latencies_inv s'.
Proof.
  intros Hrinv [(_ & Hsent & _) _] Hinv Hstep. apply step_inv in Hstep as [_ Hshape].
  destruct l as [|i|i answer|i| | |b| |i|i|i]; cbn [step_shape] in Hshape.
  - destruct Hshape as [(c & f & Hf & ->)|(msg & ->)];
      revert Hinv; apply latencies_inv_frame; reflexivity.
  - destruct Hshape as (w & Hw & Hsel & [(task & f & Hf & ->)|(msg & ->)]); [|exact Hinv].
    revert Hinv.
    apply (latencies_inv_worker s _ i w (set_wpc (WTask task) w) Hw); try reflexivity.
    right. reflexivity.
  - destruct Hshape as (w & task & Hw & Hpc & [(c & w' & Hd & ->)|(msg & ->)]);
      [|exact Hinv].
    revert Hinv. apply (latencies_inv_worker s _ i w w' Hw); try reflexivity.
    left. intros Hin. destruct (Hsent i Hin) as (w0 & Hw0 & Hs0).
    assert (w0 = w) as -> by congruence.
    unfold sent_latencies in Hs0. rewrite Hpc in Hs0. exact Hs0.
  - destruct Hshape as (w & Hw & Hpc & _ & ->).
    revert Hinv.
    apply (latencies_inv_worker s _ i w (set_wpc WReturnLatencies w) Hw); try reflexivity.
    right. reflexivity.
  - destruct Hshape as [(c & Hc & ->)|(msg & ->)];
      revert Hinv; apply latencies_inv_frame; reflexivity.
  - destruct Hshape as [(c & Hc & ->)|(msg & ->)];
      revert Hinv; apply latencies_inv_frame; reflexivity.
  - subst s'. revert Hinv. apply latencies_inv_frame; reflexivity.
  - destruct Hshape as (Hm & ->). destruct Hrinv as (Hlen & _).
    destruct Hinv as (Hcur & Hrep). rewrite Hm in Hcur.
    unfold latencies_inv, set_metrics, Metrics_advance.
    case_bool_decide as HN; [case_bool_decide as H0; [|congruence]|];
      cbn [workers metrics reports reported option_list option_rect].
    + split; [intros Hnil; destruct (reports s); discriminate|].
      intros r Hin. apply elem_of_app in Hin as [Hin|Hin]; [apply Hrep, Hin|].
      apply list_elem_of_singleton in Hin as ->. cbn.
      destruct (workers s); [|subst N; discriminate]. rewrite latencies_of_nil. reflexivity.
    + rewrite app_nil_r. split; [|exact Hrep].
      intros Hnil. rewrite (Hcur Hnil). reflexivity.
  - destruct Hshape as (w & k & l & Hw & Hpc & Hm & ->).
    assert (Hnone : reports s = []).
    { apply (report_inv_no_report N s i w Hrinv Hw).
      unfold exited. rewrite Hpc. reflexivity. }
    destruct Hinv as (Hcur & Hrep). rewrite Hm in Hcur. specialize (Hcur Hnone).
    assert (Hnew : l ++ latencies w
                   = latencies_of (<[i := set_wpc WReturnFilesDownloaded w]> (workers s))
                       (reported s ++ [i])).
    { rewrite latencies_of_snoc, (lookup_insert_same _ _ _ _ Hw). cbn.
      rewrite (latencies_of_insert _ _ _ _ _ Hw) by (right; reflexivity).
      rewrite Hcur. reflexivity. }
    unfold latencies_inv, set_metrics, Metrics_advance.
    case_bool_decide as HN; [case_bool_decide as H0; [exfalso; lia|]|];
      cbn [workers metrics reports reported option_list option_rect
           record_reported set_worker];
      rewrite Hnone; cbn [app]; (split; [auto|intros r Hin; inversion Hin]).
  - destruct Hshape as (w & k & l & files & bytes & Hw & Hpc & Hm & ->).
    assert (Hnone : reports s = []).
    { apply (report_inv_no_report N s i w Hrinv Hw).
      unfold exited. rewrite Hpc. reflexivity. }
    destruct Hinv as (Hcur & Hrep). rewrite Hm in Hcur.
    unfold latencies_inv, set_metrics, Metrics_advance.
    cbn [workers metrics reports reported option_list option_rect set_worker].
    rewrite (latencies_of_insert _ _ _ _ _ Hw) by (right; reflexivity).
    rewrite Hnone. split; [exact Hcur|intros r Hin; inversion Hin].
  - destruct Hshape as (w & k & l & files & bytes & Hw & Hpc & Hm & ->).
    assert (Hnone : reports s = []).
    { apply (report_inv_no_report N s i w Hrinv Hw).
      unfold exited. rewrite Hpc. reflexivity. }
    destruct Hinv as (Hcur & Hrep). rewrite Hm in Hcur.
    unfold latencies_inv, set_metrics, Metrics_advance.
    case_bool_decide as HN;
      cbn [workers metrics reports reported option_list option_rect set_worker set_shared];
      rewrite (latencies_of_insert _ _ _ _ _ Hw) by (right; reflexivity);
      rewrite Hnone; cbn [app].
    + split; [discriminate|].
      intros r Hin. apply list_elem_of_singleton in Hin as ->. exact Hcur.
    + split; [exact Hcur|intros r Hin; inversion Hin].
Qed.

Lemma reachable_latencies_inv N listing s : reachable N listing s -> latencies_inv s.
Proof.
  intros [ls Hrun].
  apply (exec_invariant N
           (fun x => report_inv N x /\ metrics_inv N x /\ latencies_inv x))
    in Hrun as (_ & _ & Hinv); [exact Hinv| |].
  - intros l s1 s2 (Hr & Hm & Hinv) Hstep. split; [|split].
    + apply (step_report_inv _ _ _ _ Hr Hstep).
    + apply (step_metrics_inv _ _ _ _ Hm Hstep).
    + apply (step_latencies_inv _ _ _ _ Hr Hm Hinv Hstep).
  - split; [apply started_report_inv|]. split; [apply started_metrics_inv|].
    unfold latencies_inv. cbn. split; [reflexivity|]. intros r Hin. inversion Hin.
Qed.

(** X15: the latency list of a report of [Metrics] is made of the lists
    of the workers, whole and one after the other in the order [Metrics]
    received them, the list of every worker exactly once. *)
Theorem Metrics_report_latencies N listing s r :
  reachable N listing s ->
  r ∈ reports s ->
  FirstByteLatencies r = latencies_of (workers s) (reported s)
  /\ reported s ≡ₚ seq 0 N.
Proof.
  intros Hreach Hin. split.
  - destruct (reachable_latencies_inv _ _ _ Hreach) as [_ Hrep]. apply Hrep, Hin.
  - destruct (reachable_metrics_inv _ _ _ Hreach) as [(Hnd & Hsent & Hlen & Hmany) _].
    apply submseteq_length_Permutation.
    + apply NoDup_submseteq; [exact Hnd|]. intros i Hi.
      destruct (Hsent i Hi) as (w & Hw & _). apply lookup_lt_Some in Hw.
      apply elem_of_seq. lia.
    + rewrite length_seq. apply Hmany. intros Hnil. rewrite Hnil in Hin. inversion Hin.
Qed.

Lemma Metrics_report_latencies_witness :
  FirstByteLatencies metrics_run_report
  = latencies_of (workers (after 1 metrics_run (started 1 a_listing)))
      (reported (after 1 metrics_run (started 1 a_listing)))
  /\ reported (after 1 metrics_run (started 1 a_listing)) ≡ₚ seq 0 1.
Proof.
  apply (Metrics_report_latencies 1 a_listing).
  - exists metrics_run. vm_compute. reflexivity.
  - vm_compute. apply list_elem_of_here.
Defined.
